(** * pycallblock: the modem protocol engine, embedded and verified

    A shallow embedding of [pycallblock/modem.py] and [pycallblock/util.py].

    Conventions of the embedding.
    - A Python [bytes] object is a [list N] of values below 256; a Python
      [str] is a [list N] of code points.  [lit] turns a literal into either.
    - A function that may raise returns a [result]; [Blocked] is the outcome
      of an [await] on the serial reader that never completes.
    - An [async] method of [Modem] is a function from the modem object (and
      the transport it owns) to a [result] and the modem afterwards.
    - Logging has no effect on the modelled state and is left out. *)

From Stdlib Require Import ZArith NArith List Bool Lia String Ascii DecimalString.
From Stdlib Require Import Floats Uint63.
From stdpp Require Import base option list gmap.

Set Default Proof Using "Type".
Local Open Scope N_scope.

(** ** Python values *)

Abbreviation bytes := (list N) (only parsing).
Abbreviation str := (list N) (only parsing).

Definition lit (s : string) : list N :=
  List.map N_of_ascii (list_ascii_of_string s).

Inductive exn :=
  | ValueError
  | IndexError
  | UnicodeDecodeError
  | UnicodeEncodeError
  | AttributeError
  | ZeroDivisionError
  | OverflowError
  | TypeError
  | EOFError
  | OSError
  | CancelledError.

(** [UnicodeDecodeError] and [UnicodeEncodeError] are subclasses of
    [ValueError]: an [except ValueError] clause catches the three. *)
Definition is_ValueError (e : exn) : bool :=
  match e with
  | ValueError | UnicodeDecodeError | UnicodeEncodeError => true
  | _ => false
  end.

Inductive result (A : Type) :=
  | Ret (a : A)
  | Raise (e : exn)
  | Blocked.
Arguments Ret {A} a.
Arguments Raise {A} e.
Arguments Blocked {A}.

Definition rbind {A B} (r : result A) (k : A -> result B) : result B :=
  match r with
  | Ret a => k a
  | Raise e => Raise e
  | Blocked => Blocked
  end.

Module Py.

(** [l.startswith(pre)] *)
Fixpoint startswith (pre l : list N) : bool :=
  match pre, l with
  | [], _ => true
  | p :: pre', x :: l' => (p =? x) && startswith pre' l'
  | _ :: _, [] => false
  end.

(** [l.endswith(suf)] *)
Definition endswith (suf l : list N) : bool :=
  startswith (rev suf) (rev l).

(** [l.find(needle)]: the lowest index where [needle] occurs. *)
Fixpoint find (needle l : list N) : option nat :=
  if startswith needle l then Some O
  else match l with
       | [] => None
       | _ :: l' => option_map S (find needle l')
       end.

(** [l.rfind(needle)]: the highest index where [needle] occurs. *)
Fixpoint rfind (needle l : list N) : option nat :=
  match l with
  | [] => if startswith needle [] then Some O else None
  | _ :: l' =>
      match rfind needle l' with
      | Some i => Some (S i)
      | None => if startswith needle l then Some O else None
      end
  end.

(** [needle in l], on [str] and on [bytes]. *)
Definition contains (needle l : list N) : bool :=
  match find needle l with Some _ => true | None => false end.

(** [l.partition(sep)] for a non-empty [sep]. *)
Definition partition (sep l : list N) : list N * list N * list N :=
  match find sep l with
  | Some i => (take i l, sep, drop (i + length sep) l)
  | None => (l, [], [])
  end.

(** [l.split(sep)] for a non-empty [sep]: cut at the first occurrence and
    go on after it.  Every cut removes at least one element, so [length l]
    rounds are enough. *)
Fixpoint split_from (n : nat) (sep l : list N) : list (list N) :=
  match n with
  | O => [l]
  | S n' =>
      match find sep l with
      | None => [l]
      | Some i => take i l :: split_from n' sep (drop (i + length sep) l)
      end
  end.

Definition split (sep l : list N) : list (list N) :=
  split_from (length l) sep l.

(** [l.replace(old, new)] for a non-empty [old]. *)
Fixpoint replace_from (n : nat) (old new l : list N) : list N :=
  match n with
  | O => l
  | S n' =>
      match find old l with
      | None => l
      | Some i => take i l ++ new ++ replace_from n' old new (drop (i + length old) l)
      end
  end.

Definition replace (old new l : list N) : list N :=
  replace_from (length l) old new l.

Fixpoint lstrip (p : N -> bool) (l : list N) : list N :=
  match l with
  | c :: l' => if p c then lstrip p l' else l
  | [] => []
  end.

Definition rstrip (p : N -> bool) (l : list N) : list N :=
  rev (lstrip p (rev l)).

(** [l.strip(chars)], the characters to remove given as a predicate. *)
Definition strip (p : N -> bool) (l : list N) : list N :=
  rstrip p (lstrip p l).

Definition one_of (chars : list N) (c : N) : bool :=
  existsb (N.eqb c) chars.

(** ASCII whitespace, what [bytes.strip()] removes: space, TAB, LF, VT,
    FF and CR. *)
Definition is_space : N -> bool := one_of [32; 9; 10; 11; 12; 13].

(** [l.removeprefix(pre)] *)
Definition removeprefix (pre l : list N) : list N :=
  if startswith pre l then drop (length pre) l else l.

(** [l.removesuffix(suf)] *)
Definition removesuffix (suf l : list N) : list N :=
  if endswith suf l then take (length l - length suf) l else l.

(** [sep.join(parts)] *)
Fixpoint join (sep : list N) (parts : list (list N)) : list N :=
  match parts with
  | [] => []
  | [p] => p
  | p :: ps => p ++ sep ++ join sep ps
  end.

Definition is_crlf (c : N) : bool := (c =? 13) || (c =? 10).

(** [re.split("[\r\n]+", s)]: cut at every maximal run of CR and LF.
    [in_sep] says that the previous character belonged to a run. *)
Fixpoint re_split_crlf_aux (in_sep : bool) (cur s : list N) : list (list N) :=
  match s with
  | [] => [rev cur]
  | c :: s' =>
      if is_crlf c then
        if in_sep then re_split_crlf_aux true cur s'
        else rev cur :: re_split_crlf_aux true [] s'
      else re_split_crlf_aux false (c :: cur) s'
  end.

Definition re_split_crlf (s : list N) : list (list N) :=
  re_split_crlf_aux false [] s.

(** [l.pop()] on a list: the last element and what stays. *)
Fixpoint pop_last {A} (l : list A) : option (list A * A) :=
  match l with
  | [] => None
  | [x] => Some ([], x)
  | x :: l' =>
      match pop_last l' with
      | Some (front, y) => Some (x :: front, y)
      | None => None
      end
  end.

(** *** UTF-8, the codec of [bytes.decode()] and [str.encode()] *)

Definition is_cont (b : N) : bool := (128 <=? b) && (b <=? 191).
Definition between (lo hi b : N) : bool := (lo <=? b) && (b <=? hi).
Definition low6 (b : N) : N := b mod 64.

Definition cons_opt (c : N) (o : option (list N)) : option (list N) :=
  match o with Some l => Some (c :: l) | None => None end.

(** Strict decoding: no overlong form, no surrogate, nothing above
    U+10FFFF. *)
Fixpoint decode (bs : list N) : option (list N) :=
  match bs with
  | [] => Some []
  | b0 :: r0 =>
      if b0 <? 128 then cons_opt b0 (decode r0)
      else if between 194 223 b0 then
        match r0 with
        | b1 :: r1 =>
            if is_cont b1 then cons_opt ((b0 - 192) * 64 + low6 b1) (decode r1)
            else None
        | _ => None
        end
      else if between 224 239 b0 then
        match r0 with
        | b1 :: b2 :: r2 =>
            if (if b0 =? 224 then between 160 191 b1
                else if b0 =? 237 then between 128 159 b1
                else is_cont b1) && is_cont b2
            then cons_opt ((b0 - 224) * 4096 + low6 b1 * 64 + low6 b2) (decode r2)
            else None
        | _ => None
        end
      else if between 240 244 b0 then
        match r0 with
        | b1 :: b2 :: b3 :: r3 =>
            if (if b0 =? 240 then between 144 191 b1
                else if b0 =? 244 then between 128 143 b1
                else is_cont b1) && is_cont b2 && is_cont b3
            then cons_opt ((b0 - 240) * 262144 + low6 b1 * 4096 + low6 b2 * 64 + low6 b3)
                          (decode r3)
            else None
        | _ => None
        end
      else None
  end.

Definition encode_char (c : N) : option (list N) :=
  if c <? 128 then Some [c]
  else if c <? 2048 then Some [192 + c / 64; 128 + low6 c]
  else if c <? 65536 then
    if between 55296 57343 c then None
    else Some [224 + c / 4096; 128 + low6 (c / 64); 128 + low6 c]
  else if c <? 1114112 then
    Some [240 + c / 262144; 128 + low6 (c / 4096); 128 + low6 (c / 64); 128 + low6 c]
  else None.

Fixpoint encode (s : list N) : option (list N) :=
  match s with
  | [] => Some []
  | c :: s' =>
      match encode_char c, encode s' with
      | Some b, Some bs => Some (b ++ bs)
      | _, _ => None
      end
  end.

(** [str(n)] and the [{n}] of an f-string, for an [int]. *)
Definition str_of_int (z : Z) : list N :=
  lit (DecimalString.NilZero.string_of_int (Z.to_int z)).

End Py.

(** ** Enumerations *)

Definition DLE : N := 16.
Definition CR : N := 13.
Definition LF : N := 10.

Inductive ResultCode :=
  | OK
  | CONNECT
  | RING
  | NO_CARRIER
  | ERROR
  | DIGITAL_LINE_DETECTED.

Definition ResultCode_value (rc : ResultCode) : str :=
  match rc with
  | OK => lit "OK"
  | CONNECT => lit "CONNECT"
  | RING => lit "RING"
  | NO_CARRIER => lit "NO CARRIER"
  | ERROR => lit "ERROR"
  | DIGITAL_LINE_DETECTED => lit "DIGITAL LINE DETECTED"
  end.

Definition ResultCode_members : list ResultCode :=
  [OK; CONNECT; RING; NO_CARRIER; ERROR; DIGITAL_LINE_DETECTED].

(** [ResultCode(s)]: the member whose value is [s]; [None] stands for the
    [ValueError] of an unknown value. *)
Definition ResultCode_of (s : str) : option ResultCode :=
  List.find (fun rc => bool_decide (ResultCode_value rc = s)) ResultCode_members.

Inductive Mode :=
  | DATA
  | FAX_CLASS_1
  | FAX_CLASS_1_0
  | FAX_CLASS_2
  | VOICE.

Definition Mode_value (m : Mode) : str :=
  match m with
  | DATA => lit "0"
  | FAX_CLASS_1 => lit "1"
  | FAX_CLASS_1_0 => lit "1.0"
  | FAX_CLASS_2 => lit "2"
  | VOICE => lit "8"
  end.

Definition Mode_members : list Mode :=
  [DATA; FAX_CLASS_1; FAX_CLASS_1_0; FAX_CLASS_2; VOICE].

Definition Mode_of (s : str) : option Mode :=
  List.find (fun m => bool_decide (Mode_value m = s)) Mode_members.

Inductive State :=
  | INITIALIZED
  | WAITING_EVENT
  | VOICE_COMMAND
  | VOICE_RECEIVE
  | VOICE_TRANSMIT
  | VOICE_DUPLEX.

Inductive DTMF :=
  | DTMF_0 | DTMF_1 | DTMF_2 | DTMF_3 | DTMF_4 | DTMF_5 | DTMF_6 | DTMF_7
  | DTMF_8 | DTMF_9 | DTMF_A | DTMF_B | DTMF_C | DTMF_D | DTMF_E | DTMF_F.

Definition DTMF_value (d : DTMF) : str :=
  match d with
  | DTMF_0 => lit "0" | DTMF_1 => lit "1" | DTMF_2 => lit "2" | DTMF_3 => lit "3"
  | DTMF_4 => lit "4" | DTMF_5 => lit "5" | DTMF_6 => lit "6" | DTMF_7 => lit "7"
  | DTMF_8 => lit "8" | DTMF_9 => lit "9" | DTMF_A => lit "A" | DTMF_B => lit "B"
  | DTMF_C => lit "C" | DTMF_D => lit "D" | DTMF_E => lit "*" | DTMF_F => lit "#"
  end.

Definition DTMF_members : list DTMF :=
  [DTMF_0; DTMF_1; DTMF_2; DTMF_3; DTMF_4; DTMF_5; DTMF_6; DTMF_7;
   DTMF_8; DTMF_9; DTMF_A; DTMF_B; DTMF_C; DTMF_D; DTMF_E; DTMF_F].

Definition DTMF_of (s : str) : option DTMF :=
  List.find (fun d => bool_decide (DTMF_value d = s)) DTMF_members.

#[global] Instance ResultCode_eq_dec : EqDecision ResultCode.
Proof. solve_decision. Defined.
#[global] Instance Mode_eq_dec : EqDecision Mode.
Proof. solve_decision. Defined.
#[global] Instance State_eq_dec : EqDecision State.
Proof. solve_decision. Defined.
#[global] Instance DTMF_eq_dec : EqDecision DTMF.
Proof. solve_decision. Defined.

(** ** Events and calls *)

(** [Event._data] is a [str] for a bare line and a [dict] for a block of
    [KEY = VALUE] lines. *)
Inductive EventData :=
  | Scalar (s : str)
  | Fields (d : gmap (list N) (list N)).

Module Event.

Record t := mk { _data : EventData; _raw : bytes; _timestamp : Z }.

(** [Event(data, bytes_, timestamp=None)]; [now] is [time.time_ns()]. *)
Definition init (now : Z) (data : EventData) (bytes_ : bytes)
    (timestamp : option Z) : t :=
  {| _data := data;
     _raw := bytes_;
     _timestamp := match timestamp with
                   | Some ts => if (ts =? 0)%Z then now else ts
                   | None => now
                   end |}.

(** [key in self._data]: substring search on a [str], key lookup on a
    [dict]. *)
Definition data_contains (key : str) (d : EventData) : bool :=
  match d with
  | Scalar s => Py.contains key s
  | Fields f => bool_decide (is_Some (f !! key))
  end.

(** [Modem.RING.decode()], the shielded code DLE R as text. *)
Definition RING_text : str := DLE :: lit "R".

Definition is_ring (e : t) : bool :=
  match _data e with
  | Scalar s =>
      match ResultCode_of s with
      | Some rc => bool_decide (rc = RING)
      | None => bool_decide (s = RING_text)
      end
  | Fields _ => false
  end.

Definition is_message_event (e : t) : bool :=
  data_contains (lit "MSG_WAITING") (_data e).

Definition is_call (e : t) : bool :=
  data_contains (lit "DATE") (_data e)
  && data_contains (lit "TIME") (_data e)
  && negb (is_message_event e).

(** [len(self._data) == 2 and self._data.startswith(DLE.decode())]: a
    dict of two keys passes the first test and has no [startswith]. *)
Definition is_shielded_code (e : t) : result bool :=
  match _data e with
  | Scalar s => Ret ((length s =? 2)%nat && Py.startswith [DLE] s)
  | Fields f => if (size f =? 2)%nat then Raise AttributeError else Ret false
  end.

(** [event.data[1]] on an event that [is_shielded_code]: the second of its
    two characters. *)
Definition code_of (e : t) : str :=
  match _data e with
  | Scalar s => take 1 (drop 1 s)
  | Fields _ => []
  end.

(** The loop of [from_bytes]: [key, val = part.split(" = ")] needs exactly
    two pieces, anything else is a [ValueError]. *)
Fixpoint fill (parts : list str) (dict_ : gmap (list N) (list N))
    : result (gmap (list N) (list N)) :=
  match parts with
  | [] => Ret dict_
  | part :: parts' =>
      match Py.split (lit " = ") part with
      | [key; val] => fill parts' (<[key := val]> dict_)
      | _ => Raise ValueError
      end
  end.

Definition from_bytes (now : Z) (bytes_ : bytes) : result t :=
  match Py.decode (Py.strip Py.is_space bytes_) with
  | None => Raise UnicodeDecodeError
  | Some data =>
      if negb (Py.contains (lit " = ") data) then
        Ret (init now (Scalar data) bytes_ None)
      else
        rbind (fill (Py.re_split_crlf data) ∅)
              (fun dict_ => Ret (init now (Fields dict_) bytes_ None))
  end.

End Event.

Module Call.

Record t := mk { _number : option str; _name : option str; _timestamp : Z }.

Definition init (now : Z) (number name : option str) (timestamp : option Z) : t :=
  {| _number := number;
     _name := name;
     _timestamp := match timestamp with
                   | Some ts => if (ts =? 0)%Z then now else ts
                   | None => now
                   end |}.

Definition is_private (c : t) : bool :=
  bool_decide (_number c = Some (lit "P")) || bool_decide (_number c = Some (lit "O")).

(** [Call.from_event]: [event.data.get] exists on a dict only. *)
Definition from_event (now : Z) (event : Event.t) : result t :=
  match Event._data event with
  | Fields d => Ret (init now (d !! lit "NMBR") (d !! lit "NAME")
                          (Some (Event._timestamp event)))
  | Scalar _ => Raise AttributeError
  end.

End Call.

(** ** Command responses *)

Definition CLPREFIX : str := lit "AT".

Module CommandResponse.

Record t := mk {
  _cmd : str;
  _data : option str;
  _result_code : ResultCode;
  _raw : bytes
}.

Definition is_ok (r : t) : bool := bool_decide (_result_code r = OK).

(** What [from_bytes] removes from the front of the data: the command
    without its prefix and without [=] or [?] at its ends, then [": "]. *)
Definition extra (cmd : str) : str :=
  Py.strip (Py.one_of (lit "=?")) (Py.replace CLPREFIX [] cmd) ++ lit ": ".

Definition from_bytes (bytes_ : bytes) : result t :=
  match Py.decode (Py.strip Py.is_space bytes_) with
  | None => Raise UnicodeDecodeError
  | Some text =>
      match Py.re_split_crlf text with
      | [] => Raise IndexError
      | cmd :: split =>
          match Py.pop_last split with
          | None => Raise IndexError
          | Some (split, last) =>
              match ResultCode_of last with
              | None => Raise ValueError
              | Some result_code =>
                  let data :=
                    match split with
                    | [] => None
                    | _ => Some (Py.removeprefix (extra cmd) (Py.join [LF] split))
                    end in
                  Ret (mk cmd data result_code bytes_)
              end
          end
      end
  end.

End CommandResponse.

(** ** The modem object

    [_stop_event] holds [None] or one of four strings. *)

Inductive StopReason :=
  | Timeout
  | Exit
  | Stop
  | Busy.

Definition StopReason_str (r : StopReason) : str :=
  match r with
  | Timeout => lit "timeout"
  | Exit => lit "exit"
  | Stop => lit "stop"
  | Busy => lit "busy"
  end.

#[global] Instance StopReason_eq_dec : EqDecision StopReason.
Proof. solve_decision. Defined.

(** [_last_dtmf] holds [None], the string ['/'] or a [DTMF] member. *)
Inductive LastDtmf :=
  | NoDtmf
  | Shield
  | Tone (d : DTMF).

(** Python numbers: [int] and [float]. *)
Inductive number :=
  | PyInt (z : Z)
  | PyFloat (f : float).

(** The coroutines handed to [create_background_task]. *)
Inductive Coro :=
  | coro_receive (max_duration : number) (wav : option str)
  | coro_transmit (max_duration : number)
  | coro_silence_detection
  | coro_play_queue_consumer
  | coro_event_loop
  | coro_dtmf_callback (d : DTMF)
  | coro_silence_callback.

(** A hook of the modem: an [async def] with that many parameters besides
    [self].  Calling it with as many arguments gives a coroutine and runs
    nothing of its body; calling it with another number of arguments raises
    [TypeError]. *)
Record Hook := { hook_params : nat }.

Definition call_hook (h : Hook) (args : nat) (coro : Coro) : result Coro :=
  if (hook_params h =? args)%nat then Ret coro else Raise TypeError.

(** The fields of [Modem] that the modelled methods read or write, and the
    world the object owns: the two directions of the serial transport, the
    tasks it created and the files it wrote. *)
Record Modem := {
  _s3 : str;  (* the S3 register: command line terminator *)
  _s4 : str;  (* the S4 register: response formatting character *)
  _state : option State;
  _running : bool;
  _event_loop : option nat;  (* the event loop task, by identity *)
  _stop_event : option StopReason;
  _background_tasks : gset nat;  (* live tasks, by identity *)
  _silence : bool;
  _mode : option Mode;
  _last_dtmf : LastDtmf;
  dtmf_callback : Hook;  (* the hook called with a tone *)
  silence_callback : Hook;  (* the hook called without argument *)
  reader : bytes;  (* transport: bytes the serial line delivers, next first *)
  writer : list (list N);  (* transport: the chunks written so far, oldest first *)
  spawned : list Coro;  (* every task created so far; a task's identity is its index *)
  wav_files : list (list N * list N);  (* files written by [wave], path and frames *)
  wave_refuses : list N -> option exn
    (* what [wave.open(path, "wb")] raises for a path that cannot be written *)
}.

Definition with_s3 (v : str) (m : Modem) : Modem :=
  {| _s3 := v; _s4 := _s4 m; _state := _state m; _running := _running m;
     _event_loop := _event_loop m; _stop_event := _stop_event m;
     _background_tasks := _background_tasks m; _silence := _silence m;
     _mode := _mode m; _last_dtmf := _last_dtmf m; dtmf_callback := dtmf_callback m;
     silence_callback := silence_callback m; reader := reader m; writer := writer m;
     spawned := spawned m; wav_files := wav_files m; wave_refuses := wave_refuses m |}.

Definition with_s4 (v : str) (m : Modem) : Modem :=
  {| _s3 := _s3 m; _s4 := v; _state := _state m; _running := _running m;
     _event_loop := _event_loop m; _stop_event := _stop_event m;
     _background_tasks := _background_tasks m; _silence := _silence m;
     _mode := _mode m; _last_dtmf := _last_dtmf m; dtmf_callback := dtmf_callback m;
     silence_callback := silence_callback m; reader := reader m; writer := writer m;
     spawned := spawned m; wav_files := wav_files m; wave_refuses := wave_refuses m |}.

Definition with_state (v : option State) (m : Modem) : Modem :=
  {| _s3 := _s3 m; _s4 := _s4 m; _state := v; _running := _running m;
     _event_loop := _event_loop m; _stop_event := _stop_event m;
     _background_tasks := _background_tasks m; _silence := _silence m;
     _mode := _mode m; _last_dtmf := _last_dtmf m; dtmf_callback := dtmf_callback m;
     silence_callback := silence_callback m; reader := reader m; writer := writer m;
     spawned := spawned m; wav_files := wav_files m; wave_refuses := wave_refuses m |}.

Definition with_running (v : bool) (m : Modem) : Modem :=
  {| _s3 := _s3 m; _s4 := _s4 m; _state := _state m; _running := v;
     _event_loop := _event_loop m; _stop_event := _stop_event m;
     _background_tasks := _background_tasks m; _silence := _silence m;
     _mode := _mode m; _last_dtmf := _last_dtmf m; dtmf_callback := dtmf_callback m;
     silence_callback := silence_callback m; reader := reader m; writer := writer m;
     spawned := spawned m; wav_files := wav_files m; wave_refuses := wave_refuses m |}.

Definition with_event_loop (v : option nat) (m : Modem) : Modem :=
  {| _s3 := _s3 m; _s4 := _s4 m; _state := _state m; _running := _running m;
     _event_loop := v; _stop_event := _stop_event m;
     _background_tasks := _background_tasks m; _silence := _silence m;
     _mode := _mode m; _last_dtmf := _last_dtmf m; dtmf_callback := dtmf_callback m;
     silence_callback := silence_callback m; reader := reader m; writer := writer m;
     spawned := spawned m; wav_files := wav_files m; wave_refuses := wave_refuses m |}.

Definition with_stop_event (v : option StopReason) (m : Modem) : Modem :=
  {| _s3 := _s3 m; _s4 := _s4 m; _state := _state m; _running := _running m;
     _event_loop := _event_loop m; _stop_event := v;
     _background_tasks := _background_tasks m; _silence := _silence m;
     _mode := _mode m; _last_dtmf := _last_dtmf m; dtmf_callback := dtmf_callback m;
     silence_callback := silence_callback m; reader := reader m; writer := writer m;
     spawned := spawned m; wav_files := wav_files m; wave_refuses := wave_refuses m |}.

Definition with_background_tasks (v : gset nat) (m : Modem) : Modem :=
  {| _s3 := _s3 m; _s4 := _s4 m; _state := _state m; _running := _running m;
     _event_loop := _event_loop m; _stop_event := _stop_event m;
     _background_tasks := v; _silence := _silence m; _mode := _mode m;
     _last_dtmf := _last_dtmf m; dtmf_callback := dtmf_callback m;
     silence_callback := silence_callback m; reader := reader m; writer := writer m;
     spawned := spawned m; wav_files := wav_files m; wave_refuses := wave_refuses m |}.

Definition with_silence (v : bool) (m : Modem) : Modem :=
  {| _s3 := _s3 m; _s4 := _s4 m; _state := _state m; _running := _running m;
     _event_loop := _event_loop m; _stop_event := _stop_event m;
     _background_tasks := _background_tasks m; _silence := v; _mode := _mode m;
     _last_dtmf := _last_dtmf m; dtmf_callback := dtmf_callback m;
     silence_callback := silence_callback m; reader := reader m; writer := writer m;
     spawned := spawned m; wav_files := wav_files m; wave_refuses := wave_refuses m |}.

Definition with_mode (v : option Mode) (m : Modem) : Modem :=
  {| _s3 := _s3 m; _s4 := _s4 m; _state := _state m; _running := _running m;
     _event_loop := _event_loop m; _stop_event := _stop_event m;
     _background_tasks := _background_tasks m; _silence := _silence m; _mode := v;
     _last_dtmf := _last_dtmf m; dtmf_callback := dtmf_callback m;
     silence_callback := silence_callback m; reader := reader m; writer := writer m;
     spawned := spawned m; wav_files := wav_files m; wave_refuses := wave_refuses m |}.

Definition with_last_dtmf (v : LastDtmf) (m : Modem) : Modem :=
  {| _s3 := _s3 m; _s4 := _s4 m; _state := _state m; _running := _running m;
     _event_loop := _event_loop m; _stop_event := _stop_event m;
     _background_tasks := _background_tasks m; _silence := _silence m;
     _mode := _mode m; _last_dtmf := v; dtmf_callback := dtmf_callback m;
     silence_callback := silence_callback m; reader := reader m; writer := writer m;
     spawned := spawned m; wav_files := wav_files m; wave_refuses := wave_refuses m |}.

Definition with_dtmf_callback (v : Hook) (m : Modem) : Modem :=
  {| _s3 := _s3 m; _s4 := _s4 m; _state := _state m; _running := _running m;
     _event_loop := _event_loop m; _stop_event := _stop_event m;
     _background_tasks := _background_tasks m; _silence := _silence m;
     _mode := _mode m; _last_dtmf := _last_dtmf m; dtmf_callback := v;
     silence_callback := silence_callback m; reader := reader m; writer := writer m;
     spawned := spawned m; wav_files := wav_files m; wave_refuses := wave_refuses m |}.

Definition with_silence_callback (v : Hook) (m : Modem) : Modem :=
  {| _s3 := _s3 m; _s4 := _s4 m; _state := _state m; _running := _running m;
     _event_loop := _event_loop m; _stop_event := _stop_event m;
     _background_tasks := _background_tasks m; _silence := _silence m;
     _mode := _mode m; _last_dtmf := _last_dtmf m; dtmf_callback := dtmf_callback m;
     silence_callback := v; reader := reader m; writer := writer m;
     spawned := spawned m; wav_files := wav_files m; wave_refuses := wave_refuses m |}.

Definition with_reader (v : bytes) (m : Modem) : Modem :=
  {| _s3 := _s3 m; _s4 := _s4 m; _state := _state m; _running := _running m;
     _event_loop := _event_loop m; _stop_event := _stop_event m;
     _background_tasks := _background_tasks m; _silence := _silence m;
     _mode := _mode m; _last_dtmf := _last_dtmf m; dtmf_callback := dtmf_callback m;
     silence_callback := silence_callback m; reader := v; writer := writer m;
     spawned := spawned m; wav_files := wav_files m; wave_refuses := wave_refuses m |}.

Definition with_writer (v : list (list N)) (m : Modem) : Modem :=
  {| _s3 := _s3 m; _s4 := _s4 m; _state := _state m; _running := _running m;
     _event_loop := _event_loop m; _stop_event := _stop_event m;
     _background_tasks := _background_tasks m; _silence := _silence m;
     _mode := _mode m; _last_dtmf := _last_dtmf m; dtmf_callback := dtmf_callback m;
     silence_callback := silence_callback m; reader := reader m; writer := v;
     spawned := spawned m; wav_files := wav_files m; wave_refuses := wave_refuses m |}.

Definition with_spawned (v : list Coro) (m : Modem) : Modem :=
  {| _s3 := _s3 m; _s4 := _s4 m; _state := _state m; _running := _running m;
     _event_loop := _event_loop m; _stop_event := _stop_event m;
     _background_tasks := _background_tasks m; _silence := _silence m;
     _mode := _mode m; _last_dtmf := _last_dtmf m; dtmf_callback := dtmf_callback m;
     silence_callback := silence_callback m; reader := reader m; writer := writer m;
     spawned := v; wav_files := wav_files m; wave_refuses := wave_refuses m |}.

Definition with_wav_files (v : list (list N * list N)) (m : Modem) : Modem :=
  {| _s3 := _s3 m; _s4 := _s4 m; _state := _state m; _running := _running m;
     _event_loop := _event_loop m; _stop_event := _stop_event m;
     _background_tasks := _background_tasks m; _silence := _silence m;
     _mode := _mode m; _last_dtmf := _last_dtmf m; dtmf_callback := dtmf_callback m;
     silence_callback := silence_callback m; reader := reader m; writer := writer m;
     spawned := spawned m; wav_files := v; wave_refuses := wave_refuses m |}.

Definition with_wave_refuses (v : list N -> option exn) (m : Modem) : Modem :=
  {| _s3 := _s3 m; _s4 := _s4 m; _state := _state m; _running := _running m;
     _event_loop := _event_loop m; _stop_event := _stop_event m;
     _background_tasks := _background_tasks m; _silence := _silence m;
     _mode := _mode m; _last_dtmf := _last_dtmf m; dtmf_callback := dtmf_callback m;
     silence_callback := silence_callback m; reader := reader m; writer := writer m;
     spawned := spawned m; wav_files := wav_files m; wave_refuses := v |}.

(** [Modem()], with the two registers at their defaults and its own hooks
    ([dtmf_callback(self, dtmf)], [silence_callback(self)]), over a transport
    that will deliver [incoming]. *)
Definition new_Modem (incoming : bytes) : Modem :=
  {| _s3 := [CR]; _s4 := [LF]; _state := None; _running := false;
     _event_loop := None; _stop_event := None; _background_tasks := ∅;
     _silence := false; _mode := None; _last_dtmf := NoDtmf;
     dtmf_callback := {| hook_params := 1 |};
     silence_callback := {| hook_params := 0 |};
     reader := incoming; writer := []; spawned := []; wav_files := [];
     wave_refuses := fun _ => None |}.

(** [set_dtmf_callback] and [set_silence_callback] *)
Definition set_dtmf_callback (func : Hook) (m : Modem) : Modem :=
  with_dtmf_callback func m.

Definition set_silence_callback (func : Hook) (m : Modem) : Modem :=
  with_silence_callback func m.

(** An [async] method: from the modem to an outcome and the modem after. *)
Definition M (A : Type) : Type := Modem -> result A * Modem.

Definition ret {A} (a : A) : M A := fun m => (Ret a, m).
Definition raise {A} (e : exn) : M A := fun m => (Raise e, m).

Definition bind {A B} (c : M A) (k : A -> M B) : M B :=
  fun m =>
    match c m with
    | (Ret a, m') => k a m'
    | (Raise e, m') => (Raise e, m')
    | (Blocked, m') => (Blocked, m')
    end.

Notation "x <~ c ;; k" := (bind c (fun x => k))
  (at level 100, c at next level, right associativity).
Notation "c ;;; k" := (bind c (fun _ => k))
  (at level 100, right associativity).

(** What the program takes from Python's library without this model fixing
    it: Unicode upper-casing and the root-mean-square of [audioop]. *)
Class PyLib := {
  str_upper : str -> str;
  audioop_rms : bytes -> Z -> Z
}.

(** Upper-casing of ASCII letters, which is [str.upper] on ASCII text. *)
Definition ascii_upper (s : str) : str :=
  List.map (fun c => if (97 <=? c) && (c <=? 122) then c - 32 else c) s.

(** ** The command engine *)

Definition MAX_READ : nat := 1024.

Definition _header (m : Modem) : str := _s3 m ++ _s4 m.
Definition _trailer (m : Modem) : str := _s3 m ++ _s4 m.

(** [await self.read(1)]: the next byte, once there is one. *)
Definition read1 : M bytes :=
  fun m =>
    match reader m with
    | [] => (Blocked, m)
    | b :: rx => (Ret [b], with_reader rx m)
    end.

(** [await self.read()]: at most [MAX_READ] bytes, at least one.  How many
    of the pending bytes the transport hands over is not the program's
    choice: [avail] is what it has when the call returns. *)
Definition read (avail : nat) : M bytes :=
  fun m =>
    match reader m with
    | [] => (Blocked, m)
    | _ =>
        let n := Nat.min (Nat.max 1 avail) MAX_READ in
        (Ret (take n (reader m)), with_reader (drop n (reader m)) m)
    end.

(** [await self.read(timeout=t)]: as [read], but [b''] when nothing came in
    time ([avail = 0]). *)
Definition read_timeout (avail : nat) : M bytes :=
  fun m =>
    let n := Nat.min avail MAX_READ in
    (Ret (take n (reader m)), with_reader (drop n (reader m)) m).

(** [any((code.value + self._trailer).encode() in data for code in ResultCode)] *)
Fixpoint result_seen (codes : list ResultCode) (trailer : str) (data : bytes)
    : result bool :=
  match codes with
  | [] => Ret false
  | code :: codes' =>
      match Py.encode (ResultCode_value code ++ trailer) with
      | None => Raise UnicodeEncodeError
      | Some needle =>
          if Py.contains needle data then Ret true
          else result_seen codes' trailer data
      end
  end.

(** The loop of [read_until_result], on the bytes [rx] still to come. *)
Fixpoint read_until_result_from (trailer : str) (data rx : bytes)
    : result bytes * bytes :=
  match result_seen ResultCode_members trailer data with
  | Ret true => (Ret data, rx)
  | Ret false =>
      match rx with
      | [] => (Blocked, [])
      | b :: rx' => read_until_result_from trailer (data ++ [b]) rx'
      end
  | Raise e => (Raise e, rx)
  | Blocked => (Blocked, rx)
  end.

Definition read_until_result : M bytes :=
  fun m =>
    let '(r, rx) := read_until_result_from (_trailer m) [] (reader m) in
    (r, with_reader rx m).

(** [await self.write(data)] for [bytes] and for [str]. *)
Definition write (data : bytes) : M unit :=
  fun m => (Ret tt, with_writer (writer m ++ [data]) m).

Definition write_str (data : str) : M unit :=
  fun m =>
    match Py.encode data with
    | None => (Raise UnicodeEncodeError, m)
    | Some b => write b m
    end.

(** What [send] takes, one fragment or a list of them, and what it gives
    back, one response or a list of them. *)
Inductive Commands :=
  | One (cmd : str)
  | Many (cmds : list str).

Inductive Responses :=
  | Single (res : CommandResponse.t)
  | Several (responses : list CommandResponse.t).

Section Engine.

Context `{PyLib}.

Definition _commandify (m : Modem) (cmd : str) : str :=
  let cmd := str_upper cmd in
  let cmd := if Py.startswith CLPREFIX cmd then cmd else CLPREFIX ++ cmd in
  if Py.endswith (_s3 m) cmd then cmd else cmd ++ _s3 m.

(** The reads of [send] for one command: results are read until one holds
    the echo of [cmd].  Each read that returns has consumed a byte, so
    [fuel] as large as the pending input is never used up. *)
Fixpoint await_echo (fuel : nat) (cmd : str) : M bytes :=
  data <~ read_until_result ;;
  let data := Py.strip (Py.one_of (lit ";")) data in
  match Py.encode cmd with
  | None => raise UnicodeEncodeError
  | Some echo =>
      if Py.contains echo data then ret data
      else match fuel with
           | O => fun m => (Blocked, m)
           | S fuel' => await_echo fuel' cmd
           end
  end.

(** One round of the [for cmd in commands] loop of [send]. *)
Definition receive_response (cmd : str) : M CommandResponse.t :=
  fun m =>
    (data <~ await_echo (length (reader m)) cmd ;;
     match Py.encode cmd with
     | None => raise UnicodeEncodeError
     | Some sep =>
         let '(extra, echo, response) := Py.partition sep data in
         fun m' => (CommandResponse.from_bytes (echo ++ response), m')
     end) m.

Fixpoint send_each (commands : list str) (responses : list CommandResponse.t)
    : M (list CommandResponse.t) :=
  match commands with
  | [] => ret responses
  | cmd :: commands' =>
      res <~ receive_response cmd ;;
      send_each commands' (responses ++ [res])
  end.

Definition send (commands : Commands) : M Responses :=
  fun m =>
    let commands := match commands with One cmd => [cmd] | Many cmds => cmds end in
    let commands := List.map (_commandify m) commands in
    (write_str (Py.join (lit ";") commands) ;;;
     responses <~ send_each commands [] ;;
     match responses with
     | [] => raise IndexError
     | [res] => ret (Single res)
     | _ => ret (Several responses)
     end) m.

(** Attribute access on what [send] returned: a list has no [data],
    [is_ok] or [result_code]. *)
Definition the_response (r : Responses) : M CommandResponse.t :=
  match r with
  | Single res => ret res
  | Several _ => raise AttributeError
  end.

Definition get (cmd : str) : M (option str) :=
  r <~ send (One cmd) ;;
  res <~ the_response r ;;
  ret (CommandResponse._data res).

Definition get_mode : M Mode :=
  data <~ get (lit "+FCLASS?") ;;
  match data with
  | Some s => match Mode_of s with Some mode => ret mode | None => raise ValueError end
  | None => raise ValueError
  end.

Definition soft_reset : M unit :=
  send (One (lit "ATZ")) ;;;
  mode <~ get_mode ;;
  fun m => (Ret tt, with_s4 [LF] (with_s3 [CR] (with_state (Some INITIALIZED)
                      (with_mode (Some mode) m)))).

Definition set_mode (mode : Mode) : M bool :=
  r <~ send (One (lit "+FCLASS=" ++ Mode_value mode)) ;;
  res <~ the_response r ;;
  if CommandResponse.is_ok res then
    fun m => (Ret true, with_mode (Some mode) m)
  else ret false.

Definition set_caller_id (bool_ : bool) : M bool :=
  r <~ send (One (lit "AT+VCID=" ++ Py.str_of_int (if bool_ then 1 else 0))) ;;
  res <~ the_response r ;;
  ret (CommandResponse.is_ok res).

Definition pick_up : M unit :=
  fun m =>
    (match _mode m with
     | Some FAX_CLASS_1 | Some FAX_CLASS_1_0 | Some FAX_CLASS_2 => send (One (lit "ATA"))
     | Some VOICE => send (One (lit "+VLS=1"))
     | _ => send (One (lit "ATH1"))
     end ;;; ret tt) m.

Definition hang_up : M unit :=
  fun m =>
    (match _mode m with
     | Some VOICE => send (One (lit "+VLS=0"))
     | _ => send (One (lit "ATH0"))
     end ;;; ret tt) m.

End Engine.

(** ** Numbers, durations and silence *)

(** [float(z)] for an [int]: the nearest double, ties to even. *)
Definition float_of_int (z : Z) : result float :=
  let f := SF2Prim (binary_normalize prec emax z 0 false) in
  if PrimFloat.is_infinity f then Raise OverflowError else Ret f.

(** [int(f)] for a [float]: truncation towards zero. *)
Definition int_of_float (f : float) : result Z :=
  match Prim2SF f with
  | S754_zero _ => Ret 0%Z
  | S754_finite s m e =>
      let v := match e with
               | Zneg p => (Z.pos m / 2 ^ Z.pos p)%Z
               | _ => (Z.pos m * 2 ^ e)%Z
               end in
      Ret (if s then (- v)%Z else v)
  | S754_infinity _ => Raise OverflowError
  | S754_nan => Raise ValueError
  end.

Definition to_float (a : number) : result float :=
  match a with
  | PyInt z => float_of_int z
  | PyFloat f => Ret f
  end.

(** [a * b] *)
Definition number_mul (a b : number) : result number :=
  match a, b with
  | PyInt x, PyInt y => Ret (PyInt (x * y))
  | _, _ =>
      rbind (to_float a) (fun fa =>
      rbind (to_float b) (fun fb => Ret (PyFloat (fa * fb)%float)))
  end.

(** [int(a)] *)
Definition number_int (a : number) : result Z :=
  match a with
  | PyInt z => Ret z
  | PyFloat f => int_of_float f
  end.

(** [a / b] on two [int]s: the quotient of the two doubles.  This is
    Python's correctly rounded quotient whenever both are below [2^53] in
    magnitude, as the 32-bit fields of a WAV header are. *)
Definition int_truediv (a b : Z) : result float :=
  if (b =? 0)%Z then Raise ZeroDivisionError
  else
    rbind (float_of_int a) (fun fa =>
    rbind (float_of_int b) (fun fb => Ret (fa / fb)%float)).

(** What [wave.open(path, "rb")] does: it raises [FileNotFoundError], or
    [wave.Error], or another exception ([EOFError] on an empty file,
    [IsADirectoryError] and the other [OSError]s), or it opens the file and
    gives its parameters. *)
Inductive WaveOpen :=
  | FileNotFoundError
  | WaveError
  | OtherError (e : exn)
  | Opened (nchannels sampwidth framerate nframes : Z).

(** util.py, [wav_duration]: [None] when the file is missing or when
    [wave] rejects it; the [except] clause names these two exceptions and
    lets the others through. *)
Definition wav_duration (wav : WaveOpen) : result (option float) :=
  match wav with
  | FileNotFoundError | WaveError => Ret None
  | OtherError e => Raise e
  | Opened _ _ framerate nframes =>
      rbind (int_truediv nframes framerate) (fun d => Ret (Some d))
  end.

(** [silence(seconds=1, framerate=8000)] *)
Definition silence (seconds framerate : number) : result bytes :=
  rbind (number_mul seconds framerate) (fun p =>
  rbind (number_int p) (fun n => Ret (List.repeat 128 (Z.to_nat n)))).

Definition silence_default : result bytes := silence (PyInt 1) (PyInt 8000).

(** The literals [.2] and [.5] of [_transmit]. *)
Definition secs_0_2 : number := PyFloat 0x1.999999999999ap-3.
Definition secs_0_5 : number := PyFloat 0.5.

(** ** Background tasks *)

(** [create_background_task]: the new task is the next entry of [spawned]
    and joins the live set. *)
Definition create_background_task (coro : Coro) (m : Modem) : nat * Modem :=
  let task := length (spawned m) in
  (task, with_background_tasks ({[task]} ∪ _background_tasks m)
           (with_spawned (spawned m ++ [coro]) m)).

(** The completion callback every background task gets: the task leaves
    the live set, however it ended. *)
Definition task_done_callback (task : nat) (m : Modem) : Modem :=
  with_background_tasks (_background_tasks m ∖ {[task]}) m.

(** Several [create_background_task] in a row. *)
Definition spawn_all (coros : list Coro) (m : Modem) : Modem :=
  fold_left (fun m coro => (create_background_task coro m).2) coros m.

(** ** Shielded codes and the voice session *)

Definition END_STREAM : bytes := [DLE; 3].
Definition END_RECORD : bytes := [DLE; 33].
Definition END_DUPLEX : bytes := [DLE; 94].
Definition BUSY : bytes := [DLE; 98].
Definition Modem_RING : bytes := [DLE; 82].

(** [_catch_dtmf].  The argument of [create_background_task] is evaluated
    first: when the call of the hook raises, no task is created and
    [_last_dtmf] keeps the tone. *)
Definition _catch_dtmf (code : str) : M unit :=
  fun m =>
    if bool_decide (code = lit "/") then (Ret tt, with_last_dtmf Shield m)
    else
      match bool_decide (code = lit "~"), _last_dtmf m with
      | true, Tone d =>
          match call_hook (dtmf_callback m) 1 (coro_dtmf_callback d) with
          | Ret coro =>
              let '(_, m) := create_background_task coro m in
              (Ret tt, with_last_dtmf NoDtmf m)
          | Raise e => (Raise e, m)
          | Blocked => (Blocked, m)
          end
      | _, _ =>
          match DTMF_of code, _last_dtmf m with
          | Some d, Shield => (Ret tt, with_last_dtmf (Tone d) m)
          | _, _ => (Ret tt, with_last_dtmf NoDtmf m)
          end
      end.

(** The callback of [re.sub]: [code] is the byte after DLE, the value
    returned is what replaces the pair.  [code.decode()] comes first, for
    the log line. *)
Definition _catch_dsc (code : N) : M bytes :=
  match Py.decode [code] with
  | None => raise UnicodeDecodeError
  | Some text =>
      if bool_decide ([code] = drop 1 BUSY) then
        fun m => (Ret [], with_stop_event (Some Busy) m)
      else if code =? DLE then ret [DLE]
      else _catch_dtmf text ;;; ret []
  end.

(** [re.sub(DLE + b"(.)", self._catch_dsc, data)]: matches are looked for
    from left to right and do not overlap; without [re.DOTALL] the dot
    matches every byte but LF. *)
Fixpoint re_sub_dsc (data : bytes) : M bytes :=
  match data with
  | [] => ret []
  | b :: rest =>
      match rest with
      | code :: rest' =>
          if (b =? DLE) && negb (code =? LF) then
            repl <~ _catch_dsc code ;;
            out <~ re_sub_dsc rest' ;;
            ret (repl ++ out)
          else
            out <~ re_sub_dsc rest ;;
            ret (b :: out)
      | [] => ret [b]
      end
  end.

(** One round of the receive loop as the world sees it: how many bytes the
    timed read returns ([0] when it times out), how many each further read
    returns while the data ends in DLE, and whether [max_duration] has
    passed when the clock is read. *)
Record RxTick := { rx_avail : nat; rx_more : list nat; rx_time_up : bool }.

(** [while data.endswith(DLE): data += await self.read()] *)
Fixpoint complete_dsc (more : list nat) (data : bytes) : M bytes :=
  if Py.endswith [DLE] data then
    match more with
    | [] => fun m => (Blocked, m)
    | avail :: more' =>
        chunk <~ read avail ;;
        complete_dsc more' (data ++ chunk)
    end
  else ret data.

(** One round of the transmit loop: the transport's backlog and the clock. *)
Record TxTick := { tx_out_waiting : nat; tx_time_up : bool }.

(** The check both loops end a round with. *)
Definition check_stop (time_up : bool) (m : Modem) : Modem :=
  if time_up then with_stop_event (Some Timeout) m
  else if negb (_running m) then with_stop_event (Some Exit) m
  else m.

Definition in_voice_session (st : option State) : bool :=
  match st with
  | Some VOICE_RECEIVE | Some VOICE_TRANSMIT | Some VOICE_DUPLEX => true
  | _ => false
  end.

Section Voice.

Context `{PyLib}.

(** The body of the loop of [_receive], from the read to the check. *)
Definition receive_round (tick : RxTick) (audio : bytes) : M bytes :=
  data <~ read_timeout (rx_avail tick) ;;
  data <~ complete_dsc (rx_more tick) data ;;
  new_audio <~ re_sub_dsc data ;;
  fun m =>
    let m := with_silence (126 <=? audioop_rms new_audio 1)%Z m in
    (Ret (audio ++ new_audio), check_stop (rx_time_up tick) m).


(** What [_receive] does after its loop: end the stream, keep what came
    before the terminator, go back to the command state, write the file.
    [wave.open] raises on a path that cannot be opened for writing. *)
Definition receive_end (wav : option str) (audio : bytes) : M unit :=
  audio <~ (fun m =>
    if bool_decide (_state m = Some VOICE_TRANSMIT) then (Ret audio, m)
    else
      (write (if bool_decide (_state m = Some VOICE_DUPLEX)
              then END_DUPLEX else END_RECORD) ;;;
       end_ <~ read_until_result ;;
       to_write <~ (fun m =>
         match Py.rfind END_STREAM end_ with
         | Some i => (Ret (take i end_), m)
         | None =>
             match Py.encode (_header m ++ ResultCode_value OK ++ _trailer m) with
             | None => (Raise UnicodeEncodeError, m)
             | Some ok => (Ret (Py.removesuffix ok end_), m)
             end
         end) ;;
       fun m => (Ret (audio ++ to_write), with_state (Some VOICE_COMMAND) m)) m) ;;
  match wav, audio with
  | Some path, _ :: _ =>
      fun m =>
        match wave_refuses m path with
        | Some e => (Raise e, m)
        | None => (Ret tt, with_wav_files (wav_files m ++ [(path, audio)]) m)
        end
  | _, _ => ret tt
  end.




Definition transmit_end : M unit :=
  fun m =>
    if bool_decide (_state m = Some VOICE_TRANSMIT) then
      (write END_STREAM ;;;
       read_until_result ;;;
       fun m => (Ret tt, with_state (Some VOICE_COMMAND) m)) m
    else (Ret tt, m).

Definition lift {A} (r : result A) : M A := fun m => (r, m).


Definition spawn (coro : Coro) : M unit :=
  fun m => (Ret tt, snd (create_background_task coro m)).

Definition start_voice_receive (wav : option str) (max_duration : number)
    (rx_gain : Z) : M bool :=
  fun m =>
    if negb (bool_decide (_mode m = Some VOICE)) then (Ret false, m)
    else
      (send (One (lit "+VGR=" ++ Py.str_of_int rx_gain)) ;;;
       r <~ send (One (lit "+VRX")) ;;
       res <~ the_response r ;;
       if negb (bool_decide (CommandResponse._result_code res = CONNECT))
       then ret false
       else
         (fun m => (Ret tt, with_stop_event None
                              (with_state (Some VOICE_RECEIVE) m))) ;;;
         spawn (coro_receive max_duration wav) ;;;
         ret true) m.

Definition start_voice_duplex (wav : option str) (max_duration : number)
    (tx_gain rx_gain : Z) : M bool :=
  fun m =>
    if negb (bool_decide (_mode m = Some VOICE)) then (Ret false, m)
    else
      (send (Many [lit "+VGR=" ++ Py.str_of_int rx_gain;
                   lit "+VGT=" ++ Py.str_of_int tx_gain]) ;;;
       r <~ send (One (lit "+VTR")) ;;
       res <~ the_response r ;;
       if negb (bool_decide (CommandResponse._result_code res = CONNECT))
       then ret false
       else
         (fun m => (Ret tt, with_stop_event None
                              (with_state (Some VOICE_DUPLEX) m))) ;;;
         spawn (coro_receive max_duration wav) ;;;
         spawn (coro_transmit max_duration) ;;;
         spawn coro_silence_detection ;;;
         spawn coro_play_queue_consumer ;;;
         ret true) m.

Definition start_voice_transmit (max_duration : number) (tx_gain : Z) : M bool :=
  fun m =>
    if negb (bool_decide (_mode m = Some VOICE)) then (Ret false, m)
    else
      (send (One (lit "+VGT=" ++ Py.str_of_int tx_gain)) ;;;
       r <~ send (One (lit "+VTX")) ;;
       res <~ the_response r ;;
       if negb (bool_decide (CommandResponse._result_code res = CONNECT))
       then ret false
       else
         (fun m => (Ret tt, with_stop_event None
                              (with_state (Some VOICE_TRANSMIT) m))) ;;;
         spawn (coro_receive max_duration None) ;;;
         spawn (coro_transmit max_duration) ;;;
         spawn coro_play_queue_consumer ;;;
         ret true) m.

Definition stop_voice : M unit :=
  fun m => (Ret tt, with_stop_event (Some Stop) m).

End Voice.

(** ** Interleaving of the session tasks

    The tasks of a session run on one thread and give way to each other
    only at an [await].  A task is therefore cut into the pieces between
    its suspension points; a piece runs without interruption, and between
    two pieces of one task any piece of another may run. *)

Inductive RxPc :=
  | RxTest        (* about to evaluate the condition of its [while] *)
  | RxReading     (* inside the loop, suspended in its reads *)
  | RxLeft        (* out of the loop, before the closing exchange *)
  | RxDone.       (* returned, or died of an exception *)

Inductive TxPc :=
  | TxTest
  | TxWriting     (* inside the loop, suspended in the write of the filler *)
  | TxSleeping    (* suspended in [asyncio.sleep(.1)] *)
  | TxLeft
  | TxDone.

(** One RX task: where it is, and its locals. *)
Record RxTask := {
  rx : RxPc;
  audio : bytes;          (* the local [audio] of [_receive] *)
  wav : option str        (* the [wav] argument of [_receive] *)
}.

(** The modem and the RX and TX tasks created on it so far, in the order
    of their creation.  Nothing limits them to one of each: a
    [start_voice_*] call creates new ones whether or not the earlier ones
    have returned. *)
Record Session := {
  modem : Modem;
  rxs : list RxTask;
  txs : list TxPc
}.

Definition on_modem (f : Modem -> Modem) (s : Session) : Session :=
  {| modem := f (modem s); rxs := rxs s; txs := txs s |}.

Definition at_pc (pc : RxPc) (t : RxTask) : RxTask :=
  {| rx := pc; audio := audio t; wav := wav t |}.

Definition with_rx (i : nat) (t : RxTask) (s : Session) : Session :=
  {| modem := modem s; rxs := <[i := t]> (rxs s); txs := txs s |}.

Definition with_tx (j : nat) (pc : TxPc) (s : Session) : Session :=
  {| modem := modem s; rxs := rxs s; txs := <[j := pc]> (txs s) |}.

(** The three calls that start a session, with their arguments. *)
Inductive StartCall :=
  | StartReceive (wav : option str) (max_duration : number) (rx_gain : Z)
  | StartDuplex (wav : option str) (max_duration : number) (tx_gain rx_gain : Z)
  | StartTransmit (max_duration : number) (tx_gain : Z).

(** The state a start call sets and the tasks it creates once the modem
    has answered CONNECT. *)
Definition start_state (c : StartCall) : State :=
  match c with
  | StartReceive _ _ _ => VOICE_RECEIVE
  | StartDuplex _ _ _ _ => VOICE_DUPLEX
  | StartTransmit _ _ => VOICE_TRANSMIT
  end.

Definition start_tasks (c : StartCall) : list Coro :=
  match c with
  | StartReceive wav d _ => [coro_receive d wav]
  | StartDuplex wav d _ _ =>
      [coro_receive d wav; coro_transmit d; coro_silence_detection;
       coro_play_queue_consumer]
  | StartTransmit d _ =>
      [coro_receive d None; coro_transmit d; coro_play_queue_consumer]
  end.

(** A created task takes its place in the session, at the test of its
    loop.  The other coroutines never assign the stop reason and are not
    followed. *)
Definition joins (s : Session) (coro : Coro) : Session :=
  match coro with
  | coro_receive _ w =>
      {| modem := modem s;
         rxs := rxs s ++ [{| rx := RxTest; audio := []; wav := w |}];
         txs := txs s |}
  | coro_transmit _ =>
      {| modem := modem s; rxs := rxs s; txs := txs s ++ [TxTest] |}
  | _ => s
  end.

(** The pieces.  Each carries what the world contributes to it.  The
    first seven belong to the [i]-th RX or the [j]-th TX task.  The others
    belong to whatever else runs on the loop: a callback task, the
    application. *)
Inductive Piece :=
  | RxTests (i : nat)                  (* RX evaluates [self._stop_event is None] *)
  | RxReads (i : nat) (tick : RxTick)  (* the reads return; RX runs up to its next test *)
  | RxEnds (i : nat)                   (* RX runs what follows its loop *)
  | TxTests (j : nat) (tick : TxTick)  (* TX evaluates its condition and starts a round *)
  | TxResumes (j : nat) (time_up : bool)
                                       (* the write is through; TX runs up to its sleep *)
  | TxWakes (j : nat)
  | TxEnds (j : nat)
  | StopVoice                          (* somebody awaits [stop_voice()] *)
  | CallerWrites (data : bytes)        (* somebody's [await self.write(data)], as in [send] *)
  | CallerReads                        (* somebody's [await self.read(1)] returns, as in
                                          [read_until_result] *)
  | StartConnects (c : StartCall).     (* a [start_voice_*] call has read CONNECT and runs
                                          from there to its [return True] *)

Section Interleaving.

Context `{PyLib}.

Definition filler : bytes :=
  match silence secs_0_2 (PyInt 8000) with Ret b => b | _ => [] end.

Definition minimum : nat :=
  match silence secs_0_5 (PyInt 8000) with Ret b => length b | _ => O end.

Definition start_voice (c : StartCall) : M bool :=
  match c with
  | StartReceive wav d rx_gain => start_voice_receive wav d rx_gain
  | StartDuplex wav d tx_gain rx_gain => start_voice_duplex wav d tx_gain rx_gain
  | StartTransmit d tx_gain => start_voice_transmit d tx_gain
  end.

(** [None]: the piece cannot run in this state (there is no such task, the
    task is elsewhere, or it waits for bytes that do not come). *)
Definition step (p : Piece) (s : Session) : option Session :=
  match p with
  | RxTests i =>
      match rxs s !! i with
      | Some t =>
          match rx t, _stop_event (modem s) with
          | RxTest, None => Some (with_rx i (at_pc RxReading t) s)
          | RxTest, Some _ => Some (with_rx i (at_pc RxLeft t) s)
          | _, _ => None
          end
      | None => None
      end
  | RxReads i tick =>
      match rxs s !! i with
      | Some t =>
          match rx t, receive_round tick (audio t) (modem s) with
          | RxReading, (Ret a, m) =>
              Some (with_rx i {| rx := RxTest; audio := a; wav := wav t |}
                      (on_modem (fun _ => m) s))
          | RxReading, (Raise _, m) =>
              Some (with_rx i (at_pc RxDone t) (on_modem (fun _ => m) s))
          | _, _ => None
          end
      | None => None
      end
  | RxEnds i =>
      match rxs s !! i with
      | Some t =>
          match rx t, receive_end (wav t) (audio t) (modem s) with
          | RxLeft, (Ret _, m) | RxLeft, (Raise _, m) =>
              Some (with_rx i (at_pc RxDone t) (on_modem (fun _ => m) s))
          | _, _ => None
          end
      | None => None
      end
  | TxTests j tick =>
      match txs s !! j with
      | Some TxTest =>
          match _stop_event (modem s) with
          | Some _ => Some (with_tx j TxLeft s)
          | None =>
              if (tx_out_waiting tick <? minimum)%nat then
                Some (with_tx j TxWriting (on_modem (fun m => snd (write filler m)) s))
              else
                Some (with_tx j TxSleeping (on_modem (check_stop (tx_time_up tick)) s))
          end
      | _ => None
      end
  | TxResumes j time_up =>
      match txs s !! j with
      | Some TxWriting => Some (with_tx j TxSleeping (on_modem (check_stop time_up) s))
      | _ => None
      end
  | TxWakes j =>
      match txs s !! j with
      | Some TxSleeping => Some (with_tx j TxTest s)
      | _ => None
      end
  | TxEnds j =>
      match txs s !! j with
      | Some TxLeft =>
          match transmit_end (modem s) with
          | (Ret _, m) | (Raise _, m) =>
              Some (with_tx j TxDone (on_modem (fun _ => m) s))
          | (Blocked, _) => None
          end
      | _ => None
      end
  | StopVoice => Some (on_modem (fun m => snd (stop_voice m)) s)
  | CallerWrites data => Some (on_modem (fun m => snd (write data m)) s)
  | CallerReads =>
      match read1 (modem s) with
      | (Ret _, m) => Some (on_modem (fun _ => m) s)
      | _ => None
      end
  | StartConnects c =>
      Some (fold_left joins (start_tasks c)
              (on_modem (fun m => spawn_all (start_tasks c)
                                    (with_stop_event None
                                       (with_state (Some (start_state c)) m))) s))
  end.

Fixpoint run (ps : list Piece) (s : Session) : option Session :=
  match ps with
  | [] => Some s
  | p :: ps' =>
      match step p s with
      | Some s' => run ps' s'
      | None => None
      end
  end.

(** The session as [start_voice_receive], [start_voice_transmit] or
    [start_voice_duplex] leave a modem that had no task: RX at its loop,
    and TX too unless the session only receives. *)
Definition session_start (m : Modem) (w : option str) : Session :=
  {| modem := m;
     rxs := [{| rx := RxTest; audio := []; wav := w |}];
     txs := if bool_decide (_state m = Some VOICE_RECEIVE) then [] else [TxTest] |}.

End Interleaving.

(** ** The event loop and its supervisor *)

(** One wait of the event loop as the world sees it: the task is cancelled
    while it waits, or bytes arrive ([more]: what the reads of
    [read_until_trailer] return before its timeout; the two clock values are
    [time.time_ns()] when the event and when the call are built). *)
Inductive LoopRead :=
  | CancelAtRead
  | Arrives (avail : nat) (more : list nat) (now_event now_call : Z).

(** [read_until_trailer(timeout)]: a script that runs out, or a transport
    with nothing pending, is the timeout. *)
Fixpoint read_until_trailer (more : list nat) (data : bytes) : M bytes :=
  fun m =>
    match Py.encode (_trailer m) with
    | None => (Raise UnicodeEncodeError, m)
    | Some trailer =>
        if Py.endswith trailer data then (Ret data, m)
        else
          match more, reader m with
          | avail :: more', _ :: _ =>
              (chunk <~ read avail ;; read_until_trailer more' (data ++ chunk)) m
          | _, _ => (Ret data, m)
          end
    end.

Section EventLoop.

Context `{PyLib}.

(** The table [SHIELDED_CODES_TO_DTE], from codes to their labels.  It is
    read from the package's data file [shielded_codes_to_dte.json], which is
    not part of the sources: its content is a parameter. *)
Variable SHIELDED_CODES_TO_DTE : gmap (list N) (list N).

(** [get_dsc_label]: the label, or [None] for a code that is no key. *)
Definition get_dsc_label (code : str) : option str :=
  SHIELDED_CODES_TO_DTE !! code.

(** The hooks, as the owner of the modem has set them. *)
Variable ring_callback : Event.t -> M unit.
Variable call_callback : Call.t -> M unit.
Variable mesg_callback : Event.t -> M unit.

(** What the loop does with an event.  For a shielded code the log line is
    built with [+]: a [str] and the [None] of an unknown code do not add
    up. *)
Definition dispatch (now_call : Z) (event : Event.t) : M unit :=
  if Event.is_ring event then ring_callback event
  else if Event.is_call event then
    call <~ lift (Call.from_event now_call event) ;;
    call_callback call
  else if Event.is_message_event event then mesg_callback event
  else
    shielded <~ lift (Event.is_shielded_code event) ;;
    if shielded then
      match get_dsc_label (Event.code_of event) with
      | Some _ => ret tt
      | None => raise TypeError
      end
    else ret tt.

Fixpoint event_loop (script : list LoopRead) : M unit :=
  fun m =>
    if negb (_running m) then (Ret tt, m)
    else
      let m := with_state (Some WAITING_EVENT) m in
      match script with
      | [] => (Blocked, m)
      | CancelAtRead :: _ => (Ret tt, m)
      | Arrives avail more now_event now_call :: script' =>
          (bytes_ <~ read avail ;;
           trailer <~ (fun m => match Py.encode (_trailer m) with
                                | Some t => (Ret t, m)
                                | None => (Raise UnicodeEncodeError, m)
                                end) ;;
           bytes_ <~ (if Py.endswith trailer bytes_ then ret bytes_
                      else
                        rest <~ read_until_trailer more [] ;;
                        ret (bytes_ ++ rest)) ;;
           match Event.from_bytes now_event bytes_ with
           | Ret event => dispatch now_call event ;;; event_loop script'
           | Raise e => if is_ValueError e then event_loop script' else raise e
           | Blocked => fun m => (Blocked, m)
           end) m
      end.

End EventLoop.

(** [task._exception]: the exception a finished task died of; [None] for a
    task that returned and for one that was cancelled. *)
Definition task_exception (ended : result unit) : option exn :=
  match ended with
  | Raise CancelledError => None
  | Raise e => Some e
  | _ => None
  end.

Definition start_event_loop (m : Modem) : Modem :=
  match _event_loop m with
  | Some _ => m
  | None =>
      let '(task, m) := create_background_task coro_event_loop m in
      with_event_loop (Some task) m
  end.

(** The [done_callback] that [start_event_loop] adds to the task. *)
Definition done_callback (ended : result unit) (m : Modem) : Modem :=
  match task_exception ended with
  | Some _ => start_event_loop (with_event_loop None m)
  | None => m
  end.

(** What happens when the event loop task [task] has ended: its callbacks
    run in the order they were added, the registry's first. *)
Definition event_loop_ended (task : nat) (ended : result unit) (m : Modem) : Modem :=
  done_callback ended (task_done_callback task m).

(** * Properties *)

(** ** Searching in sequences *)

Lemma startswith_app (pre post : list N) : Py.startswith pre (pre ++ post) = true.
Proof.
  induction pre as [|p pre IH]; simpl; [done|].
  by rewrite N.eqb_refl, IH.
Qed.

Lemma startswith_inv (pre l : list N) :
  Py.startswith pre l = true -> exists post, l = pre ++ post.
Proof.
  revert l. induction pre as [|p pre IH]; intros l Hs.
  - by exists l.
  - destruct l as [|x l]; simpl in Hs; [done|].
    apply andb_true_iff in Hs as [Hpx Hrest].
    apply N.eqb_eq in Hpx as ->.
    destruct (IH _ Hrest) as [post ->]. by exists post.
Qed.

Lemma startswith_iff (pre l : list N) :
  Py.startswith pre l = true <-> exists post, l = pre ++ post.
Proof.
  split; [apply startswith_inv|].
  intros [post ->]. apply startswith_app.
Qed.

Lemma find_Some_inv (needle l : list N) (i : nat) :
  Py.find needle l = Some i ->
  exists pre post, l = pre ++ needle ++ post /\ length pre = i.
Proof.
  revert i. induction l as [|x l IH]; intros i; simpl.
  - destruct (Py.startswith needle []) eqn:Hs; [|done].
    intros [= <-]. apply startswith_inv in Hs as [post ->]. by exists [], post.
  - destruct (Py.startswith needle (x :: l)) eqn:Hs.
    + intros [= <-]. apply startswith_inv in Hs as [post ->]. by exists [], post.
    + destruct (Py.find needle l) as [j|]; [|done]. simpl.
      intros [= <-]. destruct (IH j eq_refl) as (pre & post & -> & <-).
      by exists (x :: pre), post.
Qed.

Lemma find_None_inv (needle l pre post : list N) :
  Py.find needle l = None -> l <> pre ++ needle ++ post.
Proof.
  revert pre. induction l as [|x l IH]; intros pre; simpl.
  - destruct (Py.startswith needle []) eqn:Hs; [done|].
    intros _ Heq. symmetry in Heq.
    apply app_eq_nil in Heq as [_ Heq]. apply app_eq_nil in Heq as [-> _].
    done.
  - destruct (Py.startswith needle (x :: l)) eqn:Hs; [done|].
    destruct (Py.find needle l) eqn:Hf; [done|]. intros _ Heq.
    destruct pre as [|y pre]; simpl in Heq.
    + rewrite Heq, startswith_app in Hs. done.
    + injection Heq as _ Heq. by apply (IH pre).
Qed.

(** [needle in l] is the occurrence of [needle] as a contiguous piece. *)
Lemma contains_iff (needle l : list N) :
  Py.contains needle l = true <-> exists pre post, l = pre ++ needle ++ post.
Proof.
  unfold Py.contains. destruct (Py.find needle l) as [i|] eqn:Hf.
  - split; [intros _|done].
    destruct (find_Some_inv _ _ _ Hf) as (pre & post & ? & _). eauto.
  - split; [done|]. intros (pre & post & Heq).
    by apply (find_None_inv _ _ pre post) in Hf.
Qed.

Lemma find_Some_cut (needle l : list N) (i : nat) :
  Py.find needle l = Some i ->
  l = take i l ++ needle ++ drop (i + length needle) l.
Proof.
  intros Hf. destruct (find_Some_inv _ _ _ Hf) as (pre & post & -> & <-).
  rewrite take_app_length. f_equal.
  rewrite drop_app_ge by lia.
  replace (length pre + length needle - length pre)%nat with (length needle) by lia.
  by rewrite drop_app_length.
Qed.

Lemma split_from_nonempty (n : nat) (sep l : list N) :
  Py.split_from n sep l <> [].
Proof. destruct n; simpl; [done|]. by destruct (Py.find sep l). Qed.

Lemma split_from_single (n : nat) (sep l v : list N) :
  Py.split_from n sep l = [v] -> v = l.
Proof.
  destruct n as [|n]; simpl; [by intros [= <-]|].
  destruct (Py.find sep l); [|by intros [= <-]].
  intros [= _ Hnil]. by apply split_from_nonempty in Hnil.
Qed.

(** A line that [split] cuts in two is the two pieces around the separator. *)
Lemma split_two_inv (sep part k v : list N) :
  Py.split sep part = [k; v] -> part = k ++ sep ++ v.
Proof.
  unfold Py.split. destruct (length part) as [|n]; simpl; [done|].
  destruct (Py.find sep part) as [i|] eqn:Hf; [|done].
  intros [= <- Hv]. apply split_from_single in Hv as ->.
  by apply find_Some_cut.
Qed.

(** ** The result and event codec *)

(** The examples of the specification. *)
Definition bytes_ATZ : bytes := lit "ATZ" ++ [CR] ++ lit "OK" ++ [CR; LF].
Definition bytes_GMI : bytes :=
  lit "AT+GMI" ++ [CR] ++ lit "+GMI: CONEXANT" ++ [CR; LF] ++ lit "OK" ++ [CR; LF].
Definition bytes_call : bytes :=
  lit "DATE = 0101" ++ [CR] ++ lit "TIME = 1200" ++ [CR] ++ lit "NMBR = 5551234" ++ [CR].
Definition bytes_mesg : bytes := lit "MSG_WAITING = 1" ++ [CR].
Definition bytes_update : bytes := lit "UPDATE TIMER" ++ [CR; LF].

(** The dict that the assignments [dict_[key] = val] build, in order. *)
Definition dict_of (kvs : list (list N * list N)) : gmap (list N) (list N) :=
  fold_left (fun d kv => <[kv.1 := kv.2]> d) kvs ∅.

Lemma fill_pairs (parts : list (list N)) (kvs : list (list N * list N))
    (d : gmap (list N) (list N)) :
  Forall2 (fun part kv => Py.split (lit " = ") part = [kv.1; kv.2]) parts kvs ->
  Event.fill parts d = Ret (fold_left (fun d kv => <[kv.1 := kv.2]> d) kvs d).
Proof.
  intros Hall. revert d.
  induction Hall as [|part kv parts kvs Hsplit _ IH]; intros d; simpl; [done|].
  rewrite Hsplit. apply IH.
Qed.

(** A line that is not one key and one value makes the whole event fail. *)
Lemma fill_bad_line (part : list N) (parts : list (list N))
    (d : gmap (list N) (list N)) :
  length (Py.split (lit " = ") part) <> 2%nat ->
  Event.fill (part :: parts) d = Raise ValueError.
Proof.
  simpl. destruct (Py.split (lit " = ") part) as [|k [|v [|w l]]]; simpl; done.
Qed.

(** So does such a line anywhere in the block: the lines before it are
    stored, and the loop stops at it. *)
Lemma fill_some_bad_line (parts : list (list N)) (d : gmap (list N) (list N)) :
  Exists (fun part => length (Py.split (lit " = ") part) <> 2%nat) parts ->
  Event.fill parts d = Raise ValueError.
Proof.
  intros Hbad. revert d.
  induction parts as [|part parts IH]; intros d; [by apply Exists_nil in Hbad|].
  apply Exists_cons in Hbad as [Hbad | Hbad]; [by apply fill_bad_line|].
  cbn [Event.fill].
  destruct (Py.split (lit " = ") part) as [|k [|v [|w l]]]; try done.
  by apply IH.
Qed.

(** Every line is one key and one value, or some line is not. *)
Lemma lines_pairs_or_bad (parts : list (list N)) :
  (exists kvs : list (list N * list N),
     Forall2 (fun part kv => Py.split (lit " = ") part = [kv.1; kv.2]) parts kvs)
  \/ Exists (fun part => length (Py.split (lit " = ") part) <> 2%nat) parts.
Proof.
  induction parts as [|part parts [[kvs IH] | IH]].
  - left. by exists [].
  - destruct (Py.split (lit " = ") part) as [|k [|v [|w l]]] eqn:Hsplit.
    1, 2, 4: right; apply Exists_cons_hd; by rewrite Hsplit.
    left. exists ((k, v) :: kvs). by constructor.
  - right. by apply Exists_cons_tl.
Qed.

Lemma data_contains_fields (key : list N) (d : gmap (list N) (list N)) :
  Event.data_contains key (Fields d) = true <-> is_Some (d !! key).
Proof. simpl. apply bool_decide_eq_true. Qed.

Lemma data_contains_scalar (key s : list N) :
  Event.data_contains key (Scalar s) = true <-> exists pre post, s = pre ++ key ++ post.
Proof. simpl. apply contains_iff. Qed.

(** A ring and the caller-ID block that follows it, delivered by one read. *)
Definition bytes_ring_call : bytes :=
  lit "RING" ++ [CR; LF] ++ lit "DATE = 0101" ++ [CR; LF]
  ++ lit "TIME = 1200" ++ [CR; LF] ++ lit "NMBR = 5551234" ++ [CR; LF].

(** C5 as stated fails: a text that holds [" = "] does not always give a
    field map.  A line without the separator (the ring before the caller-ID
    block) or with two of them makes [from_bytes] raise [ValueError], and no
    event comes out. *)
Lemma event_with_separator_is_no_map :
  Py.contains (lit " = ") (lit "RING" ++ [CR; LF] ++ lit "DATE = 0101") = true
  /\ Event.from_bytes 1 bytes_ring_call = Raise ValueError
  /\ Event.from_bytes 1 (lit "A = 1 = 2" ++ [CR]) = Raise ValueError.
Proof. by vm_compute. Qed.

(** C5, as the code has it.  [Event.from_bytes] gives a bare scalar when the
    decoded text holds no [" = "].  When it holds one, the text is cut into
    lines: if every line is one key and one value around one [" = "], the
    event is the map of these pairs; if some line is not, the call raises
    [ValueError]; one of the two is the case.  On a map, [is_message_event]
    is the presence of the key MSG_WAITING, and [is_call] the presence of
    DATE and TIME on an event that is no message event.  The caller-ID block
    of the specification is a call with number 5551234, its message-waiting
    block a message event and no call. *)
Theorem event_from_bytes_classifies (now : Z) (bytes_ : bytes) (text : str)
    (Hdecode : Py.decode (Py.strip Py.is_space bytes_) = Some text) :
  (Py.contains (lit " = ") text = false ->
     Event.from_bytes now bytes_ = Ret (Event.mk (Scalar text) bytes_ now))
  /\ (Py.contains (lit " = ") text = true ->
      (forall kvs,
         Forall2 (fun part kv => Py.split (lit " = ") part = [kv.1; kv.2])
                 (Py.re_split_crlf text) kvs ->
         Event.from_bytes now bytes_ = Ret (Event.mk (Fields (dict_of kvs)) bytes_ now)
         /\ Forall2 (fun part kv => part = kv.1 ++ lit " = " ++ kv.2)
                    (Py.re_split_crlf text) kvs)
      /\ (Exists (fun part => length (Py.split (lit " = ") part) <> 2%nat)
                 (Py.re_split_crlf text) ->
          Event.from_bytes now bytes_ = Raise ValueError)
      /\ ((exists kvs : list (list N * list N),
             Forall2 (fun part kv => Py.split (lit " = ") part = [kv.1; kv.2])
                     (Py.re_split_crlf text) kvs)
          \/ Exists (fun part => length (Py.split (lit " = ") part) <> 2%nat)
                    (Py.re_split_crlf text)))
  /\ (forall e d, Event._data e = Fields d ->
        (Event.is_message_event e = true <-> is_Some (d !! lit "MSG_WAITING"))
        /\ (Event.is_call e = true <->
            is_Some (d !! lit "DATE") /\ is_Some (d !! lit "TIME")
            /\ Event.is_message_event e = false))
  /\ (exists e c,
        Event.from_bytes now bytes_call = Ret e
        /\ Event.is_call e = true
        /\ Call.from_event now e = Ret c
        /\ Call._number c = Some (lit "5551234"))
  /\ (exists e,
        Event.from_bytes now bytes_mesg = Ret e
        /\ Event.is_message_event e = true
        /\ Event.is_call e = false).
Proof.
  split; [|split; [|split; [|split]]].
  - intros Hno. unfold Event.from_bytes. by rewrite Hdecode, Hno.
  - intros Hyes. split; [|split].
    + intros kvs Hlines. split.
      * unfold Event.from_bytes. rewrite Hdecode, Hyes. simpl.
        by rewrite (fill_pairs _ kvs ∅ Hlines).
      * eapply Forall2_impl; [exact Hlines|]. intros part kv. apply split_two_inv.
    + intros Hbad. unfold Event.from_bytes. rewrite Hdecode, Hyes. simpl.
      by rewrite (fill_some_bad_line _ ∅ Hbad).
    + apply lines_pairs_or_bad.
  - intros e d Hd.
    assert (Hmsg : Event.is_message_event e = true <-> is_Some (d !! lit "MSG_WAITING")).
    { unfold Event.is_message_event. rewrite Hd. apply data_contains_fields. }
    split; [exact Hmsg|].
    unfold Event.is_call. rewrite !andb_true_iff, negb_true_iff, Hd.
    rewrite !data_contains_fields. tauto.
  - eexists _, _. vm_compute. repeat split.
  - eexists. vm_compute. repeat split.
Qed.

Lemma event_from_bytes_classifies_witness :
  Event.from_bytes 1 bytes_call
  = Ret (Event.mk
           (Fields (dict_of [(lit "DATE", lit "0101"); (lit "TIME", lit "1200");
                             (lit "NMBR", lit "5551234")]))
           bytes_call 1)
  /\ Event.from_bytes 1 bytes_ring_call = Raise ValueError.
Proof.
  split.
  - destruct (event_from_bytes_classifies 1 bytes_call
                (lit "DATE = 0101" ++ [CR] ++ lit "TIME = 1200" ++ [CR]
                 ++ lit "NMBR = 5551234") eq_refl)
      as (_ & Hmap & _).
    destruct (Hmap eq_refl) as (Hpairs & _).
    apply Hpairs. repeat constructor.
  - destruct (event_from_bytes_classifies 1 bytes_ring_call
                (lit "RING" ++ [CR; LF] ++ lit "DATE = 0101" ++ [CR; LF]
                 ++ lit "TIME = 1200" ++ [CR; LF] ++ lit "NMBR = 5551234") eq_refl)
      as (_ & Hmap & _).
    destruct (Hmap eq_refl) as (_ & Hbad & _).
    apply Hbad. apply Exists_cons_hd. by vm_compute.
Defined.

(** C10. On an event whose data is a bare string (the decoded text held no
    [" = "]), [is_message_event] is the occurrence of MSG_WAITING as a
    substring, and [is_call] the occurrence of both DATE and TIME as
    substrings on an event that is no message event: containment in the
    text, not the presence of a key. *)
Theorem scalar_event_tests_substrings (now : Z) (bytes_ : bytes) (e : Event.t)
    (s : str)
    (Hfrom : Event.from_bytes now bytes_ = Ret e)
    (Hscalar : Event._data e = Scalar s) :
  Py.decode (Py.strip Py.is_space bytes_) = Some s
  /\ Py.contains (lit " = ") s = false
  /\ (Event.is_message_event e = true <->
      exists pre post, s = pre ++ lit "MSG_WAITING" ++ post)
  /\ (Event.is_call e = true <->
      (exists pre post, s = pre ++ lit "DATE" ++ post)
      /\ (exists pre post, s = pre ++ lit "TIME" ++ post)
      /\ Event.is_message_event e = false).
Proof.
  assert (Hmsg : Event.is_message_event e = true <->
                 exists pre post, s = pre ++ lit "MSG_WAITING" ++ post).
  { unfold Event.is_message_event. rewrite Hscalar. apply data_contains_scalar. }
  assert (Hcall : Event.is_call e = true <->
                  (exists pre post, s = pre ++ lit "DATE" ++ post)
                  /\ (exists pre post, s = pre ++ lit "TIME" ++ post)
                  /\ Event.is_message_event e = false).
  { unfold Event.is_call. rewrite !andb_true_iff, negb_true_iff, Hscalar.
    rewrite !data_contains_scalar. tauto. }
  unfold Event.from_bytes in Hfrom.
  destruct (Py.decode (Py.strip Py.is_space bytes_)) as [text|]; [|done].
  destruct (Py.contains (lit " = ") text) eqn:Hsep; simpl in Hfrom.
  - destruct (Event.fill (Py.re_split_crlf text) ∅) as [d| |]; simpl in Hfrom;
      [|done|done].
    injection Hfrom as <-. done.
  - injection Hfrom as <-. simpl in Hscalar. injection Hscalar as ->. done.
Qed.

Lemma scalar_event_tests_substrings_witness :
  Event.is_call (Event.mk (Scalar (lit "UPDATE TIMER")) bytes_update 1) = true
  <-> (exists pre post, lit "UPDATE TIMER" = pre ++ lit "DATE" ++ post)
      /\ (exists pre post, lit "UPDATE TIMER" = pre ++ lit "TIME" ++ post)
      /\ Event.is_message_event
           (Event.mk (Scalar (lit "UPDATE TIMER")) bytes_update 1) = false.
Proof.
  apply (scalar_event_tests_substrings 1 bytes_update _ (lit "UPDATE TIMER")
           eq_refl eq_refl).
Defined.

(** A bare line that merely mentions DATE and TIME passes for a call. *)
Lemma scalar_update_timer_is_call :
  exists e, Event.from_bytes 1 bytes_update = Ret e /\ Event.is_call e = true.
Proof. eexists. vm_compute. done. Qed.

(** ** Command responses *)

(** C4, as the code has it.  [CommandResponse.from_bytes] cuts the stripped
    and decoded input at runs of line terminators.  The first segment is the
    command text; the last must be the value of a [ResultCode], and an
    unknown one raises [ValueError]; the segments between them, when there
    are any, joined by newlines, are the data, from which a leading copy of
    the command name followed by [": "] is removed.  For ATZ, CR, OK, CR, LF
    the command text is ATZ, there is no data and the result code is OK. *)
Theorem command_response_from_bytes (bytes_ : bytes) (text cmd last : str)
    (mid : list str)
    (Hdecode : Py.decode (Py.strip Py.is_space bytes_) = Some text)
    (Hsplit : Py.re_split_crlf text = cmd :: mid ++ [last]) :
  (forall rc, ResultCode_of last = Some rc ->
     CommandResponse.from_bytes bytes_
     = Ret (CommandResponse.mk cmd
              (match mid with
               | [] => None
               | _ => Some (Py.removeprefix (CommandResponse.extra cmd)
                                            (Py.join [LF] mid))
               end) rc bytes_))
  /\ (ResultCode_of last = None ->
      CommandResponse.from_bytes bytes_ = Raise ValueError)
  /\ CommandResponse.from_bytes bytes_ATZ
     = Ret (CommandResponse.mk (lit "ATZ") None OK bytes_ATZ).
Proof.
  assert (Hpop : Py.pop_last (mid ++ [last]) = Some (mid, last)).
  { clear. induction mid as [|x mid IH]; [done|].
    simpl. rewrite IH. by destruct (mid ++ [last]) eqn:Hl; [destruct mid|]. }
  unfold CommandResponse.from_bytes. rewrite Hdecode, Hsplit, Hpop.
  split; [|split].
  - intros rc ->. done.
  - intros ->. done.
  - by vm_compute.
Qed.

Lemma command_response_from_bytes_witness :
  CommandResponse.from_bytes bytes_GMI
  = Ret (CommandResponse.mk (lit "AT+GMI") (Some (lit "CONEXANT")) OK bytes_GMI).
Proof.
  destruct (command_response_from_bytes bytes_GMI
              (lit "AT+GMI" ++ [CR] ++ lit "+GMI: CONEXANT" ++ [CR; LF] ++ lit "OK")
              (lit "AT+GMI") (lit "OK") [lit "+GMI: CONEXANT"] eq_refl eq_refl)
    as (Hknown & _).
  exact (Hknown OK eq_refl).
Defined.

(** C4 as stated fails where the data begins with the command name: the
    segment between the echo and the result code is [+GMI: CONEXANT], the
    data is [CONEXANT]. *)
Lemma command_response_data_not_the_join :
  Py.re_split_crlf (lit "AT+GMI" ++ [CR] ++ lit "+GMI: CONEXANT" ++ [CR; LF] ++ lit "OK")
  = [lit "AT+GMI"; lit "+GMI: CONEXANT"; lit "OK"]
  /\ Py.join [LF] [lit "+GMI: CONEXANT"] = lit "+GMI: CONEXANT"
  /\ (exists res,
        CommandResponse.from_bytes bytes_GMI = Ret res
        /\ CommandResponse._data res = Some (lit "CONEXANT")
        /\ CommandResponse._data res <> Some (Py.join [LF] [lit "+GMI: CONEXANT"])).
Proof.
  split; [reflexivity|]. split; [reflexivity|].
  eexists. split; [vm_compute; reflexivity|]. split; [reflexivity|].
  vm_compute. discriminate.
Qed.

(** A single segment leaves nothing to pop: [IndexError]. *)
Lemma command_response_one_segment :
  CommandResponse.from_bytes (lit "OK" ++ [CR; LF]) = Raise IndexError.
Proof. reflexivity. Qed.

(** ** The command engine *)

(** Reading changes the incoming side of the transport and nothing else;
    the engine as a whole touches the two sides of the transport and
    nothing else of the modem. *)
Definition only_reads (m m' : Modem) : Prop :=
  exists rx, m' = with_reader rx m.

Definition frame (m m' : Modem) : Prop :=
  exists rx wr, m' = with_writer wr (with_reader rx m).

Lemma only_reads_refl (m : Modem) : only_reads m m.
Proof. exists (reader m). by destruct m. Qed.

Lemma only_reads_trans (m1 m2 m3 : Modem) :
  only_reads m1 m2 -> only_reads m2 m3 -> only_reads m1 m3.
Proof. intros (rx & ->) (rx' & ->). by exists rx'. Qed.

Lemma frame_refl (m : Modem) : frame m m.
Proof. exists (reader m), (writer m). by destruct m. Qed.

Lemma frame_trans (m1 m2 m3 : Modem) : frame m1 m2 -> frame m2 m3 -> frame m1 m3.
Proof. intros (rx & wr & ->) (rx' & wr' & ->). by exists rx', wr'. Qed.

Lemma only_reads_frame (m m' : Modem) : only_reads m m' -> frame m m'.
Proof. intros (rx & ->). exists rx, (writer m). by destruct m. Qed.

Lemma frame_fields (m m' : Modem) :
  frame m m' ->
  _s3 m' = _s3 m /\ _s4 m' = _s4 m /\ _state m' = _state m
  /\ _running m' = _running m /\ _event_loop m' = _event_loop m
  /\ _stop_event m' = _stop_event m
  /\ _background_tasks m' = _background_tasks m /\ _silence m' = _silence m
  /\ _mode m' = _mode m /\ _last_dtmf m' = _last_dtmf m
  /\ spawned m' = spawned m /\ wav_files m' = wav_files m.
Proof. intros (rx & wr & ->). simpl. repeat split. Qed.

(** A computation all of whose runs stay within a relation between the
    modem before and the modem after. *)
Definition keeps (R : Modem -> Modem -> Prop) {A} (c : M A) : Prop :=
  forall m, R m (c m).2.

Section Keeps.

Variable R : Modem -> Modem -> Prop.
Hypothesis R_refl : forall m, R m m.
Hypothesis R_trans : forall m1 m2 m3, R m1 m2 -> R m2 m3 -> R m1 m3.

Lemma keeps_ret {A} (a : A) : keeps R (ret a).
Proof using R_refl. intros m. apply R_refl. Qed.

Lemma keeps_raise {A} (e : exn) : keeps R (@raise A e).
Proof using R_refl. intros m. apply R_refl. Qed.

Lemma keeps_blocked {A} : keeps R (fun m => (@Blocked A, m)).
Proof using R_refl. intros m. apply R_refl. Qed.

Lemma keeps_bind {A B} (c : M A) (k : A -> M B) :
  keeps R c -> (forall a, keeps R (k a)) -> keeps R (bind c k).
Proof using R_trans.
  intros Hc Hk m. unfold bind. specialize (Hc m).
  destruct (c m) as [[a|e|] m1]; simpl in *; [|done|done].
  eapply R_trans; [exact Hc|apply Hk].
Qed.

End Keeps.

Lemma keeps_weaken {A} (c : M A) : keeps only_reads c -> keeps frame c.
Proof. intros Hc m. apply only_reads_frame, Hc. Qed.

Lemma frame_write (data : bytes) : keeps frame (write data).
Proof. intros m. exists (reader m), (writer m ++ [data]). by destruct m. Qed.

Lemma frame_write_str (data : str) : keeps frame (write_str data).
Proof.
  intros m. unfold write_str. destruct (Py.encode data); [apply frame_write|].
  apply frame_refl.
Qed.

Lemma reads_read_until_result : keeps only_reads read_until_result.
Proof.
  intros m. unfold read_until_result.
  destruct (read_until_result_from (_trailer m) [] (reader m)) as [r rx].
  by exists rx.
Qed.

Create HintDb keeps.
#[local] Hint Resolve keeps_ret keeps_raise keeps_blocked frame_write
  frame_write_str reads_read_until_result frame_refl only_reads_refl : keeps.

(** Splits a goal about [c ;; k] into one about [c] and one about [k]. *)
Ltac keeps_bind :=
  first [ apply (keeps_bind only_reads only_reads_trans)
        | apply (keeps_bind frame frame_trans) ].

(** *** Reading up to a result consumes input *)

Lemma encode_nonempty (s b : list N) : s <> [] -> Py.encode s = Some b -> b <> [].
Proof.
  destruct s as [|c s]; [done|]. intros _. simpl.
  destruct (Py.encode_char c) as [bc|] eqn:Hc; [|done].
  destruct (Py.encode s) as [bs|]; [|done]. intros [= <-].
  unfold Py.encode_char in Hc.
  repeat match type of Hc with
         | context [if ?b then _ else _] => destruct b
         end; injection Hc as <- || discriminate; done.
Qed.

Lemma result_seen_nil (codes : list ResultCode) (trailer : str) :
  result_seen codes trailer [] <> Ret true.
Proof.
  induction codes as [|code codes IH]; simpl; [done|].
  destruct (Py.encode (ResultCode_value code ++ trailer)) as [needle|] eqn:He; [|done].
  assert (Hne : needle <> []).
  { eapply encode_nonempty; [|exact He]. by destruct code. }
  destruct needle as [|x needle]; [done|]. exact IH.
Qed.

Lemma read_until_result_from_eq (trailer : str) (data rx : bytes) :
  read_until_result_from trailer data rx
  = match result_seen ResultCode_members trailer data with
    | Ret true => (Ret data, rx)
    | Ret false =>
        match rx with
        | [] => (Blocked, [])
        | b :: rx' => read_until_result_from trailer (data ++ [b]) rx'
        end
    | Raise e => (Raise e, rx)
    | Blocked => (Blocked, rx)
    end.
Proof. by destruct rx. Qed.

Lemma read_until_result_from_suffix (trailer : str) (rx data : bytes)
    (r : result bytes) (rx' : bytes) :
  read_until_result_from trailer data rx = (r, rx') ->
  (length rx' <= length rx)%nat.
Proof.
  revert data. induction rx as [|b rx IH]; intros data;
    rewrite read_until_result_from_eq;
    destruct (result_seen ResultCode_members trailer data) as [[|]| |];
    try (intros [= _ <-]; simpl; lia).
  intros Hrec. apply IH in Hrec. simpl. lia.
Qed.

Lemma read_until_result_consumes (m m' : Modem) (data : bytes) :
  read_until_result m = (Ret data, m') ->
  (length (reader m') < length (reader m))%nat.
Proof.
  unfold read_until_result.
  destruct (read_until_result_from (_trailer m) [] (reader m)) as [r rx] eqn:Hrun.
  intros [= -> <-]. simpl.
  rewrite read_until_result_from_eq in Hrun.
  destruct (result_seen ResultCode_members (_trailer m) []) as [[|]| |] eqn:Hseen;
    try done.
  - by apply result_seen_nil in Hseen.
  - destruct (reader m) as [|b rest]; [done|].
    apply read_until_result_from_suffix in Hrun. simpl. lia.
Qed.

Lemma result_seen_true (codes : list ResultCode) (trailer : str) (data : bytes) :
  result_seen codes trailer data = Ret true ->
  exists code needle,
    In code codes
    /\ Py.encode (ResultCode_value code ++ trailer) = Some needle
    /\ Py.contains needle data = true.
Proof.
  induction codes as [|code codes IH]; simpl; [done|].
  destruct (Py.encode (ResultCode_value code ++ trailer)) as [needle|] eqn:He; [|done].
  destruct (Py.contains needle data) eqn:Hc.
  - intros _. exists code, needle. auto.
  - intros Hrest. destruct (IH Hrest) as (code' & needle' & Hin & He' & Hc').
    exists code', needle'. auto.
Qed.

Lemma result_seen_false (codes : list ResultCode) (trailer : str) (data : bytes) :
  result_seen codes trailer data = Ret false ->
  forall code needle,
    In code codes ->
    Py.encode (ResultCode_value code ++ trailer) = Some needle ->
    Py.contains needle data = false.
Proof.
  induction codes as [|code codes IH]; simpl; [done|].
  destruct (Py.encode (ResultCode_value code ++ trailer)) as [needle|] eqn:He; [|done].
  destruct (Py.contains needle data) eqn:Hc; [done|].
  intros Hrest code' needle' [<-|Hin] He'.
  - congruence.
  - by apply (IH Hrest code').
Qed.

Lemma ResultCode_members_all (code : ResultCode) : In code ResultCode_members.
Proof. destruct code; simpl; auto 10. Qed.

Lemma read_until_result_from_exact (trailer : str) (rx data out rx' : bytes) :
  read_until_result_from trailer data rx = (Ret out, rx') ->
  exists used,
    out = data ++ used /\ rx = used ++ rx'
    /\ result_seen ResultCode_members trailer out = Ret true
    /\ forall k, (k < length used)%nat ->
         result_seen ResultCode_members trailer (data ++ take k used) = Ret false.
Proof.
  revert data. induction rx as [|b rx IH]; intros data;
    rewrite read_until_result_from_eq;
    destruct (result_seen ResultCode_members trailer data) as [[|]| |] eqn:Hseen;
    try done.
  - intros [= <- <-]. exists []. rewrite app_nil_r. repeat split; try done.
    simpl. lia.
  - intros [= <- <-]. exists []. rewrite app_nil_r. repeat split; try done.
    simpl. lia.
  - intros Hrec. destruct (IH _ Hrec) as (used & -> & -> & Hyes & Hno).
    exists (b :: used).
    split; [by rewrite <- app_assoc|]. split; [done|]. split; [done|].
    intros [|k] Hk; simpl.
    + by rewrite app_nil_r.
    + specialize (Hno k). rewrite <- app_assoc in Hno. apply Hno. simpl in Hk. lia.
Qed.

Lemma result_seen_not_blocked (codes : list ResultCode) (trailer : str) (data : bytes) :
  result_seen codes trailer data <> Blocked.
Proof.
  induction codes as [|code codes IH]; simpl; [done|].
  destruct (Py.encode _); [|done]. by destruct (Py.contains _ _).
Qed.

Lemma read_until_result_from_blocked (trailer : str) (rx data rx' : bytes) :
  read_until_result_from trailer data rx = (Blocked, rx') ->
  rx' = []
  /\ forall k, (k <= length rx)%nat ->
       result_seen ResultCode_members trailer (data ++ take k rx) = Ret false.
Proof.
  revert data. induction rx as [|b rx IH]; intros data;
    rewrite read_until_result_from_eq;
    destruct (result_seen ResultCode_members trailer data) as [[|]| |] eqn:Hseen;
    try done; try (by apply result_seen_not_blocked in Hseen).
  - intros [= <-]. split; [done|]. intros k Hk. by rewrite take_nil, app_nil_r.
  - intros Hrec. destruct (IH _ Hrec) as (-> & Hno). split; [done|].
    intros [|k] Hk; simpl.
    + by rewrite app_nil_r.
    + specialize (Hno k). rewrite <- app_assoc in Hno. apply Hno. simpl in Hk. lia.
Qed.

(** *** Results on the line, and the answers to commands *)

(** The bytes [chunk] are one result as [read_until_result] takes it: they
    hold a result code followed by the trailer, and no shorter beginning of
    them does. *)
Definition one_result (trailer : str) (chunk : bytes) : Prop :=
  (exists code needle,
     Py.encode (ResultCode_value code ++ trailer) = Some needle
     /\ Py.contains needle chunk = true)
  /\ (forall k code needle,
        (k < length chunk)%nat ->
        Py.encode (ResultCode_value code ++ trailer) = Some needle ->
        Py.contains needle (take k chunk) = false).

(** The response [res] is the answer to the command line [cmd] that the
    stretch [taken] of the line holds: [taken] is a run of results, of which
    only the last holds the echo of [cmd]; [res] is what
    [CommandResponse.from_bytes] makes of that last result from the echo
    on, semicolons at its two ends apart. *)
Definition served (trailer cmd : str) (taken : bytes) (res : CommandResponse.t)
    : Prop :=
  exists echo skipped last extra response,
    Py.encode cmd = Some echo
    /\ taken = List.concat skipped ++ last
    /\ Forall (one_result trailer) (skipped ++ [last])
    /\ Forall (fun chunk =>
                 Py.contains echo (Py.strip (Py.one_of (lit ";")) chunk) = false)
              skipped
    /\ Py.strip (Py.one_of (lit ";")) last = extra ++ echo ++ response
    /\ Py.find echo (Py.strip (Py.one_of (lit ";")) last) = Some (length extra)
    /\ CommandResponse.from_bytes (echo ++ response) = Ret res.

(** The responses [rs] answer the command lines [cmds] one by one, in
    stretches of the pending input [rx] that follow each other in the order
    of the commands; [rx'] is what is left of the input after them. *)
Inductive exchange (trailer : str)
    : list str -> bytes -> list CommandResponse.t -> bytes -> Prop :=
  | exchange_nil (rx : bytes) : exchange trailer [] rx [] rx
  | exchange_cons (cmd : str) (cmds : list str) (taken rx0 rx : bytes)
      (res : CommandResponse.t) (rs : list CommandResponse.t) (rx' : bytes) :
      rx0 = taken ++ rx ->
      served trailer cmd taken res ->
      exchange trailer cmds rx rs rx' ->
      exchange trailer (cmd :: cmds) rx0 (res :: rs) rx'.

(** The response [res] answers the command line [cmd]: its raw bytes begin
    with the echo of the line. *)
Definition answers (cmd : str) (res : CommandResponse.t) : Prop :=
  exists echo tail,
    Py.encode cmd = Some echo /\ CommandResponse._raw res = echo ++ tail.

Lemma from_bytes_raw (bytes_ : bytes) (res : CommandResponse.t) :
  CommandResponse.from_bytes bytes_ = Ret res -> CommandResponse._raw res = bytes_.
Proof.
  unfold CommandResponse.from_bytes.
  destruct (Py.decode _) as [text|]; [|done].
  destruct (Py.re_split_crlf text) as [|cmd split]; [done|].
  destruct (Py.pop_last split) as [[mid last]|]; [|done].
  destruct (ResultCode_of last); [|done]. by intros [= <-].
Qed.

(** *** What the reads of [send] take from the line *)

Lemma encode_app (a b xa xb : list N) :
  Py.encode a = Some xa -> Py.encode b = Some xb ->
  Py.encode (a ++ b) = Some (xa ++ xb).
Proof.
  revert xa. induction a as [|c a IH]; intros xa; simpl.
  - by intros [= <-].
  - destruct (Py.encode_char c) as [bc|]; [|done].
    destruct (Py.encode a) as [ba|]; [|done]. intros [= <-] Hb.
    rewrite (IH ba eq_refl Hb). by rewrite <- app_assoc.
Qed.

Lemma encode_app_inv (a b x : list N) :
  Py.encode (a ++ b) = Some x ->
  exists xa xb, Py.encode a = Some xa /\ Py.encode b = Some xb /\ x = xa ++ xb.
Proof.
  revert x. induction a as [|c a IH]; intros x; simpl.
  - intros Hb. by exists [], x.
  - destruct (Py.encode_char c) as [bc|]; [|done].
    destruct (Py.encode (a ++ b)) as [bab|] eqn:Hab; [|done]. intros [= <-].
    destruct (IH bab eq_refl) as (xa & xb & -> & Hb & ->).
    exists (bc ++ xa), xb. by rewrite <- app_assoc.
Qed.

Lemma encode_ResultCode_value (code : ResultCode) :
  Py.encode (ResultCode_value code) = Some (ResultCode_value code).
Proof. by destruct code. Qed.

(** With a trailer that can be encoded, [result_seen] returns, and it says
    whether some code with the trailer occurs. *)
Lemma result_seen_spec (codes : list ResultCode) (trailer t : str) (data : bytes) :
  Py.encode trailer = Some t ->
  result_seen codes trailer data
  = Ret (existsb (fun code => Py.contains (ResultCode_value code ++ t) data) codes).
Proof.
  intros Ht. induction codes as [|code codes IH]; simpl; [done|].
  rewrite (encode_app _ _ _ _ (encode_ResultCode_value code) Ht).
  destruct (Py.contains _ data); [done|exact IH].
Qed.

Lemma one_result_seen (trailer : str) (chunk : bytes) :
  one_result trailer chunk ->
  result_seen ResultCode_members trailer chunk = Ret true
  /\ forall k, (k < length chunk)%nat ->
       result_seen ResultCode_members trailer (take k chunk) = Ret false.
Proof.
  intros [(code & needle & He & Hc) Hno].
  destruct (encode_app_inv _ _ _ He) as (xv & t & Hv & Ht & ->).
  rewrite encode_ResultCode_value in Hv. injection Hv as <-.
  split.
  - rewrite (result_seen_spec _ _ t _ Ht). f_equal.
    apply existsb_exists. exists code. split; [apply ResultCode_members_all|done].
  - intros k Hk. rewrite (result_seen_spec _ _ t _ Ht). f_equal.
    apply not_true_is_false. intros (code' & _ & Hc')%existsb_exists.
    rewrite (Hno k code' (ResultCode_value code' ++ t) Hk) in Hc'; [done|].
    apply encode_app; [apply encode_ResultCode_value|done].
Qed.

Lemma one_result_nonempty (trailer : str) (chunk : bytes) :
  one_result trailer chunk -> chunk <> [].
Proof.
  intros Hone ->. apply one_result_seen in Hone as [Hyes _].
  by apply result_seen_nil in Hyes.
Qed.

(** A run of the loop that returns has taken one result. *)
Lemma read_gives_one_result (trailer : str) (rx out rx' : bytes) :
  read_until_result_from trailer [] rx = (Ret out, rx') ->
  rx = out ++ rx' /\ one_result trailer out.
Proof.
  intros Hrun.
  destruct (read_until_result_from_exact _ _ _ _ _ Hrun)
    as (used & -> & -> & Hyes & Hno).
  cbn [app] in *. split; [done|]. split.
  - destruct (result_seen_true _ _ _ Hyes) as (code & needle & _ & He & Hc).
    by exists code, needle.
  - intros k code needle Hk He.
    eapply result_seen_false; [exact (Hno k Hk)|apply ResultCode_members_all|done].
Qed.

(** And the loop takes a result that is there, and no more. *)
Lemma read_takes_one_result (trailer : str) (chunk rest : bytes) :
  one_result trailer chunk ->
  read_until_result_from trailer [] (chunk ++ rest) = (Ret chunk, rest).
Proof.
  intros Hone. apply one_result_seen in Hone as [Hyes Hno].
  assert (Hgen : forall used data,
             result_seen ResultCode_members trailer (data ++ used) = Ret true ->
             (forall k, (k < length used)%nat ->
                result_seen ResultCode_members trailer (data ++ take k used)
                = Ret false) ->
             read_until_result_from trailer data (used ++ rest)
             = (Ret (data ++ used), rest)).
  { induction used as [|b used IH]; intros data Hy Hn.
    - rewrite app_nil_r in *. cbn [app].
      rewrite read_until_result_from_eq. by rewrite Hy.
    - cbn [app]. rewrite read_until_result_from_eq.
      pose proof (Hn 0%nat ltac:(simpl; lia)) as H0.
      cbn [take] in H0. rewrite app_nil_r in H0. rewrite H0.
      rewrite (IH (data ++ [b])).
      + by rewrite <- app_assoc.
      + by rewrite <- app_assoc.
      + intros k Hk. rewrite <- app_assoc. apply (Hn (S k)). simpl. lia. }
  apply (Hgen chunk []); [done|]. intros k Hk. by apply Hno.
Qed.

Lemma read_until_result_returns (m m' : Modem) (data : bytes) :
  read_until_result m = (Ret data, m') ->
  reader m = data ++ reader m' /\ m' = with_reader (reader m') m
  /\ one_result (_trailer m) data.
Proof.
  unfold read_until_result.
  destruct (read_until_result_from (_trailer m) [] (reader m)) as [r rx] eqn:Hrun.
  intros [= -> <-]. apply read_gives_one_result in Hrun as [Hrx Hone].
  by split.
Qed.

Lemma read_until_result_takes (m : Modem) (chunk rest : bytes) :
  reader m = chunk ++ rest ->
  one_result (_trailer m) chunk ->
  read_until_result m = (Ret chunk, with_reader rest m).
Proof.
  intros Hrx Hone. unfold read_until_result.
  by rewrite Hrx, (read_takes_one_result _ _ rest Hone).
Qed.

Section EngineFacts.

Context `{PyLib}.

Lemma await_echo_eq (fuel : nat) (cmd : str) (m : Modem) :
  await_echo fuel cmd m
  = match read_until_result m with
    | (Ret data, m') =>
        match Py.encode cmd with
        | None => (Raise UnicodeEncodeError, m')
        | Some echo =>
            if Py.contains echo (Py.strip (Py.one_of (lit ";")) data)
            then (Ret (Py.strip (Py.one_of (lit ";")) data), m')
            else match fuel with
                 | O => (Blocked, m')
                 | S fuel' => await_echo fuel' cmd m'
                 end
        end
    | (Raise e, m') => (Raise e, m')
    | (Blocked, m') => (Blocked, m')
    end.
Proof.
  destruct fuel; simpl; unfold bind;
    destruct (read_until_result m) as [[data|e|] m']; try done;
    destruct (Py.encode cmd); try done;
    by destruct (Py.contains _ _).
Qed.

(** The fuel of [await_echo] is never the reason it stops: any two
    amounts that cover the pending input give the same run. *)
Lemma await_echo_fuel (cmd : str) (f1 f2 : nat) (m : Modem) :
  (length (reader m) <= f1)%nat -> (length (reader m) <= f2)%nat ->
  await_echo f1 cmd m = await_echo f2 cmd m.
Proof.
  revert f2 m. induction f1 as [|f1 IH]; intros f2 m H1 H2;
    rewrite (await_echo_eq _ cmd m), (await_echo_eq f2 cmd m);
    destruct (read_until_result m) as [[data|e|] m'] eqn:Hread; try done;
    apply read_until_result_consumes in Hread;
    destruct (Py.encode cmd); try done;
    destruct (Py.contains _ _); try done.
  - lia.
  - destruct f2 as [|f2]; [lia|]. apply IH; lia.
Qed.

Lemma await_echo_found (fuel : nat) (cmd : str) (m m' : Modem) (data : bytes) :
  await_echo fuel cmd m = (Ret data, m') ->
  exists echo, Py.encode cmd = Some echo /\ Py.contains echo data = true.
Proof.
  revert m. induction fuel as [|fuel IH]; intros m; rewrite await_echo_eq;
    destruct (read_until_result m) as [[d|e|] m1]; try done;
    destruct (Py.encode cmd) as [echo|]; try done;
    destruct (Py.contains _ _) eqn:Hc; try done.
  - intros [= <- <-]. eauto.
  - intros [= <- <-]. eauto.
  - apply IH.
Qed.

Lemma reads_await_echo (fuel : nat) (cmd : str) :
  keeps only_reads (await_echo fuel cmd).
Proof.
  induction fuel as [|fuel IH]; simpl;
    (keeps_bind; [auto with keeps|]); intros data;
    destruct (Py.encode cmd); auto with keeps;
    destruct (Py.contains _ _); auto with keeps.
Qed.

Lemma reads_receive_response (cmd : str) :
  keeps only_reads (receive_response cmd).
Proof.
  intros m. unfold receive_response.
  apply (keeps_bind only_reads only_reads_trans
           (await_echo (length (reader m)) cmd)).
  - apply reads_await_echo.
  - intros data. destruct (Py.encode cmd); auto with keeps.
    destruct (Py.partition _ _) as [[extra echo] response].
    intros m'. apply only_reads_refl.
Qed.

Lemma reads_send_each (cmds : list str) (acc : list CommandResponse.t) :
  keeps only_reads (send_each cmds acc).
Proof.
  revert acc. induction cmds as [|cmd cmds IH]; intros acc; simpl;
    auto with keeps.
  keeps_bind; [apply reads_receive_response|].
  intros res. apply IH.
Qed.

Lemma frame_send (commands : Commands) : keeps frame (send commands).
Proof.
  intros m. unfold send.
  apply (keeps_bind frame frame_trans (write_str _)); auto with keeps.
  intros _. keeps_bind.
  - apply keeps_weaken, reads_send_each.
  - intros [|res [|res' rs]]; auto with keeps.
Qed.

Lemma receive_response_answers (cmd : str) (m m' : Modem)
    (res : CommandResponse.t) :
  receive_response cmd m = (Ret res, m') -> answers cmd res.
Proof.
  unfold receive_response, bind.
  destruct (await_echo _ cmd m) as [[data|e|] m1] eqn:Hecho; try done.
  apply await_echo_found in Hecho as (echo & Hen & Hin). rewrite Hen.
  unfold Py.partition. unfold Py.contains in Hin.
  destruct (Py.find echo data) as [i|]; [|done].
  intros [= Hres _]. apply from_bytes_raw in Hres.
  by exists echo, (drop (i + length echo) data).
Qed.

(** The loop of [send] appends one response per command, in the order of
    the commands. *)
Lemma send_each_in_order (cmds : list str) (acc rs : list CommandResponse.t)
    (m m' : Modem) :
  send_each cmds acc m = (Ret rs, m') ->
  exists new, rs = acc ++ new /\ Forall2 answers cmds new.
Proof.
  revert acc m. induction cmds as [|cmd cmds IH]; intros acc m; simpl.
  - intros [= <- _]. exists []. by rewrite app_nil_r.
  - unfold bind at 1.
    destruct (receive_response cmd m) as [[res|e|] m1] eqn:Hone; try done.
    intros Hrest. apply IH in Hrest as (new & -> & Hall).
    exists (res :: new). split; [by rewrite <- app_assoc|].
    constructor; [|done]. by eapply receive_response_answers.
Qed.

Lemma send_eq (commands : Commands) (m : Modem) :
  send commands m
  = (write_str (Py.join (lit ";")
       (List.map (_commandify m)
          match commands with One cmd => [cmd] | Many cmds => cmds end)) ;;;
     responses <~ send_each
       (List.map (_commandify m)
          match commands with One cmd => [cmd] | Many cmds => cmds end) [] ;;
     match responses with
     | [] => raise IndexError
     | [res] => ret (Single res)
     | _ => ret (Several responses)
     end) m.
Proof. reflexivity. Qed.

(** What [send] returns, when it returns: one response per command line
    issued, in the order of the lines, after one write of the lines joined
    by [;]. *)
Lemma send_returns (commands : Commands) (m m' : Modem) (r : Responses) :
  send commands m = (Ret r, m') ->
  exists line rs,
    Py.encode (Py.join (lit ";")
      (List.map (_commandify m)
         match commands with One cmd => [cmd] | Many cmds => cmds end))
    = Some line
    /\ writer m' = writer m ++ [line]
    /\ Forall2 answers
         (List.map (_commandify m)
            match commands with One cmd => [cmd] | Many cmds => cmds end) rs
    /\ r = match rs with [res] => Single res | _ => Several rs end.
Proof.
  rewrite send_eq.
  set (issued := List.map (_commandify m) _).
  unfold bind at 1. unfold write_str.
  destruct (Py.encode (Py.join (lit ";") issued)) as [line|]; [|done].
  simpl. unfold bind at 1.
  destruct (send_each issued [] _) as [[rs|e|] m1] eqn:Heach; try done.
  pose proof (reads_send_each issued [] (with_writer (writer m ++ [line]) m))
    as Hreads.
  rewrite Heach in Hreads. destruct Hreads as (rx & Hm1). simpl in Hm1.
  apply send_each_in_order in Heach as (new & -> & Hall). simpl in *.
  destruct new as [|res [|res' new]]; [done| |]; intros [= <- <-];
    exists line; eexists; (split; [done|]); rewrite Hm1;
    (split; [done|by split]).
Qed.

(** *** The responses of [send], read off the line *)

Definition no_echo (echo : bytes) (chunk : bytes) : Prop :=
  Py.contains echo (Py.strip (Py.one_of (lit ";")) chunk) = false.

(** What [await_echo] has done when it returns. *)
Lemma await_echo_returns (fuel : nat) (cmd : str) (m m' : Modem) (data : bytes) :
  await_echo fuel cmd m = (Ret data, m') ->
  exists echo skipped last,
    Py.encode cmd = Some echo
    /\ reader m = List.concat skipped ++ last ++ reader m'
    /\ m' = with_reader (reader m') m
    /\ Forall (one_result (_trailer m)) (skipped ++ [last])
    /\ Forall (no_echo echo) skipped
    /\ data = Py.strip (Py.one_of (lit ";")) last
    /\ Py.contains echo data = true.
Proof.
  revert m. induction fuel as [|fuel IH]; intros m; rewrite await_echo_eq;
    destruct (read_until_result m) as [[d|e|] m1] eqn:Hread; try done;
    apply read_until_result_returns in Hread as (Hrx & Hm1 & Hone);
    destruct (Py.encode cmd) as [echo|] eqn:He; try done;
    destruct (Py.contains _ _) eqn:Hc; try done.
  - intros [= <- <-]. exists echo, [], d.
    split; [done|]. split; [done|]. split; [done|].
    split; [by apply Forall_singleton|]. by split.
  - intros [= <- <-]. exists echo, [], d.
    split; [done|]. split; [done|]. split; [done|].
    split; [by apply Forall_singleton|]. by split.
  - intros Hrest.
    destruct (IH _ Hrest) as (echo' & skipped & last & He' & Hrx' & Hm' & Hall
                              & Hskip & Hd & Hin).
    assert (echo' = echo) as -> by congruence.
    exists echo, (d :: skipped), last. split; [done|].
    rewrite Hm1 in Hrx', Hm', Hall. cbn [reader with_reader] in Hrx'.
    split; [by rewrite Hrx, Hrx'; cbn [List.concat]; rewrite <- app_assoc|].
    split; [by rewrite Hm'|].
    split; [by constructor|]. split; [by constructor|]. done.
Qed.

Lemma concat_results_length (trailer : str) (chunks : list bytes) :
  Forall (one_result trailer) chunks ->
  (length chunks <= length (List.concat chunks))%nat.
Proof.
  induction 1 as [|chunk chunks Hone _ IH]; [done|].
  cbn [List.concat length]. rewrite length_app.
  apply one_result_nonempty in Hone. destruct chunk; [done|]. simpl. lia.
Qed.

(** And what it does on a line that holds results of which one has the
    echo. *)
Lemma await_echo_takes (fuel : nat) (cmd : str) (echo : bytes)
    (skipped : list bytes) (last rest : bytes) (m : Modem) :
  Py.encode cmd = Some echo ->
  reader m = List.concat skipped ++ last ++ rest ->
  Forall (one_result (_trailer m)) (skipped ++ [last]) ->
  Forall (no_echo echo) skipped ->
  Py.contains echo (Py.strip (Py.one_of (lit ";")) last) = true ->
  (length skipped <= fuel)%nat ->
  await_echo fuel cmd m
  = (Ret (Py.strip (Py.one_of (lit ";")) last), with_reader rest m).
Proof.
  intros He. revert fuel m.
  induction skipped as [|chunk skipped IH]; intros fuel m Hrx Hall Hskip Hin Hfuel.
  - cbn [List.concat app] in *. apply Forall_cons_1 in Hall as [Hone _].
    rewrite await_echo_eq, (read_until_result_takes m last rest Hrx Hone), He, Hin.
    done.
  - cbn [List.concat app] in *. rewrite <- app_assoc in Hrx.
    apply Forall_cons_1 in Hall as [Hone Hall].
    apply Forall_cons_1 in Hskip as [Hno Hskip].
    rewrite await_echo_eq, (read_until_result_takes m chunk _ Hrx Hone), He.
    unfold no_echo in Hno. rewrite Hno.
    destruct fuel as [|fuel]; [simpl in Hfuel; lia|].
    rewrite (IH fuel (with_reader (List.concat skipped ++ last ++ rest) m));
      try done.
    simpl in Hfuel. lia.
Qed.

Lemma partition_found (sep l extra response : list N) :
  l = extra ++ sep ++ response ->
  Py.find sep l = Some (length extra) ->
  Py.partition sep l = (extra, sep, response).
Proof.
  intros -> Hfind. unfold Py.partition. rewrite Hfind.
  rewrite take_app_length.
  by rewrite app_assoc, <- length_app, drop_app_length.
Qed.

Lemma partition_cut (sep l : list N) :
  Py.contains sep l = true ->
  exists extra response,
    l = extra ++ sep ++ response
    /\ Py.find sep l = Some (length extra)
    /\ Py.partition sep l = (extra, sep, response).
Proof.
  unfold Py.contains. destruct (Py.find sep l) as [i|] eqn:Hfind; [|done].
  intros _. destruct (find_Some_inv _ _ _ Hfind) as (pre & post & -> & <-).
  exists pre, post. split; [done|]. split; [done|]. by apply partition_found.
Qed.

(** One round of the loop of [send]: the response is the answer to the
    command that the next stretch of the line holds. *)
Lemma receive_response_served (cmd : str) (m m' : Modem) (res : CommandResponse.t) :
  receive_response cmd m = (Ret res, m') ->
  exists taken,
    served (_trailer m) cmd taken res
    /\ reader m = taken ++ reader m'
    /\ m' = with_reader (reader m') m.
Proof.
  unfold receive_response, bind.
  destruct (await_echo _ cmd m) as [[data|e|] m1] eqn:Hecho; try done.
  apply await_echo_returns in Hecho
    as (echo & skipped & last & He & Hrx & Hm1 & Hall & Hskip & -> & Hin).
  rewrite He.
  destruct (partition_cut _ _ Hin) as (extra & response & Hcut & Hfind & ->).
  intros [= Hres <-]. exists (List.concat skipped ++ last).
  split; [|split; [by rewrite <- app_assoc|done]].
  exists echo, skipped, last, extra, response. by repeat (split; [done|]).
Qed.

Lemma served_receive_response (cmd : str) (taken rest : bytes) (m : Modem)
    (res : CommandResponse.t) :
  served (_trailer m) cmd taken res ->
  reader m = taken ++ rest ->
  receive_response cmd m = (Ret res, with_reader rest m).
Proof.
  intros (echo & skipped & last & extra & response & He & -> & Hall & Hskip
          & Hcut & Hfind & Hres) Hrx.
  rewrite <- app_assoc in Hrx.
  assert (Hin : Py.contains echo (Py.strip (Py.one_of (lit ";")) last) = true).
  { unfold Py.contains. by rewrite Hfind. }
  unfold receive_response, bind.
  rewrite (await_echo_takes _ cmd echo skipped last rest m He Hrx Hall Hskip Hin).
  - rewrite He, (partition_found _ _ _ _ Hcut Hfind). by rewrite Hres.
  - rewrite Hrx, length_app.
    apply Forall_app in Hall as [Hall _].
    pose proof (concat_results_length _ _ Hall). lia.
Qed.

(** The loop of [send]: its responses answer the commands in the order of
    the commands, each from the stretch of the line that follows the one
    before; and on a line made of such stretches it returns them. *)
Lemma send_each_exchange (cmds : list str) (acc rs : list CommandResponse.t)
    (m m' : Modem) :
  send_each cmds acc m = (Ret rs, m') ->
  exists new,
    rs = acc ++ new
    /\ exchange (_trailer m) cmds (reader m) new (reader m')
    /\ m' = with_reader (reader m') m.
Proof.
  revert acc m. induction cmds as [|cmd cmds IH]; intros acc m; simpl.
  - intros [= <- <-]. exists []. rewrite app_nil_r.
    split; [done|]. split; [apply exchange_nil|by destruct m].
  - unfold bind at 1.
    destruct (receive_response cmd m) as [[res|e|] m1] eqn:Hone; try done.
    apply receive_response_served in Hone as (taken & Hserved & Hrx & Hm1).
    intros Hrest. apply IH in Hrest as (new & -> & Hex & Hm').
    exists (res :: new). split; [by rewrite <- app_assoc|].
    rewrite Hm1 in Hex, Hm'. cbn [reader with_reader] in Hex.
    split; [by econstructor|by rewrite Hm'].
Qed.

Lemma exchange_send_each (cmds : list str) (acc new : list CommandResponse.t)
    (rest : bytes) (m : Modem) :
  exchange (_trailer m) cmds (reader m) new rest ->
  send_each cmds acc m = (Ret (acc ++ new), with_reader rest m).
Proof.
  remember (_trailer m) as trailer eqn:Htr. remember (reader m) as rx0 eqn:Hrx0.
  intros Hex. revert acc m Htr Hrx0.
  induction Hex as [rx|cmd cmds taken rx0 rx res rs rx' Hrx Hserved Hex IH];
    intros acc m Htr Hrx0; simpl.
  - rewrite app_nil_r. subst rx. by destruct m.
  - rewrite Hrx0 in Hrx. rewrite Htr in Hserved. unfold bind at 1.
    rewrite (served_receive_response cmd taken rx m res Hserved Hrx).
    rewrite (IH (acc ++ [res]) (with_reader rx m) Htr eq_refl).
    by rewrite <- app_assoc.
Qed.

Lemma exchange_length (trailer : str) (cmds : list str) (rx rx' : bytes)
    (rs : list CommandResponse.t) :
  exchange trailer cmds rx rs rx' -> length rs = length cmds.
Proof. induction 1; simpl; congruence. Qed.

(** What a [send] that returns has done, and what [send] does on a line
    that holds the answers to its commands. *)
Lemma send_runs (commands : Commands) (m m' : Modem) (r : Responses) :
  send commands m = (Ret r, m') ->
  exists line rs,
    Py.encode (Py.join (lit ";")
      (List.map (_commandify m)
         match commands with One cmd => [cmd] | Many cmds => cmds end))
    = Some line
    /\ exchange (_trailer m)
         (List.map (_commandify m)
            match commands with One cmd => [cmd] | Many cmds => cmds end)
         (reader m) rs (reader m')
    /\ m' = with_reader (reader m') (with_writer (writer m ++ [line]) m)
    /\ r = match rs with [res] => Single res | _ => Several rs end.
Proof.
  rewrite send_eq.
  set (issued := List.map (_commandify m) _).
  unfold bind at 1. unfold write_str.
  destruct (Py.encode (Py.join (lit ";") issued)) as [line|]; [|done].
  cbn [write]. unfold bind at 1.
  destruct (send_each issued [] _) as [[rs|e|] m1] eqn:Heach; try done.
  apply send_each_exchange in Heach as (new & -> & Hex & Hm1). cbn [app] in *.
  cbn [reader with_writer] in Hex.
  destruct new as [|res [|res' new]]; [done| |]; intros [= <- <-];
    exists line; eexists; (split; [done|]); (split; [exact Hex|]);
    (split; [by rewrite Hm1|done]).
Qed.

Lemma exchange_send (commands : Commands) (m : Modem) (line rest : bytes)
    (rs : list CommandResponse.t) :
  Py.encode (Py.join (lit ";")
    (List.map (_commandify m)
       match commands with One cmd => [cmd] | Many cmds => cmds end))
  = Some line ->
  exchange (_trailer m)
    (List.map (_commandify m)
       match commands with One cmd => [cmd] | Many cmds => cmds end)
    (reader m) rs rest ->
  rs <> [] ->
  send commands m
  = (Ret match rs with [res] => Single res | _ => Several rs end,
     with_reader rest (with_writer (writer m ++ [line]) m)).
Proof.
  intros Hline Hex Hrs. rewrite send_eq.
  set (issued := List.map (_commandify m) _) in *.
  unfold bind at 1. unfold write_str. rewrite Hline. cbn [write].
  unfold bind at 1.
  rewrite (exchange_send_each issued [] rs rest (with_writer (writer m ++ [line]) m))
    by exact Hex.
  cbn [app]. by destruct rs as [|res [|res' rs]].
Qed.

Lemma Forall2_two_or_more {A B} (P : A -> B -> Prop) (l : list A) (k : list B) :
  Forall2 P l k -> (2 <= length l)%nat ->
  match k with [res] => False | _ => k <> [] end.
Proof.
  intros Hall Hlen. apply Forall2_length in Hall.
  destruct k as [|b [|b' k]]; simpl in *; try done; lia.
Qed.

(** C6. A [send] of two or more fragments that returns, returns a list
    with one response per fragment, in the order of the fragments: the
    pending input is cut into stretches that follow each other, one per
    command line and in the order of the lines, and the i-th response is
    what [CommandResponse.from_bytes] makes of the result that holds the
    echo of the i-th line in the i-th stretch (so its raw bytes begin with
    that echo, and its result code is the one that came after that echo),
    although the lines went out joined by [;] in a single write.  Conversely,
    on a line that holds such stretches the call returns, with these
    responses.  A single fragment, bare or in a list, gives a single
    response and not a list. *)
Theorem send_responses_in_order (cmds : list str) (m : Modem)
    (Hmany : (2 <= length cmds)%nat) :
  (forall r m', send (Many cmds) m = (Ret r, m') ->
     exists line rs,
       Py.encode (Py.join (lit ";") (List.map (_commandify m) cmds)) = Some line
       /\ writer m' = writer m ++ [line]
       /\ r = Several rs
       /\ Forall2 answers (List.map (_commandify m) cmds) rs
       /\ exchange (_trailer m) (List.map (_commandify m) cmds)
            (reader m) rs (reader m'))
  /\ (forall line rs rest,
        Py.encode (Py.join (lit ";") (List.map (_commandify m) cmds)) = Some line ->
        exchange (_trailer m) (List.map (_commandify m) cmds) (reader m) rs rest ->
        send (Many cmds) m
        = (Ret (Several rs), with_reader rest (with_writer (writer m ++ [line]) m)))
  /\ (forall cmd r m',
        send (One cmd) m = (Ret r, m') \/ send (Many [cmd]) m = (Ret r, m') ->
        exists res taken,
          r = Single res /\ answers (_commandify m cmd) res
          /\ served (_trailer m) (_commandify m cmd) taken res
          /\ reader m = taken ++ reader m').
Proof.
  split; [|split].
  - intros r m' Hsend.
    pose proof (send_runs _ _ _ _ Hsend) as (line' & rs' & Hline' & Hex & _ & Hr').
    apply send_returns in Hsend as (line & rs & Hline & Hw & Hall & ->).
    exists line, rs.
    pose proof (Forall2_two_or_more _ _ _ Hall) as Hrs.
    rewrite length_map in Hrs. specialize (Hrs Hmany).
    assert (Hrs' : rs' = rs).
    { pose proof (exchange_length _ _ _ _ _ Hex) as Hlen'.
      pose proof (Forall2_length _ _ _ Hall) as Hlen.
      rewrite length_map in Hlen, Hlen'.
      destruct rs as [|res [|res2 rs]]; simpl in Hlen; try lia.
      destruct rs' as [|res' [|res2' rs']]; simpl in Hlen'; try lia.
      congruence. }
    subst rs'.
    split; [done|]. split; [done|].
    split; [by destruct rs as [|res [|res' rs]]|]. by split.
  - intros line rs rest Hline Hex.
    pose proof (exchange_length _ _ _ _ _ Hex) as Hlen. rewrite length_map in Hlen.
    rewrite (exchange_send (Many cmds) m line rest rs Hline Hex)
      by (destruct rs; [simpl in Hlen; lia|done]).
    destruct rs as [|res [|res' rs]]; simpl in Hlen; try lia. done.
  - intros cmd r m' Hsend.
    assert (Hruns : exists rs,
               exchange (_trailer m) [_commandify m cmd] (reader m) rs (reader m')
               /\ Forall2 answers [_commandify m cmd] rs
               /\ r = match rs with [res] => Single res | _ => Several rs end).
    { destruct Hsend as [Hsend|Hsend];
        pose proof (send_runs _ _ _ _ Hsend) as (line' & rs' & _ & Hex & _ & Hr');
        apply send_returns in Hsend as (line & rs & _ & _ & Hall & ->);
        exists rs; (split; [|done]);
        pose proof (exchange_length _ _ _ _ _ Hex) as Hlen';
        pose proof (Forall2_length _ _ _ Hall) as Hlen;
        simpl in Hlen, Hlen';
        destruct rs as [|res [|res2 rs]]; simpl in Hlen; try lia;
        destruct rs' as [|res' [|res2' rs']]; simpl in Hlen'; try lia;
        assert (res' = res) as <- by congruence; exact Hex. }
    destruct Hruns as (rs & Hex & Hall & ->).
    apply Forall2_cons_inv_l in Hall as (res & rs' & Hres & Hnil & ->).
    apply Forall2_nil_inv_l in Hnil as ->.
    inversion Hex as [|? ? taken ? rx ? ? ? Hrx Hserved Hrest]; subst.
    inversion Hrest; subst.
    by exists res, taken.
Qed.

(** A single fragment never comes back as a list. *)
Lemma send_One_single (cmd : str) (m m' : Modem) (r : Responses) :
  send (One cmd) m = (Ret r, m') -> exists res, r = Single res.
Proof.
  intros Hsend.
  apply send_returns in Hsend as (line & rs & _ & _ & Hall & ->).
  simpl in Hall.
  apply Forall2_cons_inv_l in Hall as (res & rs' & _ & Hnil & ->).
  apply Forall2_nil_inv_l in Hnil as ->. by exists res.
Qed.

(** C7. [set_mode] returns [True] and stores the requested mode when the
    result code of its command is OK; when it is another code the call
    returns [False], raises nothing and leaves the stored mode as it was.
    [set_caller_id] returns [True] when the result code is OK and [False]
    otherwise.  Neither changes anything but the transport on the way. *)
Theorem set_mode_follows_result_code (mode : Mode) (m m1 : Modem) (r : Responses)
    (Hsend : send (One (lit "+FCLASS=" ++ Mode_value mode)) m = (Ret r, m1)) :
  (exists res,
     r = Single res
     /\ _mode m1 = _mode m
     /\ (CommandResponse._result_code res = OK ->
         set_mode mode m = (Ret true, with_mode (Some mode) m1))
     /\ (CommandResponse._result_code res <> OK ->
         set_mode mode m = (Ret false, m1)))
  /\ (forall (bool_ : bool) m2 r2,
        send (One (lit "AT+VCID=" ++ Py.str_of_int (if bool_ then 1 else 0))) m
        = (Ret r2, m2) ->
        exists res2,
          r2 = Single res2
          /\ set_caller_id bool_ m
             = (Ret (bool_decide (CommandResponse._result_code res2 = OK)), m2)
          /\ _mode m2 = _mode m).
Proof.
  split.
  - destruct (send_One_single _ _ _ _ Hsend) as [res ->]. exists res.
    pose proof (frame_send (One (lit "+FCLASS=" ++ Mode_value mode)) m) as Hframe.
    rewrite Hsend in Hframe. apply frame_fields in Hframe.
    split; [done|]. split; [by intuition|].
    unfold set_mode, bind. rewrite Hsend. simpl.
    unfold CommandResponse.is_ok. split; intros Hrc.
    + by rewrite bool_decide_eq_true_2.
    + by rewrite bool_decide_eq_false_2.
  - intros bool_ m2 r2 Hsend2.
    destruct (send_One_single _ _ _ _ Hsend2) as [res ->]. exists res.
    pose proof (frame_send
      (One (lit "AT+VCID=" ++ Py.str_of_int (if bool_ then 1 else 0))) m) as Hframe.
    rewrite Hsend2 in Hframe.
    apply frame_fields in Hframe.
    split; [done|]. split; [|by intuition].
    unfold set_caller_id, bind. by rewrite Hsend2.
Qed.

End EngineFacts.

(** ** A library for the examples *)

(** A byte of 8-bit audio as [audioop] reads it: signed. *)
Definition sample8 (b : N) : Z :=
  if b <? 128 then Z.of_N b else (Z.of_N b - 256)%Z.

(** The integer part of the root of the mean of the squares. *)
Definition rms8 (fragment : bytes) (width : Z) : Z :=
  match fragment with
  | [] => 0%Z
  | _ =>
      Z.sqrt (fold_right (fun b acc => (sample8 b * sample8 b + acc)%Z) 0%Z fragment
              / Z.of_nat (length fragment))
  end.

(** Python's library on ASCII text and 8-bit samples. *)
Definition ascii_lib : PyLib :=
  {| str_upper := ascii_upper; audioop_rms := rms8 |}.

(** The modem answers OK to two gain commands. *)
Definition two_gains_OK : bytes :=
  lit "AT+VGR=128" ++ [CR; CR; LF] ++ lit "OK" ++ [CR; LF]
  ++ lit "AT+VGT=128" ++ [CR; CR; LF] ++ lit "OK" ++ [CR; LF].

(** The modem refuses the first of two gain commands and accepts the
    second. *)
Definition gain_refused : bytes :=
  lit "AT+VGR=300" ++ [CR; CR; LF] ++ lit "ERROR" ++ [CR; LF].
Definition gain_accepted : bytes :=
  lit "AT+VGT=128" ++ [CR; CR; LF] ++ lit "OK" ++ [CR; LF].

Lemma send_responses_in_order_witness :
  exists line r1 r2,
    @send ascii_lib (Many [lit "+vgr=300"; lit "+vgt=128"])
      (new_Modem (gain_refused ++ gain_accepted))
    = (Ret (Several [r1; r2]),
       with_reader [] (with_writer [line] (new_Modem (gain_refused ++ gain_accepted))))
    /\ CommandResponse._raw r1 = gain_refused
    /\ CommandResponse._result_code r1 = ERROR
    /\ CommandResponse._raw r2 = gain_accepted
    /\ CommandResponse._result_code r2 = OK.
Proof.
  destruct (send_responses_in_order (H := ascii_lib)
              [lit "+vgr=300"; lit "+vgt=128"]
              (new_Modem (gain_refused ++ gain_accepted)) (le_n 2))
    as (_ & Hforward & _).
  assert (Hone : forall chunk,
             read_until_result_from [CR; LF] [] chunk = (Ret chunk, []) ->
             one_result [CR; LF] chunk).
  { intros chunk Hrun. by apply read_gives_one_result in Hrun as [_ Hone]. }
  eexists _, _, _. split.
  - apply Hforward; [by vm_compute|].
    eapply (exchange_cons _ _ _ gain_refused _ gain_accepted); [reflexivity| |].
    { exists (lit "AT+VGR=300" ++ [CR]), [], gain_refused, [],
        ([CR; LF] ++ lit "ERROR" ++ [CR; LF]).
      split; [by vm_compute|]. split; [done|].
      split; [apply Forall_singleton, Hone; by vm_compute|].
      split; [done|]. split; [by vm_compute|]. split; [by vm_compute|].
      by vm_compute. }
    eapply (exchange_cons _ _ _ gain_accepted _ []); [by rewrite app_nil_r| |].
    { exists (lit "AT+VGT=128" ++ [CR]), [], gain_accepted, [],
        ([CR; LF] ++ lit "OK" ++ [CR; LF]).
      split; [by vm_compute|]. split; [done|].
      split; [apply Forall_singleton, Hone; by vm_compute|].
      split; [done|]. split; [by vm_compute|]. split; [by vm_compute|].
      by vm_compute. }
    apply exchange_nil.
  - by vm_compute.
Defined.

(** The modem answers a request for voice mode with OK, or with ERROR. *)
Definition fclass_OK : bytes :=
  lit "AT+FCLASS=8" ++ [CR; CR; LF] ++ lit "OK" ++ [CR; LF].
Definition fclass_ERROR : bytes :=
  lit "AT+FCLASS=8" ++ [CR; CR; LF] ++ lit "ERROR" ++ [CR; LF].

Lemma set_mode_follows_result_code_witness :
  (@set_mode ascii_lib VOICE (new_Modem fclass_ERROR)).1 = Ret false
  /\ _mode (@set_mode ascii_lib VOICE (new_Modem fclass_ERROR)).2 = None.
Proof.
  eassert (Hrun : @send ascii_lib (One (lit "+FCLASS=" ++ Mode_value VOICE))
                        (new_Modem fclass_ERROR) = (Ret (Single _), _))
    by (vm_compute; reflexivity).
  destruct (set_mode_follows_result_code (H := ascii_lib) VOICE _ _ _ Hrun)
    as [(res & Hres & Hmode & _ & Hbad) _].
  injection Hres as <-.
  rewrite Hbad by (vm_compute; discriminate).
  split; [reflexivity|exact Hmode].
Defined.

Lemma set_mode_OK_example :
  (@set_mode ascii_lib VOICE (new_Modem fclass_OK)).1 = Ret true
  /\ _mode (@set_mode ascii_lib VOICE (new_Modem fclass_OK)).2 = Some VOICE.
Proof. by vm_compute. Qed.

(** ** The DLE filter *)

(** The filter as the specification words it: every pair that begins with
    DLE leaves the audio, a single DLE standing for the pair DLE DLE. *)
Fixpoint spec_dle_decode (data : bytes) : bytes :=
  match data with
  | [] => []
  | b :: rest =>
      match rest with
      | code :: rest' =>
          if b =? DLE then
            (if code =? DLE then [DLE] else []) ++ spec_dle_decode rest'
          else b :: spec_dle_decode rest
      | [] => [b]
      end
  end.

(** No pair DLE LF, read pair by pair from the left. *)
Fixpoint dle_lf_free (data : bytes) : bool :=
  match data with
  | [] => true
  | b :: rest =>
      match rest with
      | code :: rest' =>
          if b =? DLE then negb (code =? LF) && dle_lf_free rest'
          else dle_lf_free rest
      | [] => true
      end
  end.

Lemma catch_dsc_replacement (code : N) (m m' : Modem) (repl : bytes) :
  _catch_dsc code m = (Ret repl, m') ->
  repl = if code =? DLE then [DLE] else [].
Proof.
  unfold _catch_dsc. destruct (Py.decode [code]) as [text|]; [|done].
  case_bool_decide as Hbusy.
  - intros [= <- _]. injection Hbusy as ->. done.
  - destruct (code =? DLE); [by intros [= <- _]|].
    unfold bind. destruct (_catch_dtmf text m) as [[[]|e|] m1]; try done.
    by intros [= <- _].
Qed.

Lemma re_sub_dsc_eq (b code : N) (rest : bytes) :
  re_sub_dsc (b :: code :: rest)
  = if (b =? DLE) && negb (code =? LF) then
      repl <~ _catch_dsc code ;; out <~ re_sub_dsc rest ;; ret (repl ++ out)
    else out <~ re_sub_dsc (code :: rest) ;; ret (b :: out).
Proof. reflexivity. Qed.

Lemma spec_dle_decode_eq (b code : N) (rest : bytes) :
  spec_dle_decode (b :: code :: rest)
  = if b =? DLE then (if code =? DLE then [DLE] else []) ++ spec_dle_decode rest
    else b :: spec_dle_decode (code :: rest).
Proof. reflexivity. Qed.

Lemma dle_lf_free_eq (b code : N) (rest : bytes) :
  dle_lf_free (b :: code :: rest)
  = if b =? DLE then negb (code =? LF) && dle_lf_free rest
    else dle_lf_free (code :: rest).
Proof. reflexivity. Qed.

(** Where no pair DLE LF occurs, the filter of the code is the filter of the
    specification. *)
Lemma re_sub_dsc_refines (data out : bytes) (m m' : Modem) :
  dle_lf_free data = true ->
  re_sub_dsc data m = (Ret out, m') ->
  out = spec_dle_decode data.
Proof.
  remember (length data) as n eqn:Hn. revert data out m m' Hn.
  induction (lt_wf n) as [n _ IH]. intros data out m m' Hn Hfree.
  destruct data as [|b [|code rest]].
  - by intros [= <- _].
  - by intros [= <- _].
  - rewrite re_sub_dsc_eq, spec_dle_decode_eq. rewrite dle_lf_free_eq in Hfree.
    destruct (b =? DLE) eqn:Hb.
    + apply andb_true_iff in Hfree as [Hlf Hfree]. rewrite Hlf.
      cbn [andb]. unfold bind at 1.
      destruct (_catch_dsc code m) as [[repl|e|] m1] eqn:Hcatch; try done.
      apply catch_dsc_replacement in Hcatch as ->.
      unfold bind at 1.
      destruct (re_sub_dsc rest m1) as [[out1|e|] m2] eqn:Hrest; try done.
      intros [= <- _]. f_equal.
      eapply (IH (length rest)); [simpl in Hn; lia|done|done|exact Hrest].
    + cbn [andb]. unfold bind at 1.
      destruct (re_sub_dsc (code :: rest) m) as [[out1|e|] m1] eqn:Hrest; try done.
      intros [= <- _]. f_equal.
      eapply (IH (length (code :: rest))); [simpl in *; lia|done|done|exact Hrest].
Qed.

(** C3, at the input where the code departs from it.  The pair DLE LF is not
    matched by the pattern of [re.sub], whose dot leaves out the line feed:
    the two bytes stay in the audio, and no handler sees the code.  The
    filter of the specification removes the pair. *)
Theorem dle_lf_pair_stays_in_audio (m : Modem) :
  re_sub_dsc [DLE; LF] m = (Ret [DLE; LF], m)
  /\ spec_dle_decode [DLE; LF] = []
  /\ re_sub_dsc [DLE; 33] m = (Ret [], (_catch_dtmf (lit "!") m).2)
  /\ _catch_dtmf (lit "!") m = (Ret tt, with_last_dtmf NoDtmf m).
Proof.
  assert (Hcatch : _catch_dtmf (lit "!") m = (Ret tt, with_last_dtmf NoDtmf m)).
  { unfold _catch_dtmf. rewrite bool_decide_eq_false_2 by done.
    rewrite (bool_decide_eq_false_2 (lit "!" = lit "~")) by done.
    by destruct (_last_dtmf m). }
  split; [done|]. split; [done|]. split; [|done].
  rewrite re_sub_dsc_eq.
  change ((DLE =? DLE) && negb (33 =? LF)) with true. cbv beta iota.
  unfold bind at 1. unfold _catch_dsc.
  change (Py.decode [33]) with (Some (lit "!")). cbv beta iota.
  rewrite bool_decide_eq_false_2 by done.
  change (33 =? DLE) with false. cbv beta iota.
  unfold bind at 1. by rewrite Hcatch.
Qed.

(** ** Starting a voice session *)

Section VoiceFacts.

Context `{PyLib}.

(** What a [start_voice_*] call that returns has done when the mode was
    VOICE: it has sent the gain command(s) [gain], then [start_cmd]; it
    answers whether the result code of the latter is CONNECT, and only
    then has it set the state [st], cleared the stop reason and created
    the tasks [coros].  The state the modem was in plays no part. *)
Definition start_outcome (gain : Commands) (start_cmd : str) (st : State)
    (coros : list Coro) (m : Modem) (b : bool) (m' : Modem) : Prop :=
  exists r1 m1 res m2,
    send gain m = (Ret r1, m1)
    /\ send (One start_cmd) m1 = (Ret (Single res), m2)
    /\ frame m m2
    /\ b = bool_decide (CommandResponse._result_code res = CONNECT)
    /\ m' = if b then spawn_all coros
                        (with_stop_event None (with_state (Some st) m2))
            else m2.

Lemma start_outcome_false gain start_cmd st coros m m' :
  start_outcome gain start_cmd st coros m false m' ->
  _state m' = _state m /\ _stop_event m' = _stop_event m
  /\ spawned m' = spawned m /\ _background_tasks m' = _background_tasks m.
Proof.
  intros (r1 & m1 & res & m2 & _ & _ & Hframe & _ & ->).
  apply frame_fields in Hframe. intuition.
Qed.

Lemma spawn_all_fields (coros : list Coro) (m : Modem) :
  _state (spawn_all coros m) = _state m
  /\ _stop_event (spawn_all coros m) = _stop_event m
  /\ spawned (spawn_all coros m) = spawned m ++ coros.
Proof.
  revert m. induction coros as [|coro coros IH]; intros m.
  - simpl. by rewrite app_nil_r.
  - change (spawn_all (coro :: coros) m)
      with (spawn_all coros (create_background_task coro m).2).
    destruct (IH (create_background_task coro m).2) as (-> & -> & ->).
    simpl. by rewrite <- app_assoc.
Qed.

Lemma start_outcome_true gain start_cmd st coros m m' :
  start_outcome gain start_cmd st coros m true m' ->
  _state m' = Some st /\ _stop_event m' = None
  /\ spawned m' = spawned m ++ coros.
Proof.
  intros (r1 & m1 & res & m2 & _ & _ & Hframe & _ & ->).
  apply frame_fields in Hframe.
  destruct (spawn_all_fields coros
              (with_stop_event None (with_state (Some st) m2))) as (-> & -> & ->).
  simpl. intuition congruence.
Qed.

Lemma mode_test (m : Modem) :
  negb (bool_decide (_mode m = Some VOICE)) = false <-> _mode m = Some VOICE.
Proof. rewrite negb_false_iff. apply bool_decide_eq_true. Qed.

Lemma start_voice_receive_outcome wav d rx_gain m b m' :
  _mode m = Some VOICE ->
  start_voice_receive wav d rx_gain m = (Ret b, m') ->
  start_outcome (One (lit "+VGR=" ++ Py.str_of_int rx_gain)) (lit "+VRX")
    VOICE_RECEIVE [coro_receive d wav] m b m'.
Proof.
  intros Hmode. unfold start_voice_receive.
  rewrite (proj2 (mode_test m) Hmode). unfold bind at 1.
  destruct (send (One (lit "+VGR=" ++ _)) m) as [[r1|e|] m1] eqn:Hgain; try done.
  unfold bind at 1.
  destruct (send (One (lit "+VRX")) m1) as [[r|e|] m2] eqn:Hstart; try done.
  destruct (send_One_single _ _ _ _ Hstart) as [res ->].
  pose proof (frame_send (One (lit "+VGR=" ++ Py.str_of_int rx_gain)) m) as F1.
  pose proof (frame_send (One (lit "+VRX")) m1) as F2.
  rewrite Hgain in F1. rewrite Hstart in F2.
  unfold bind, the_response, ret, spawn.
  case_bool_decide as Hrc.
  all: cbn [negb]; cbv beta iota.
  all: intros Heq; apply pair_equal_spec in Heq as [Hb <-].
  all: injection Hb as <-.
  all: exists r1, m1, res, m2.
  all: split; [exact Hgain|].
  all: split; [exact Hstart|].
  all: split; [eapply frame_trans; [exact F1|exact F2]|].
  all: split.
  - symmetry. by apply bool_decide_eq_true_2.
  - unfold spawn_all. cbn [fold_left]. reflexivity.
  - symmetry. by apply bool_decide_eq_false_2.
  - reflexivity.
Qed.

Lemma start_voice_transmit_outcome d tx_gain m b m' :
  _mode m = Some VOICE ->
  start_voice_transmit d tx_gain m = (Ret b, m') ->
  start_outcome (One (lit "+VGT=" ++ Py.str_of_int tx_gain)) (lit "+VTX")
    VOICE_TRANSMIT
    [coro_receive d None; coro_transmit d; coro_play_queue_consumer] m b m'.
Proof.
  intros Hmode. unfold start_voice_transmit.
  rewrite (proj2 (mode_test m) Hmode). unfold bind at 1.
  destruct (send (One (lit "+VGT=" ++ _)) m) as [[r1|e|] m1] eqn:Hgain; try done.
  unfold bind at 1.
  destruct (send (One (lit "+VTX")) m1) as [[r|e|] m2] eqn:Hstart; try done.
  destruct (send_One_single _ _ _ _ Hstart) as [res ->].
  pose proof (frame_send (One (lit "+VGT=" ++ Py.str_of_int tx_gain)) m) as F1.
  pose proof (frame_send (One (lit "+VTX")) m1) as F2.
  rewrite Hgain in F1. rewrite Hstart in F2.
  unfold bind, the_response, ret, spawn.
  case_bool_decide as Hrc.
  all: cbn [negb]; cbv beta iota.
  all: intros Heq; apply pair_equal_spec in Heq as [Hb <-].
  all: injection Hb as <-.
  all: exists r1, m1, res, m2.
  all: split; [exact Hgain|].
  all: split; [exact Hstart|].
  all: split; [eapply frame_trans; [exact F1|exact F2]|].
  all: split.
  - symmetry. by apply bool_decide_eq_true_2.
  - unfold spawn_all. cbn [fold_left]. reflexivity.
  - symmetry. by apply bool_decide_eq_false_2.
  - reflexivity.
Qed.

Lemma start_voice_duplex_outcome wav d tx_gain rx_gain m b m' :
  _mode m = Some VOICE ->
  start_voice_duplex wav d tx_gain rx_gain m = (Ret b, m') ->
  start_outcome (Many [lit "+VGR=" ++ Py.str_of_int rx_gain;
                       lit "+VGT=" ++ Py.str_of_int tx_gain]) (lit "+VTR")
    VOICE_DUPLEX
    [coro_receive d wav; coro_transmit d; coro_silence_detection;
     coro_play_queue_consumer] m b m'.
Proof.
  intros Hmode. unfold start_voice_duplex.
  rewrite (proj2 (mode_test m) Hmode). unfold bind at 1.
  destruct (send (Many _) m) as [[r1|e|] m1] eqn:Hgain; try done.
  unfold bind at 1.
  destruct (send (One (lit "+VTR")) m1) as [[r|e|] m2] eqn:Hstart; try done.
  destruct (send_One_single _ _ _ _ Hstart) as [res ->].
  pose proof (frame_send (Many [lit "+VGR=" ++ Py.str_of_int rx_gain;
                                lit "+VGT=" ++ Py.str_of_int tx_gain]) m) as F1.
  pose proof (frame_send (One (lit "+VTR")) m1) as F2.
  rewrite Hgain in F1. rewrite Hstart in F2.
  unfold bind, the_response, ret, spawn.
  case_bool_decide as Hrc.
  all: cbn [negb]; cbv beta iota.
  all: intros Heq; apply pair_equal_spec in Heq as [Hb <-].
  all: injection Hb as <-.
  all: exists r1, m1, res, m2.
  all: split; [exact Hgain|].
  all: split; [exact Hstart|].
  all: split; [eapply frame_trans; [exact F1|exact F2]|].
  all: split.
  - symmetry. by apply bool_decide_eq_true_2.
  - unfold spawn_all. cbn [fold_left]. reflexivity.
  - symmetry. by apply bool_decide_eq_false_2.
  - reflexivity.
Qed.

(** C2, as the code has it.  A [start_voice_*] call made while the mode is
    not VOICE returns [False] and leaves the modem as it was.  There is no
    test of the state: while the mode is VOICE the call goes through its
    commands whatever the state, in a session or out of one; it returns
    [False], with state, stop reason and tasks as they were, when the
    result code of the start command is not CONNECT, and when it is
    CONNECT it returns [True] and the state becomes that of the session
    asked for. *)
Theorem start_voice_tests_mode_only (m : Modem) (wav : option str)
    (d : number) (tx_gain rx_gain : Z) :
  (_mode m <> Some VOICE ->
     start_voice_receive wav d rx_gain m = (Ret false, m)
     /\ start_voice_transmit d tx_gain m = (Ret false, m)
     /\ start_voice_duplex wav d tx_gain rx_gain m = (Ret false, m))
  /\ (_mode m = Some VOICE ->
      forall b m',
        (start_voice_receive wav d rx_gain m = (Ret b, m') ->
           start_outcome (One (lit "+VGR=" ++ Py.str_of_int rx_gain)) (lit "+VRX")
             VOICE_RECEIVE [coro_receive d wav] m b m')
        /\ (start_voice_transmit d tx_gain m = (Ret b, m') ->
            start_outcome (One (lit "+VGT=" ++ Py.str_of_int tx_gain)) (lit "+VTX")
              VOICE_TRANSMIT
              [coro_receive d None; coro_transmit d; coro_play_queue_consumer]
              m b m')
        /\ (start_voice_duplex wav d tx_gain rx_gain m = (Ret b, m') ->
            start_outcome (Many [lit "+VGR=" ++ Py.str_of_int rx_gain;
                                 lit "+VGT=" ++ Py.str_of_int tx_gain])
              (lit "+VTR") VOICE_DUPLEX
              [coro_receive d wav; coro_transmit d; coro_silence_detection;
               coro_play_queue_consumer] m b m'))
  /\ (forall gain start_cmd st coros b m',
        start_outcome gain start_cmd st coros m b m' ->
        if b then _state m' = Some st /\ _stop_event m' = None
        else _state m' = _state m /\ _stop_event m' = _stop_event m
             /\ spawned m' = spawned m).
Proof.
  split; [|split].
  - intros Hmode.
    unfold start_voice_receive, start_voice_transmit, start_voice_duplex.
    by rewrite bool_decide_eq_false_2.
  - intros Hmode b m'. split; [|split].
    + by apply start_voice_receive_outcome.
    + by apply start_voice_transmit_outcome.
    + by apply start_voice_duplex_outcome.
  - intros gain start_cmd st coros [|] m' Hout.
    + apply start_outcome_true in Hout. intuition.
    + apply start_outcome_false in Hout. intuition.
Qed.

End VoiceFacts.

(** A modem in voice mode, in the middle of a receive session, and a line
    that answers OK to the gain command and CONNECT to [+VTX]. *)
Definition transmit_accepted : bytes :=
  lit "AT+VGT=128" ++ [CR; CR; LF] ++ lit "OK" ++ [CR; LF]
  ++ lit "AT+VTX" ++ [CR; CR; LF] ++ lit "CONNECT" ++ [CR; LF].

Definition receiving (incoming : bytes) : Modem :=
  with_running true
    (with_state (Some VOICE_RECEIVE) (with_mode (Some VOICE) (new_Modem incoming))).

(** C2 as stated fails: [start_voice_transmit], called in state
    VOICE_RECEIVE, returns [True] and moves the state to VOICE_TRANSMIT when
    the modem answers CONNECT. *)
Lemma start_voice_transmit_during_receive :
  in_voice_session (_state (receiving transmit_accepted)) = true
  /\ (@start_voice_transmit ascii_lib (PyInt 120) 128
        (receiving transmit_accepted)).1 = Ret true
  /\ _state (@start_voice_transmit ascii_lib (PyInt 120) 128
               (receiving transmit_accepted)).2 = Some VOICE_TRANSMIT.
Proof. by vm_compute. Qed.

Lemma start_voice_tests_mode_only_witness :
  @start_voice_transmit ascii_lib (PyInt 120) 128 (new_Modem transmit_accepted)
  = (Ret false, new_Modem transmit_accepted).
Proof.
  destruct (start_voice_tests_mode_only (H := ascii_lib)
              (new_Modem transmit_accepted) None (PyInt 120) 128 128)
    as [Hmode _].
  apply Hmode. discriminate.
Defined.

(** ** The stop reason *)

Definition same_stop (m m' : Modem) : Prop := _stop_event m' = _stop_event m.

Definition stays_set (m m' : Modem) : Prop :=
  is_Some (_stop_event m) -> is_Some (_stop_event m').

Lemma same_stop_refl (m : Modem) : same_stop m m.
Proof. done. Qed.

Lemma same_stop_trans (m1 m2 m3 : Modem) :
  same_stop m1 m2 -> same_stop m2 m3 -> same_stop m1 m3.
Proof. unfold same_stop. congruence. Qed.

Lemma stays_set_refl (m : Modem) : stays_set m m.
Proof. by intros Hset. Qed.

Lemma stays_set_trans (m1 m2 m3 : Modem) :
  stays_set m1 m2 -> stays_set m2 m3 -> stays_set m1 m3.
Proof. unfold stays_set. auto. Qed.

Lemma same_stop_stays_set {A} (c : M A) : keeps same_stop c -> keeps stays_set c.
Proof. intros Hc m Hset. by rewrite (Hc m). Qed.

Lemma frame_same_stop {A} (c : M A) : keeps frame c -> keeps same_stop c.
Proof. intros Hc m. destruct (Hc m) as (rx & wr & ->). done. Qed.

Ltac stop_bind :=
  first [ apply (keeps_bind same_stop same_stop_trans)
        | apply (keeps_bind stays_set stays_set_trans) ].

Lemma same_stop_read (avail : nat) : keeps same_stop (read avail).
Proof. intros m. unfold read. by destruct (reader m). Qed.

Lemma same_stop_read_timeout (avail : nat) : keeps same_stop (read_timeout avail).
Proof. by intros m. Qed.

Lemma same_stop_complete_dsc (more : list nat) (data : bytes) :
  keeps same_stop (complete_dsc more data).
Proof.
  revert data. induction more as [|avail more IH]; intros data; simpl;
    destruct (Py.endswith [DLE] data); try (by intros m).
  stop_bind; [apply same_stop_read|]. intros chunk. apply IH.
Qed.

Lemma check_stop_stays_set (time_up : bool) (m : Modem) :
  stays_set m (check_stop time_up m).
Proof.
  unfold check_stop, stays_set. destruct time_up; [by eauto|].
  destruct (_running m); simpl; by eauto.
Qed.

Lemma catch_dtmf_same_stop (code : str) : keeps same_stop (_catch_dtmf code).
Proof.
  intros m. unfold _catch_dtmf, call_hook, same_stop. case_bool_decide; [done|].
  destruct (bool_decide (code = lit "~")), (_last_dtmf m), (DTMF_of code);
    try done; by destruct (hook_params (dtmf_callback m) =? 1)%nat.
Qed.

Lemma stays_set_catch_dsc (code : N) : keeps stays_set (_catch_dsc code).
Proof.
  unfold _catch_dsc. destruct (Py.decode [code]) as [text|]; [|by intros m Hset].
  case_bool_decide; [by intros m Hset; eexists|].
  destruct (code =? DLE); [by intros m Hset|].
  apply same_stop_stays_set.
  apply (keeps_bind same_stop same_stop_trans); [apply catch_dtmf_same_stop|].
  by intros _ m.
Qed.

Lemma stays_set_re_sub_dsc (data : bytes) : keeps stays_set (re_sub_dsc data).
Proof.
  remember (length data) as n eqn:Hn. revert data Hn.
  induction (lt_wf n) as [n _ IH]. intros data Hn.
  destruct data as [|b [|code rest]]; try (by intros m Hset).
  rewrite re_sub_dsc_eq. destruct ((b =? DLE) && negb (code =? LF)).
  - stop_bind; [apply stays_set_catch_dsc|]. intros repl.
    stop_bind; [|by intros out m Hset].
    apply (IH (length rest)); [simpl in Hn; lia|done].
  - stop_bind; [|by intros out m Hset].
    apply (IH (length (code :: rest))); [simpl in *; lia|done].
Qed.

Section StopFacts.

Context `{PyLib}.

Lemma stays_set_receive_round (tick : RxTick) (a : bytes) :
  keeps stays_set (receive_round tick a).
Proof.
  unfold receive_round.
  stop_bind; [apply same_stop_stays_set, same_stop_read_timeout|]. intros data.
  stop_bind; [apply same_stop_stays_set, same_stop_complete_dsc|]. intros data'.
  stop_bind; [apply stays_set_re_sub_dsc|]. intros new_audio m.
  apply (check_stop_stays_set _ (with_silence _ m)).
Qed.

Lemma same_stop_receive_end (w : option str) (a : bytes) :
  keeps same_stop (receive_end w a).
Proof.
  unfold receive_end. stop_bind.
  - intros m. case_bool_decide; [done|].
    apply (keeps_bind same_stop same_stop_trans);
      [apply frame_same_stop, frame_write|]. intros _.
    stop_bind; [apply frame_same_stop, keeps_weaken, reads_read_until_result|].
    intros end_. stop_bind; [|by intros to_write m'].
    intros m'. destruct (Py.rfind END_STREAM end_); [done|].
    by destruct (Py.encode _).
  - intros a'. destruct w, a'; try (by intros m).
    intros m. by destruct (wave_refuses m _).
Qed.

Lemma same_stop_transmit_end : keeps same_stop transmit_end.
Proof.
  intros m. unfold transmit_end. case_bool_decide; [|done].
  apply (keeps_bind same_stop same_stop_trans);
    [apply frame_same_stop, frame_write|]. intros _.
  stop_bind; [apply frame_same_stop, keeps_weaken, reads_read_until_result|].
  by intros _ m'.
Qed.

(** A receive round that reads the clock after [max_duration] ends with
    the reason timeout, whatever the reason was and whatever its own DLE
    handler has just written. *)
Lemma receive_round_timeout (tick : RxTick) (a a' : bytes) (m m' : Modem) :
  rx_time_up tick = true ->
  receive_round tick a m = (Ret a', m') ->
  _stop_event m' = Some Timeout.
Proof.
  intros Hup. unfold receive_round, bind.
  destruct (read_timeout _ m) as [[data|e|] m1]; try done.
  destruct (complete_dsc _ data m1) as [[data'|e|] m2]; try done.
  destruct (re_sub_dsc data' m2) as [[new_audio|e|] m3]; try done.
  intros [= _ <-]. unfold check_stop. by rewrite Hup.
Qed.

End StopFacts.

(** The pieces that assign the stop reason in the state [s]: [stop_voice],
    a start call that has read CONNECT, and the round a loop is in the
    middle of. *)
Definition writes_stop (p : Piece) (s : Session) : Prop :=
  match p with
  | StopVoice | StartConnects _ => True
  | RxReads i _ => exists t, rxs s !! i = Some t /\ rx t = RxReading
  | TxResumes j _ => txs s !! j = Some TxWriting
  | TxTests j _ => txs s !! j = Some TxTest /\ _stop_event (modem s) = None
  | _ => False
  end.

(** Every loop is at its test or past it. *)
Definition between_rounds (s : Session) : Prop :=
  Forall (fun t => rx t <> RxReading) (rxs s)
  /\ Forall (fun pc => pc <> TxWriting) (txs s).

(** The pieces of a [send]. *)
Definition sends (p : Piece) : Prop :=
  p = CallerReads \/ exists data, p = CallerWrites data.

Ltac step_inv Hstep :=
  unfold step in Hstep;
  repeat match type of Hstep with
         | context [match ?x with _ => _ end] => destruct x eqn:?
         | context [if ?x then _ else _] => destruct x eqn:?
         end;
  try discriminate Hstep;
  injection Hstep as <-.

Lemma modem_joins (coros : list Coro) (s : Session) :
  modem (fold_left joins coros s) = modem s.
Proof.
  revert s. induction coros as [|coro coros IH]; intros s; [done|].
  simpl. rewrite IH. by destruct coro.
Qed.

Lemma exchange_taken (trailer : str) (cmds : list str) (rx rx' : bytes)
    (rs : list CommandResponse.t) :
  exchange trailer cmds rx rs rx' -> exists taken, rx = taken ++ rx'.
Proof.
  induction 1 as [rx|cmd cmds taken rx0 rx res rs rx' -> _ _ [taken' ->]].
  - by exists [].
  - exists (taken ++ taken'). by rewrite app_assoc.
Qed.

Section SessionFacts.

Context `{PyLib}.

(** Brings in what is known of the modem after a round or a closing
    exchange that the step has run. *)
Ltac use_kept :=
  match goal with
  | Hr : receive_round ?t ?a ?m = _ |- _ =>
      let K := fresh "K" in
      pose proof (stays_set_receive_round t a m) as K;
      rewrite Hr in K; unfold stays_set in K; simpl in K
  | Hr : receive_end ?w ?a ?m = _ |- _ =>
      let K := fresh "K" in
      pose proof (same_stop_receive_end w a m) as K;
      rewrite Hr in K; unfold same_stop in K; simpl in K
  | Hr : transmit_end ?m = _ |- _ =>
      let K := fresh "K" in
      pose proof (same_stop_transmit_end m) as K;
      rewrite Hr in K; unfold same_stop in K; simpl in K
  | Hr : read1 ?m = _ |- _ =>
      let K := fresh "K" in
      assert (K : same_stop m (read1 m).2)
        by (unfold read1; by destruct (reader m));
      rewrite Hr in K; unfold same_stop in K; simpl in K
  end.

Lemma step_stays_set (p : Piece) (s s' : Session) :
  step p s = Some s' ->
  (forall c, p <> StartConnects c) ->
  stays_set (modem s) (modem s').
Proof.
  intros Hstep Hp Hset. step_inv Hstep; simpl; try done; try use_kept;
    try (by apply check_stop_stays_set); try (by rewrite K); auto.
  by destruct (Hp c).
Qed.

Lemma step_writer (p : Piece) (s s' : Session) :
  step p s = Some s' ->
  _stop_event (modem s') <> _stop_event (modem s) ->
  writes_stop p s.
Proof.
  intros Hstep Hchanged. step_inv Hstep; simpl in *; try done; try use_kept;
    try (by rewrite K in Hchanged); eauto.
Qed.

Lemma step_between_rounds (p : Piece) (s s' : Session) :
  step p s = Some s' ->
  p <> StopVoice ->
  (forall c, p <> StartConnects c) ->
  is_Some (_stop_event (modem s)) ->
  between_rounds s ->
  between_rounds s' /\ _stop_event (modem s') = _stop_event (modem s).
Proof.
  intros Hstep Hp Hstart [r Hset] [Hrx Htx].
  assert (Hrxi : forall i t, rxs s !! i = Some t -> rx t <> RxReading)
    by (intros i t; apply (Forall_lookup_1 _ _ _ _ Hrx)).
  assert (Htxj : forall j pc, txs s !! j = Some pc -> pc <> TxWriting)
    by (intros j pc; apply (Forall_lookup_1 _ _ _ _ Htx)).
  step_inv Hstep; unfold between_rounds; simpl in *; try done;
    try use_kept; try congruence;
    try (split; [split; [try apply Forall_insert|try apply Forall_insert]|]);
    try done; try congruence; auto.
  all: try (by destruct (Hstart c)).
  all: try (by edestruct Hrxi; [eassumption|]).
  all: try (by edestruct Htxj; [eassumption|]).
Qed.

(** Once the reason is set and every loop is between rounds, nothing but
    [stop_voice] and a start call changes it, however the pieces are
    interleaved. *)
Lemma run_between_rounds (ps : list Piece) (s s' : Session) :
  run ps s = Some s' ->
  Forall (fun p => p <> StopVoice /\ forall c, p <> StartConnects c) ps ->
  is_Some (_stop_event (modem s)) ->
  between_rounds s ->
  between_rounds s' /\ _stop_event (modem s') = _stop_event (modem s).
Proof.
  revert s. induction ps as [|p ps IH]; intros s; simpl.
  - by intros [= <-].
  - destruct (step p s) as [s1|] eqn:Hstep; [|done].
    intros Hrun Hall Hset Hbetween.
    apply Forall_cons_1 in Hall as [[Hp Hstart] Hall].
    destruct (step_between_rounds _ _ _ Hstep Hp Hstart Hset Hbetween) as [Hb1 Hs1].
    destruct (IH s1 Hrun Hall) as [Hb' Hs']; [by rewrite Hs1|done|].
    split; [done|congruence].
Qed.

Lemma run_app (ps qs : list Piece) (s s1 s2 : Session) :
  run ps s = Some s1 -> run qs s1 = Some s2 -> run (ps ++ qs) s = Some s2.
Proof.
  revert s. induction ps as [|p ps IH]; intros s; simpl.
  - by intros [= <-].
  - destruct (step p s) as [s'|]; [|done]. apply IH.
Qed.

(** The reads of a [send] that takes [taken] from the line. *)
Lemma run_reads (taken rest : bytes) (s : Session) :
  reader (modem s) = taken ++ rest ->
  run (replicate (length taken) CallerReads) s
  = Some (on_modem (with_reader rest) s).
Proof.
  revert s. induction taken as [|b taken IH]; intros s Hrx; simpl.
  - simpl in Hrx. rewrite <- Hrx. by destruct s as [[] ? ?].
  - unfold read1. rewrite Hrx. cbn [app].
    rewrite (IH (on_modem (fun _ => with_reader (taken ++ rest) (modem s)) s))
      by done.
    by destruct s as [[] ? ?].
Qed.

(** A [send] that returns is a [write] and as many reads of one byte as it
    has taken from the line. *)
Lemma send_pieces (commands : Commands) (s : Session) (r : Responses)
    (m' : Modem) :
  send commands (modem s) = (Ret r, m') ->
  exists ps, Forall sends ps /\ run ps s = Some (on_modem (fun _ => m') s).
Proof.
  intros Hsend. apply send_runs in Hsend as (line & rs & _ & Hex & Hm' & _).
  apply exchange_taken in Hex as [taken Hrx].
  exists (CallerWrites line :: replicate (length taken) CallerReads).
  split.
  - constructor; [right; by eexists|]. apply Forall_replicate. by left.
  - cbn [run step].
    rewrite (run_reads taken (reader m')) by done.
    f_equal. rewrite Hm'. by destruct s as [[] ? ?].
Qed.

(** A start call that returns is a run of pieces: those of its two
    [send], and [StartConnects] when it answers [True].  Only then has it
    touched the stop reason. *)
Lemma start_voice_pieces (c : StartCall) (s : Session) (b : bool) (m' : Modem) :
  start_voice c (modem s) = (Ret b, m') ->
  _stop_event m' = (if b then None else _stop_event (modem s))
  /\ exists ps s',
       Forall sends ps
       /\ run (ps ++ if b then [StartConnects c] else []) s = Some s'
       /\ modem s' = m'.
Proof.
  intros Hcall.
  destruct (decide (_mode (modem s) = Some VOICE)) as [Hmode|Hmode].
  - assert (Hout : exists gain start_cmd,
              start_outcome gain start_cmd (start_state c) (start_tasks c)
                (modem s) b m').
    { destruct c; eexists _, _.
      - by apply start_voice_receive_outcome.
      - by apply start_voice_duplex_outcome.
      - by apply start_voice_transmit_outcome. }
    destruct Hout as (gain & start_cmd & Hout). split.
    { destruct b.
      - by apply start_outcome_true in Hout as (_ & ? & _).
      - by apply start_outcome_false in Hout as (_ & ? & _). }
    destruct Hout as (r1 & m1 & res & m2 & Hgain & Hstart & _ & _ & Hm').
    apply send_pieces in Hgain as (ps1 & Hall1 & Hrun1).
    change m1 with (modem (on_modem (fun _ => m1) s)) in Hstart.
    apply send_pieces in Hstart as (ps2 & Hall2 & Hrun2).
    pose proof (run_app _ _ _ _ _ Hrun1 Hrun2) as Hrun.
    exists (ps1 ++ ps2).
    destruct b; eexists; (split; [by apply Forall_app|]);
      (split; [eapply run_app; [exact Hrun|reflexivity]|]).
    + by rewrite modem_joins.
    + done.
  - assert (Htest : negb (bool_decide (_mode (modem s) = Some VOICE)) = true)
      by (apply negb_true_iff; by apply bool_decide_eq_false).
    assert (Hsame : b = false /\ m' = modem s).
    { destruct c; unfold start_voice, start_voice_receive, start_voice_duplex,
        start_voice_transmit in Hcall; rewrite Htest in Hcall;
        by injection Hcall as <- <-. }
    destruct Hsame as [-> ->]. split; [done|]. by exists [], s.
Qed.

(** C1, as the code has it.  The stop reason is a plain attribute and
    every write to it is an unconditional assignment.  Once a reason is
    set: no piece of an RX or a TX task, no [stop_voice] and no [send]
    clears it; a [start_voice_*] call clears it when, and only when, the
    modem answers CONNECT, and such a call is a run of pieces of this
    model; the only pieces that change the reason are [stop_voice], the
    end of such a start call, and the round that a loop had begun before
    it saw the reason, where timeout and then exit override what is
    there; a loop that evaluates its test leaves without writing; and once
    every loop is between rounds the reason stays what it is under every
    interleaving without [stop_voice] and without a start call that is
    answered CONNECT. *)
Theorem stop_reason_last_writer_wins (s : Session) (r : StopReason)
    (Hset : _stop_event (modem s) = Some r) :
  (forall p s', step p s = Some s' -> (forall c, p <> StartConnects c) ->
     is_Some (_stop_event (modem s')))
  /\ (forall c, exists s', step (StartConnects c) s = Some s'
                           /\ _stop_event (modem s') = None
                           /\ _state (modem s') = Some (start_state c))
  /\ (forall c b m', start_voice c (modem s) = (Ret b, m') ->
        _stop_event m' = (if b then None else Some r)
        /\ exists ps s',
             Forall sends ps
             /\ run (ps ++ if b then [StartConnects c] else []) s = Some s'
             /\ modem s' = m')
  /\ (forall p s', step p s = Some s' ->
        _stop_event (modem s') <> Some r ->
        p = StopVoice
        \/ (exists c, p = StartConnects c)
        \/ (exists i tick t, p = RxReads i tick /\ rxs s !! i = Some t
                             /\ rx t = RxReading)
        \/ (exists j time_up, p = TxResumes j time_up
                              /\ txs s !! j = Some TxWriting))
  /\ (exists s', step StopVoice s = Some s'
                 /\ _stop_event (modem s') = Some Stop)
  /\ (forall i t, rxs s !! i = Some t -> rx t = RxTest ->
        step (RxTests i) s = Some (with_rx i (at_pc RxLeft t) s))
  /\ (forall j tick, txs s !! j = Some TxTest ->
        step (TxTests j tick) s = Some (with_tx j TxLeft s))
  /\ (forall i tick s' t', step (RxReads i tick) s = Some s' ->
        rx_time_up tick = true ->
        rxs s' !! i = Some t' -> rx t' = RxTest ->
        _stop_event (modem s') = Some Timeout)
  /\ (forall j time_up s', step (TxResumes j time_up) s = Some s' ->
        _stop_event (modem s')
        = if time_up then Some Timeout
          else if _running (modem s) then Some r else Some Exit)
  /\ (forall ps s', run ps s = Some s' ->
        Forall (fun p => p <> StopVoice /\ forall c, p <> StartConnects c) ps ->
        between_rounds s ->
        _stop_event (modem s') = Some r).
Proof.
  split; [|split; [|split; [|split; [|split; [|split; [|split; [|split;
    [|split]]]]]]]].
  - intros p s' Hstep Hp. apply (step_stays_set _ _ _ Hstep Hp). by eexists.
  - intros c. eexists. split; [reflexivity|]. rewrite modem_joins.
    cbn [modem on_modem].
    destruct (spawn_all_fields (start_tasks c)
                (with_stop_event None
                   (with_state (Some (start_state c)) (modem s))))
      as (-> & -> & _).
    done.
  - intros c b m' Hcall. rewrite <- Hset. by apply start_voice_pieces.
  - intros p s' Hstep Hchanged. rewrite <- Hset in Hchanged.
    pose proof (step_writer _ _ _ Hstep Hchanged) as Hw.
    destruct p; simpl in Hw; try done; eauto.
    + destruct Hw as (t & Ht & Hpc). right. right. left. by exists i, tick, t.
    + destruct Hw as [_ Hnone]. congruence.
    + right. right. right. by exists j, time_up.
  - eexists. split; [reflexivity|done].
  - intros i t Ht Hpc. unfold step. by rewrite Ht, Hpc, Hset.
  - intros j tick Hj. unfold step. by rewrite Hj, Hset.
  - intros i tick s' t' Hstep Hup Ht' Hpc. unfold step in Hstep.
    destruct (rxs s !! i) as [t|] eqn:Ht; [|done].
    assert (Hi : (i < length (rxs s))%nat) by (by eapply lookup_lt_Some).
    destruct (rx t); try done.
    destruct (receive_round tick (audio t) (modem s)) as [[a|e|] m'] eqn:Hround;
      try done; injection Hstep as <-; cbn [modem rxs with_rx on_modem] in *.
    + by eapply receive_round_timeout.
    + rewrite list_lookup_insert_eq in Ht' by done.
      injection Ht' as <-. done.
  - intros j time_up s' Hstep. unfold step in Hstep.
    destruct (txs s !! j) as [[]|]; try done; injection Hstep as <-; simpl.
    unfold check_stop. destruct time_up; [done|].
    by destruct (_running (modem s)).
  - intros ps s' Hrun Hall Hbetween.
    destruct (run_between_rounds _ _ _ Hrun Hall) as [_ Hsame];
      [by eexists|done|]. congruence.
Qed.

End SessionFacts.

(** A receive session whose line delivers [incoming]. *)
Definition receive_session (incoming : bytes) : Session :=
  @session_start (receiving incoming) None.

Definition round (avail : nat) (time_up : bool) : RxTick :=
  {| rx_avail := avail; rx_more := []; rx_time_up := time_up |}.

(** A receive session that has seen the busy tone, on a line that will
    answer a transmit start. *)
Definition busy_session : Session :=
  on_modem (with_stop_event (Some Busy)) (receive_session transmit_accepted).

Lemma stop_reason_last_writer_wins_witness :
  (exists s', @step ascii_lib StopVoice busy_session = Some s'
              /\ _stop_event (modem s') = Some Stop)
  /\ (exists m', @start_voice ascii_lib (StartTransmit (PyInt 120) 128)
                   (modem busy_session) = (Ret true, m')
                 /\ _stop_event m' = None).
Proof.
  destruct (stop_reason_last_writer_wins (H := ascii_lib) busy_session Busy
              eq_refl) as (_ & _ & Hstart & _ & Hstop & _).
  split; [exact Hstop|].
  destruct (@start_voice ascii_lib (StartTransmit (PyInt 120) 128)
              (modem busy_session)) as [b m'] eqn:Hcall.
  assert (Hb : b = Ret true).
  { apply (f_equal fst) in Hcall. cbn [fst] in Hcall. rewrite <- Hcall.
    by vm_compute. }
  subst b. exists m'. split; [done|].
  by destruct (Hstart _ _ _ Hcall) as [Hnone _].
Defined.

(** C1 as stated fails, in three ways.  The DLE handler sets busy and a
    later [stop_voice] replaces it by stop.  The DLE handler sets busy and
    the clock test of the very same round replaces it by timeout.
    [stop_voice] sets stop while the receive loop waits in its read, and
    the round that then goes on replaces it by timeout. *)
Lemma stop_reason_is_overwritten :
  (exists s1 s2,
     @run ascii_lib [RxTests 0; RxReads 0 (round 2 false)] (receive_session BUSY)
     = Some s1
     /\ _stop_event (modem s1) = Some Busy
     /\ @step ascii_lib StopVoice s1 = Some s2
     /\ _stop_event (modem s2) = Some Stop)
  /\ (_stop_event (re_sub_dsc BUSY (receiving [])).2 = Some Busy
      /\ exists s1,
           @run ascii_lib [RxTests 0; RxReads 0 (round 2 true)]
             (receive_session BUSY)
           = Some s1
           /\ _stop_event (modem s1) = Some Timeout)
  /\ (exists s1 s2,
        @run ascii_lib [RxTests 0; StopVoice] (receive_session [128; 128])
        = Some s1
        /\ _stop_event (modem s1) = Some Stop
        /\ @step ascii_lib (RxReads 0 (round 2 true)) s1 = Some s2
        /\ _stop_event (modem s2) = Some Timeout).
Proof.
  split; [|split].
  - eexists _, _. by vm_compute.
  - split; [done|]. eexists. by vm_compute.
  - eexists _, _. by vm_compute.
Qed.

(** ** The supervisor of the event loop *)

Lemma length_spawned_done (task : nat) (m : Modem) :
  spawned (task_done_callback task m) = spawned m.
Proof. done. Qed.

(** C8.  When the event loop task has ended with an exception that is not
    a cancellation, its completion callbacks leave a fresh event loop task
    in place: a task that did not exist before, live, and the one the modem
    now holds as its event loop.  When the task has returned or was
    cancelled, no task is created and the modem keeps the reference it had.
    A cancellation that reaches the loop while it waits for an event makes
    it return, so it is such an end. *)
Theorem event_loop_restarts_only_on_failure (task : nat) (m : Modem)
    (Htask : (task < length (spawned m))%nat) :
  (forall e, e <> CancelledError ->
     exists fresh,
       _event_loop (event_loop_ended task (Raise e) m) = Some fresh
       /\ fresh <> task
       /\ fresh = length (spawned m)
       /\ spawned (event_loop_ended task (Raise e) m)
          = spawned m ++ [coro_event_loop]
       /\ fresh ∈ _background_tasks (event_loop_ended task (Raise e) m)
       /\ task ∉ _background_tasks (event_loop_ended task (Raise e) m))
  /\ (forall ended, ended = Ret tt \/ ended = Raise CancelledError ->
        event_loop_ended task ended m = task_done_callback task m
        /\ spawned (event_loop_ended task ended m) = spawned m
        /\ _event_loop (event_loop_ended task ended m) = _event_loop m)
  /\ (forall codes ring_callback call_callback mesg_callback script,
        (event_loop codes ring_callback call_callback mesg_callback
                    (CancelAtRead :: script) m).1 = Ret tt).
Proof.
  split; [|split].
  - intros e He. exists (length (spawned m)).
    assert (Hexc : task_exception (Raise e) = Some e) by by destruct e.
    unfold event_loop_ended, done_callback. rewrite Hexc.
    unfold start_event_loop. simpl.
    repeat split; [lia|set_solver|set_solver by lia].
  - intros ended [-> | ->]; done.
  - intros codes ring_callback call_callback mesg_callback script. simpl.
    by destruct (_running m).
Qed.

(** A hook that fails. *)
Definition failing_hook {A} (e : exn) (_ : A) : M unit := raise e.
Definition quiet_hook {A} (_ : A) : M unit := ret tt.

Definition waiting (incoming : bytes) : Modem :=
  start_event_loop (with_running true (new_Modem incoming)).

(** A table with the labels of two codes. *)
Definition two_codes : gmap (list N) (list N) :=
  {[ lit "R" := lit "Ring"; lit "b" := lit "Busy" ]}.

Lemma event_loop_restarts_only_on_failure_witness :
  (event_loop two_codes (failing_hook AttributeError) quiet_hook quiet_hook
              [Arrives 6 [] 1 1] (waiting (lit "RING" ++ [CR; LF]))).1
  = Raise AttributeError
  /\ exists fresh,
       _event_loop (event_loop_ended 0 (Raise AttributeError)
                      (waiting (lit "RING" ++ [CR; LF]))) = Some fresh
       /\ fresh <> 0%nat.
Proof.
  split; [by vm_compute|].
  destruct (event_loop_restarts_only_on_failure 0 (waiting (lit "RING" ++ [CR; LF]))
              (le_n 1)) as [Hfail _].
  destruct (Hfail AttributeError) as (fresh & Hloop & Hne & _); [discriminate|].
  by exists fresh.
Defined.

(** ** Durations *)

(** C9.  [wav_duration] is the number of frames divided by the frame rate,
    as a float: 8000 frames at 8000 Hz last exactly 1.0 second.  [silence]
    gives [framerate] bytes for each second: for whole seconds as many bytes
    as the product, 8000 bytes for one second at the default rate, and all
    of them are the sample 0x80. *)
Theorem wav_duration_and_silence :
  wav_duration (Opened 1 1 8000 8000) = Ret (Some 1%float)
  /\ (forall nchannels sampwidth framerate nframes,
        wav_duration (Opened nchannels sampwidth framerate nframes)
        = if (framerate =? 0)%Z then Raise ZeroDivisionError
          else rbind (float_of_int nframes) (fun n =>
               rbind (float_of_int framerate) (fun r => Ret (Some (n / r)%float))))
  /\ (forall seconds framerate,
        silence (PyInt seconds) (PyInt framerate)
        = Ret (List.repeat 128 (Z.to_nat (seconds * framerate))))
  /\ (forall framerate bs,
        (0 <= framerate)%Z ->
        silence (PyInt 1) (PyInt framerate) = Ret bs ->
        Z.of_nat (length bs) = framerate)
  /\ silence_default = Ret (List.repeat 128 8000)
  /\ (exists bs, silence secs_0_5 (PyInt 8000) = Ret bs /\ length bs = 4000%nat).
Proof.
  split; [by vm_compute|]. split.
  { intros nchannels sampwidth framerate nframes. unfold wav_duration, int_truediv.
    destruct (framerate =? 0)%Z; [done|]. simpl.
    destruct (float_of_int nframes); [|done|done]. simpl.
    by destruct (float_of_int framerate). }
  split; [done|]. split.
  { intros framerate bs Hpos [= <-]. rewrite repeat_length. lia. }
  split; [done|].
  eexists. split; [by vm_compute|]. by vm_compute.
Qed.


(** * Further properties of the code *)

(** ** Enumerations by value *)

Lemma find_by_value {A} (value : A -> list N) (members : list A) (s : list N) (a : A) :
  List.find (fun x => bool_decide (value x = s)) members = Some a -> value a = s.
Proof.
  intros Hfind. apply find_some in Hfind as [_ Hval].
  by apply bool_decide_eq_true in Hval.
Qed.

(** X1. Looking a member up by its value and taking the value of a member
    are inverse to each other, for [ResultCode], [Mode] and [DTMF]: every
    member is found from its own value, and what a string finds has that
    string as its value.  In particular no two members share a value. *)
Theorem enum_lookup_inverts_value :
  (forall rc, ResultCode_of (ResultCode_value rc) = Some rc)
  /\ (forall s rc, ResultCode_of s = Some rc -> ResultCode_value rc = s)
  /\ (forall mode, Mode_of (Mode_value mode) = Some mode)
  /\ (forall s mode, Mode_of s = Some mode -> Mode_value mode = s)
  /\ (forall d, DTMF_of (DTMF_value d) = Some d)
  /\ (forall s d, DTMF_of s = Some d -> DTMF_value d = s).
Proof.
  split; [by intros []|]. split; [intros s rc; apply find_by_value|].
  split; [by intros []|]. split; [intros s mode; apply find_by_value|].
  split; [by intros []|]. intros s d; apply find_by_value.
Qed.

(** ** Command lines *)

Lemma startswith_app_l (pre l tail : list N) :
  Py.startswith pre l = true -> Py.startswith pre (l ++ tail) = true.
Proof.
  intros Hs. apply startswith_inv in Hs as [post ->].
  rewrite <- app_assoc. apply startswith_app.
Qed.

Lemma endswith_app (l suf : list N) : Py.endswith suf (l ++ suf) = true.
Proof. unfold Py.endswith. rewrite rev_app_distr. apply startswith_app. Qed.

Lemma endswith_inv (suf l : list N) :
  Py.endswith suf l = true -> exists front, l = front ++ suf.
Proof.
  unfold Py.endswith. intros Hs. apply startswith_inv in Hs as [post Hrev].
  exists (rev post). apply (f_equal (@rev N)) in Hrev.
  by rewrite rev_involutive, rev_app_distr, rev_involutive in Hrev.
Qed.

Section CommandLines.

Context `{PyLib}.

Lemma commandify_shape (m : Modem) (cmd : str) :
  Py.startswith CLPREFIX (_commandify m cmd) = true
  /\ Py.endswith (_s3 m) (_commandify m cmd) = true
  /\ exists pre suf,
       _commandify m cmd = pre ++ str_upper cmd ++ suf
       /\ (pre = [] /\ Py.startswith CLPREFIX (str_upper cmd) = true
           \/ pre = CLPREFIX /\ Py.startswith CLPREFIX (str_upper cmd) = false)
       /\ (suf = [] /\ Py.endswith (_s3 m) (pre ++ str_upper cmd) = true
           \/ suf = _s3 m /\ Py.endswith (_s3 m) (pre ++ str_upper cmd) = false).
Proof.
  unfold _commandify.
  destruct (Py.startswith CLPREFIX (str_upper cmd)) eqn:Hpre.
  - destruct (Py.endswith (_s3 m) (str_upper cmd)) eqn:Hsuf.
    + split; [done|]. split; [done|]. exists [], []. rewrite app_nil_r. auto.
    + split; [by apply startswith_app_l|]. split; [apply endswith_app|].
      exists [], (_s3 m). auto.
  - destruct (Py.endswith (_s3 m) (CLPREFIX ++ str_upper cmd)) eqn:Hsuf.
    + split; [apply startswith_app|]. split; [done|].
      exists CLPREFIX, []. rewrite app_nil_r. auto.
    + split; [apply startswith_app_l, startswith_app|].
      split; [apply endswith_app|].
      exists CLPREFIX, (_s3 m). rewrite <- app_assoc. auto.
Qed.

(** X2. Whatever the fragment, the line [_commandify] makes of it begins
    with the prefix AT and ends with the S3 terminator, and it is the
    upper-cased fragment with nothing but these two added, each exactly
    where it was missing: the prefix when the upper-cased fragment does not
    begin with it, the terminator when the line, prefix included, does not
    end with it. *)
Theorem commandify_adds_prefix_and_terminator (m : Modem) (cmd : str) :
  Py.startswith CLPREFIX (_commandify m cmd) = true
  /\ Py.endswith (_s3 m) (_commandify m cmd) = true
  /\ exists pre suf,
       _commandify m cmd = pre ++ str_upper cmd ++ suf
       /\ (pre = [] /\ Py.startswith CLPREFIX (str_upper cmd) = true
           \/ pre = CLPREFIX /\ Py.startswith CLPREFIX (str_upper cmd) = false)
       /\ (suf = [] /\ Py.endswith (_s3 m) (pre ++ str_upper cmd) = true
           \/ suf = _s3 m /\ Py.endswith (_s3 m) (pre ++ str_upper cmd) = false).
Proof. apply commandify_shape. Qed.

End CommandLines.

Lemma ascii_upper_app (s t : str) :
  ascii_upper (s ++ t) = ascii_upper s ++ ascii_upper t.
Proof. apply map_app. Qed.

Lemma ascii_upper_idem (s : str) : ascii_upper (ascii_upper s) = ascii_upper s.
Proof.
  unfold ascii_upper. rewrite map_map. apply map_ext. intros c.
  destruct ((97 <=? c) && (c <=? 122)) eqn:Hlow; [|by rewrite Hlow].
  apply andb_true_iff in Hlow as [Hlo Hhi].
  apply N.leb_le in Hlo, Hhi.
  assert (Hout : (97 <=? c - 32) && (c - 32 <=? 122) = false).
  { apply andb_false_iff. left. apply N.leb_gt. lia. }
  by rewrite Hout.
Qed.

(** X3. With ASCII upper-casing and a terminator that upper-casing leaves
    alone (as CR is), [_commandify] is idempotent: a line that already went
    through it comes out unchanged. *)
Theorem commandify_idempotent (m : Modem) (cmd : str)
    (Hs3 : ascii_upper (_s3 m) = _s3 m) :
  @_commandify ascii_lib m (@_commandify ascii_lib m cmd)
  = @_commandify ascii_lib m cmd.
Proof.
  destruct (commandify_shape (H := ascii_lib) m cmd)
    as (Hpre & Hsuf & pre & suf & Heq & Hp & Hs).
  assert (Hup : ascii_upper (@_commandify ascii_lib m cmd)
                = @_commandify ascii_lib m cmd).
  { rewrite Heq. cbn [str_upper ascii_lib]. rewrite !ascii_upper_app, ascii_upper_idem.
    destruct Hp as [[-> _]|[-> _]], Hs as [[-> _]|[-> _]]; by rewrite ?Hs3. }
  unfold _commandify at 1. cbn [str_upper ascii_lib]. by rewrite Hup, Hpre, Hsuf.
Qed.

Lemma commandify_idempotent_witness :
  @_commandify ascii_lib (new_Modem [])
    (@_commandify ascii_lib (new_Modem []) (lit "+vgr=128"))
  = lit "AT+VGR=128" ++ [CR].
Proof.
  rewrite (commandify_idempotent (new_Modem []) (lit "+vgr=128") eq_refl).
  reflexivity.
Defined.

(** ** Reading up to a result *)

(** X4. [read_until_result] takes from the line exactly the shortest run of
    bytes that holds a result code followed by the trailer: what it returns
    and what it leaves make up what was pending, the returned bytes hold
    such a result, and no shorter beginning of them does.  It waits for
    ever only when no beginning of the pending input holds a result. *)
Theorem read_until_result_is_exact (m m' : Modem) (r : result bytes)
    (Hread : read_until_result m = (r, m')) :
  m' = with_reader (reader m') m
  /\ match r with
     | Ret data =>
         reader m = data ++ reader m'
         /\ (exists code needle,
               Py.encode (ResultCode_value code ++ _trailer m) = Some needle
               /\ Py.contains needle data = true)
         /\ (forall k code needle,
               (k < length data)%nat ->
               Py.encode (ResultCode_value code ++ _trailer m) = Some needle ->
               Py.contains needle (take k data) = false)
     | Blocked =>
         reader m' = []
         /\ (forall k code needle,
               Py.encode (ResultCode_value code ++ _trailer m) = Some needle ->
               Py.contains needle (take k (reader m)) = false)
     | Raise e => e = UnicodeEncodeError
     end.
Proof.
  unfold read_until_result in Hread.
  destruct (read_until_result_from (_trailer m) [] (reader m)) as [r0 rx] eqn:Hrun.
  injection Hread as <- <-. split; [done|]. cbn [reader with_reader].
  destruct r0 as [data|e|].
  - destruct (read_until_result_from_exact _ _ _ _ _ Hrun)
      as (used & -> & Hrx & Hyes & Hno). cbn [app] in *.
    split; [done|]. split.
    + destruct (result_seen_true _ _ _ Hyes) as (code & needle & _ & He & Hc).
      by exists code, needle.
    + intros k code needle Hk He.
      eapply result_seen_false; [exact (Hno k Hk)|apply ResultCode_members_all|done].
  - clear -Hrun. revert Hrun. generalize (@nil N). generalize (reader m).
    intros rx0. induction rx0 as [|b rx0 IH]; intros data;
      rewrite read_until_result_from_eq;
      destruct (result_seen ResultCode_members (_trailer m) data) as [[|]| |] eqn:Hseen;
      try done; try (by apply IH).
    + intros [= <- _]. clear -Hseen. revert Hseen.
      induction ResultCode_members as [|c cs IHc]; simpl; [done|].
      destruct (Py.encode _); [|by intros [= <-]].
      destruct (Py.contains _ _); [done|]. apply IHc.
    + intros [= <- _]. clear -Hseen. revert Hseen.
      induction ResultCode_members as [|c cs IHc]; simpl; [done|].
      destruct (Py.encode _); [|by intros [= <-]].
      destruct (Py.contains _ _); [done|]. apply IHc.
  - destruct (read_until_result_from_blocked _ _ _ _ Hrun) as (-> & Hno).
    split; [done|]. intros k code needle He.
    destruct (decide (k <= length (reader m))%nat) as [Hk|Hk].
    + eapply result_seen_false; [exact (Hno k Hk)|apply ResultCode_members_all|done].
    + rewrite take_ge by lia.
      pose proof (Hno (length (reader m)) (le_n _)) as Hall.
      rewrite take_ge in Hall by lia.
      eapply result_seen_false; [exact Hall|apply ResultCode_members_all|done].
Qed.

Lemma read_until_result_is_exact_witness :
  exists m',
    read_until_result (new_Modem (lit "RING" ++ [CR; LF] ++ lit "OK" ++ [CR; LF]))
    = (Ret (lit "RING" ++ [CR; LF]), m')
    /\ reader m' = lit "OK" ++ [CR; LF].
Proof.
  destruct (read_until_result
              (new_Modem (lit "RING" ++ [CR; LF] ++ lit "OK" ++ [CR; LF])))
    as [r m'] eqn:Hread.
  destruct (read_until_result_is_exact _ _ _ Hread) as [_ Hr].
  vm_compute in Hread. injection Hread as <- <-.
  destruct Hr as (Hsplit & _). eexists. split; reflexivity.
Defined.

(** ** The footprint of [send] *)

(** Reading takes bytes from the front of the pending input and touches
    nothing else. *)
Definition consumes (m m' : Modem) : Prop :=
  exists used, reader m = used ++ reader m' /\ m' = with_reader (reader m') m.

Lemma consumes_refl (m : Modem) : consumes m m.
Proof. exists []. split; [done|]. by destruct m. Qed.

Lemma consumes_trans (m1 m2 m3 : Modem) :
  consumes m1 m2 -> consumes m2 m3 -> consumes m1 m3.
Proof.
  intros (u1 & H1 & E1) (u2 & H2 & E2). exists (u1 ++ u2). split.
  - by rewrite H1, H2, app_assoc.
  - rewrite E2, E1. by destruct m1.
Qed.

Lemma read_until_result_from_rest (trailer : str) (rx data : bytes)
    (r : result bytes) (rx' : bytes) :
  read_until_result_from trailer data rx = (r, rx') ->
  exists used, rx = used ++ rx'.
Proof.
  revert data. induction rx as [|b rx IH]; intros data;
    rewrite read_until_result_from_eq;
    destruct (result_seen ResultCode_members trailer data) as [[|]| |];
    try (intros [= _ <-]; by exists []).
  intros Hrec. destruct (IH _ Hrec) as [used ->]. by exists (b :: used).
Qed.

Lemma consumes_read_until_result : keeps consumes read_until_result.
Proof.
  intros m. unfold read_until_result.
  destruct (read_until_result_from (_trailer m) [] (reader m)) as [r rx] eqn:Hrun.
  destruct (read_until_result_from_rest _ _ _ _ _ Hrun) as [used Hused].
  exists used. by destruct m.
Qed.

Section Footprint.

Context `{PyLib}.

Ltac consumes_bind := apply (keeps_bind consumes consumes_trans).

Lemma consumes_await_echo (fuel : nat) (cmd : str) :
  keeps consumes (await_echo fuel cmd).
Proof.
  induction fuel as [|fuel IH]; simpl;
    (consumes_bind; [apply consumes_read_until_result|]); intros data;
    destruct (Py.encode cmd); try (intros m; apply consumes_refl);
    destruct (Py.contains _ _); try (intros m; apply consumes_refl).
  apply IH.
Qed.

Lemma consumes_receive_response (cmd : str) :
  keeps consumes (receive_response cmd).
Proof.
  intros m. unfold receive_response.
  apply (keeps_bind consumes consumes_trans (await_echo (length (reader m)) cmd)).
  - apply consumes_await_echo.
  - intros data. destruct (Py.encode cmd); [|intros m'; apply consumes_refl].
    destruct (Py.partition _ _) as [[extra echo] response].
    intros m'. apply consumes_refl.
Qed.

Lemma consumes_send_each (cmds : list str) (acc : list CommandResponse.t) :
  keeps consumes (send_each cmds acc).
Proof.
  revert acc. induction cmds as [|cmd cmds IH]; intros acc; simpl.
  - intros m. apply consumes_refl.
  - consumes_bind; [apply consumes_receive_response|]. intros res. apply IH.
Qed.

(** X5. However a [send] ends (a response, an exception, or a wait without
    end), its footprint on the modem is the same: the command lines, joined
    by [;], were written in one piece and before anything else; bytes were
    taken from the front of the pending input; nothing else of the modem
    changed.  Lines that cannot be encoded are not written at all and the
    call raises with the modem untouched. *)
Theorem send_footprint (commands : Commands) (m : Modem) :
  match Py.encode (Py.join (lit ";")
          (List.map (_commandify m)
             match commands with One cmd => [cmd] | Many cmds => cmds end)) with
  | None => send commands m = (Raise UnicodeEncodeError, m)
  | Some line =>
      exists used,
        reader m = used ++ reader (send commands m).2
        /\ (send commands m).2
           = with_reader (reader (send commands m).2)
               (with_writer (writer m ++ [line]) m)
  end.
Proof.
  rewrite send_eq.
  set (issued := List.map (_commandify m) _).
  unfold bind at 1. unfold write_str.
  destruct (Py.encode (Py.join (lit ";") issued)) as [line|]; [|done].
  cbn [write]. set (m1 := with_writer (writer m ++ [line]) m).
  assert (Hframe : keeps consumes
            (responses <~ send_each issued [] ;;
             match responses with
             | [] => raise IndexError
             | [res] => ret (Single res)
             | _ => ret (Several responses)
             end)).
  { consumes_bind; [apply consumes_send_each|].
    intros [|res [|res' rs]] m'; apply consumes_refl. }
  destruct (Hframe m1) as (used & Hused & Hm). exists used. split; [|done].
  by rewrite <- Hused.
Qed.

(** X6. A result that arrives before the echo of the command is dropped:
    when the next result on the line does not hold the echo, the exchange
    for the command goes on from the input after that result exactly as if
    it had begun there. *)
Theorem unsolicited_result_is_skipped (cmd : str) (echo data : bytes)
    (m m1 : Modem)
    (Hread : read_until_result m = (Ret data, m1))
    (Hecho : Py.encode cmd = Some echo)
    (Hother : Py.contains echo (Py.strip (Py.one_of (lit ";")) data) = false) :
  receive_response cmd m = receive_response cmd m1.
Proof.
  unfold receive_response, bind.
  pose proof (read_until_result_consumes _ _ _ Hread) as Hless.
  rewrite (await_echo_eq (length (reader m)) cmd m), Hread, Hecho, Hother.
  destruct (length (reader m)) as [|fuel] eqn:Hlen; [lia|].
  rewrite (await_echo_fuel cmd fuel (length (reader m1)) m1) by lia.
  done.
Qed.

End Footprint.

(** A ring comes in while the modem is asked for its mode. *)
Definition ring_then_mode : bytes :=
  lit "RING" ++ [CR; LF]
  ++ lit "AT+FCLASS?" ++ [CR; CR; LF] ++ lit "8" ++ [CR; LF]
  ++ lit "OK" ++ [CR; LF].

Lemma unsolicited_result_is_skipped_witness :
  exists res m',
    receive_response (lit "AT+FCLASS?" ++ [CR]) (new_Modem ring_then_mode)
    = (Ret res, m')
    /\ CommandResponse._data res = Some (lit "8")
    /\ reader m' = [].
Proof.
  eassert (Hread : read_until_result (new_Modem ring_then_mode) = (Ret _, _))
    by (vm_compute; reflexivity).
  rewrite (unsolicited_result_is_skipped (lit "AT+FCLASS?" ++ [CR])
             _ _ _ _ Hread eq_refl eq_refl).
  eexists _, _. vm_compute. repeat split.
Defined.

(** ** More on the DLE filter *)

(** The shielding on the modem's side of the line, which the comment in
    [_catch_dsc] quotes from section 5.1.3: a DLE in the audio is sent as
    DLE DLE. *)
Fixpoint dle_shield (audio : bytes) : bytes :=
  match audio with
  | [] => []
  | b :: rest =>
      if b =? DLE then DLE :: DLE :: dle_shield rest else b :: dle_shield rest
  end.

Lemma catch_dsc_DLE (m : Modem) : _catch_dsc DLE m = (Ret [DLE], m).
Proof. reflexivity. Qed.

Lemma dle_shield_head (audio : bytes) :
  match dle_shield audio with
  | [] => audio = []
  | b :: _ => exists rest, audio = b :: rest
  end.
Proof.
  destruct audio as [|b rest]; simpl; [done|].
  destruct (b =? DLE) eqn:Hb; [|by exists rest].
  apply N.eqb_eq in Hb as ->. by exists rest.
Qed.

(** X7. The filter undoes the shielding: audio in which every DLE was
    doubled comes out of [re.sub] as it was before the doubling, whatever
    its bytes, and the modem is left untouched (no handler has anything to
    do).  Audio without any DLE therefore passes unchanged. *)
Theorem filter_undoes_shielding (audio : bytes) (m : Modem) :
  re_sub_dsc (dle_shield audio) m = (Ret audio, m)
  /\ (Forall (fun b => b <> DLE) audio -> re_sub_dsc audio m = (Ret audio, m)).
Proof.
  assert (Hround : forall a, re_sub_dsc (dle_shield a) m = (Ret a, m)).
  { intros a. induction a as [|b rest IH]; [done|].
    cbn [dle_shield]. destruct (b =? DLE) eqn:Hb.
    - apply N.eqb_eq in Hb as ->. rewrite re_sub_dsc_eq.
      change ((DLE =? DLE) && negb (DLE =? LF)) with true. cbv iota.
      unfold bind. rewrite catch_dsc_DLE, IH. done.
    - pose proof (dle_shield_head rest) as Hhead.
      destruct (dle_shield rest) as [|c tail] eqn:Hrest.
      + by rewrite Hhead.
      + rewrite re_sub_dsc_eq, Hb. cbn [andb]. unfold bind. by rewrite IH. }
  split; [apply Hround|].
  intros Hfree.
  assert (Hid : dle_shield audio = audio).
  { induction Hfree as [|b rest Hb _ IH]; [done|].
    cbn [dle_shield]. apply N.eqb_neq in Hb. by rewrite Hb, IH. }
  rewrite <- Hid at 1. apply Hround.
Qed.

Lemma decode_high_byte (code : N) : 128 <= code -> Py.decode [code] = None.
Proof.
  intros Hhigh. unfold Py.decode.
  assert (Hlt : (code <? 128) = false) by (apply N.ltb_ge; lia).
  rewrite Hlt.
  destruct (Py.between 194 223 code); [done|].
  destruct (Py.between 224 239 code); [done|].
  by destruct (Py.between 240 244 code).
Qed.

(** X8. A shielded code whose byte is 0x80 or above cannot be decoded for
    the log line: the filter raises [UnicodeDecodeError] at that pair,
    before any handler runs, and the receive round it belongs to dies with
    it. *)
Theorem shielded_high_byte_raises (code : N) (rest : bytes) (m : Modem)
    (Hhigh : 128 <= code) :
  re_sub_dsc (DLE :: code :: rest) m = (Raise UnicodeDecodeError, m).
Proof.
  rewrite re_sub_dsc_eq.
  assert (Hlf : (code =? LF) = false) by (apply N.eqb_neq; unfold LF; lia).
  rewrite N.eqb_refl, Hlf. cbn [andb negb]. unfold bind, _catch_dsc.
  by rewrite (decode_high_byte code Hhigh).
Qed.

Lemma shielded_high_byte_raises_witness :
  re_sub_dsc [DLE; 255; 128] (receiving []) = (Raise UnicodeDecodeError, receiving []).
Proof. apply shielded_high_byte_raises. unfold N.le. discriminate. Defined.

(** What the filter may change in the modem: the stop reason, the last
    DTMF code and the tasks. *)
Definition handler_frame (m m' : Modem) : Prop :=
  exists stop last live tasks,
    m' = with_background_tasks live (with_spawned tasks
           (with_last_dtmf last (with_stop_event stop m)))
    /\ (stop = _stop_event m \/ stop = Some Busy).

Lemma handler_frame_refl (m : Modem) : handler_frame m m.
Proof.
  exists (_stop_event m), (_last_dtmf m), (_background_tasks m), (spawned m).
  split; [by destruct m|by left].
Qed.

Lemma handler_frame_trans (m1 m2 m3 : Modem) :
  handler_frame m1 m2 -> handler_frame m2 m3 -> handler_frame m1 m3.
Proof.
  intros (s1 & l1 & b1 & t1 & -> & H1) (s2 & l2 & b2 & t2 & -> & H2).
  exists s2, l2, b2, t2. split; [done|].
  destruct H2 as [-> | ->]; [|by right]. exact H1.
Qed.

Lemma handler_frame_last (last : LastDtmf) (m : Modem) :
  handler_frame m (with_last_dtmf last m).
Proof.
  exists (_stop_event m), last, (_background_tasks m), (spawned m).
  split; [by destruct m|by left].
Qed.

Lemma handler_frame_spawn (last : LastDtmf) (coro : Coro) (m : Modem) :
  handler_frame m (with_last_dtmf last (create_background_task coro m).2).
Proof.
  exists (_stop_event m), last, ({[length (spawned m)]} ∪ _background_tasks m),
    (spawned m ++ [coro]).
  split; [by destruct m|by left].
Qed.

Lemma handler_frame_catch_dtmf (code : str) :
  keeps handler_frame (_catch_dtmf code).
Proof.
  intros m. unfold _catch_dtmf, call_hook.
  case_bool_decide; [apply handler_frame_last|].
  destruct (bool_decide (code = lit "~")), (_last_dtmf m) as [| |d],
    (DTMF_of code) as [d'|];
    try destruct (hook_params (dtmf_callback m) =? 1)%nat;
    first [apply handler_frame_last | apply handler_frame_spawn
          | apply handler_frame_refl].
Qed.

Lemma handler_frame_catch_dsc (code : N) : keeps handler_frame (_catch_dsc code).
Proof.
  intros m. unfold _catch_dsc. destruct (Py.decode [code]);
    [|apply handler_frame_refl].
  case_bool_decide.
  - exists (Some Busy), (_last_dtmf m), (_background_tasks m), (spawned m).
    split; [by destruct m|by right].
  - destruct (code =? DLE); [apply handler_frame_refl|].
    apply (keeps_bind handler_frame handler_frame_trans);
      [apply handler_frame_catch_dtmf|].
    intros _ m'. apply handler_frame_refl.
Qed.

Lemma handler_frame_re_sub_dsc (data : bytes) :
  keeps handler_frame (re_sub_dsc data).
Proof.
  remember (length data) as n eqn:Hn. revert data Hn.
  induction (lt_wf n) as [n _ IH]. intros d Hn.
  destruct d as [|b [|code rest]]; try (intros m0; apply handler_frame_refl).
  rewrite re_sub_dsc_eq. destruct ((b =? DLE) && negb (code =? LF)).
  - apply (keeps_bind handler_frame handler_frame_trans);
      [apply handler_frame_catch_dsc|]. intros repl.
    apply (keeps_bind handler_frame handler_frame_trans);
      [|intros out m0; apply handler_frame_refl].
    apply (IH (length rest)); [simpl in Hn; lia|done].
  - apply (keeps_bind handler_frame handler_frame_trans);
      [|intros out m0; apply handler_frame_refl].
    apply (IH (length (code :: rest))); [simpl in *; lia|done].
Qed.

(** X9. Whatever bytes go through the filter and however it ends, the only
    stop reason it ever writes is busy: afterwards the stop reason is what
    it was or it is busy.  Besides the stop reason the filter changes only
    the last DTMF code and the tasks; state, mode and transport are as they
    were. *)
Theorem filter_writes_only_busy (data : bytes) (m : Modem) :
  handler_frame m (re_sub_dsc data m).2
  /\ (_stop_event (re_sub_dsc data m).2 = _stop_event m
      \/ _stop_event (re_sub_dsc data m).2 = Some Busy)
  /\ _state (re_sub_dsc data m).2 = _state m
  /\ _mode (re_sub_dsc data m).2 = _mode m
  /\ reader (re_sub_dsc data m).2 = reader m
  /\ writer (re_sub_dsc data m).2 = writer m.
Proof.
  pose proof (handler_frame_re_sub_dsc data m) as Hframe. split; [done|].
  destruct Hframe as (stop & last & live & tasks & -> & Hstop).
  cbn. repeat split. exact Hstop.
Qed.

(** ** DTMF tones *)

(** [Callblock.start] hands the modem its own hooks with
    [set_dtmf_callback] and [set_silence_callback]: the bound methods
    [dtmf_callback(self, dtmf, call)] and [silence_callback(self, call)],
    which take one argument more than the modem gives them. *)
Definition Callblock_dtmf_callback : Hook := {| hook_params := 2 |}.
Definition Callblock_silence_callback : Hook := {| hook_params := 1 |}.

Definition Callblock_hooks (m : Modem) : Modem :=
  set_silence_callback Callblock_silence_callback
    (set_dtmf_callback Callblock_dtmf_callback m).

Lemma catch_dtmf_shield (m : Modem) :
  _catch_dtmf (lit "/") m = (Ret tt, with_last_dtmf Shield m).
Proof. reflexivity. Qed.

Lemma catch_dtmf_tone (d : DTMF) (m : Modem) :
  _last_dtmf m = Shield ->
  _catch_dtmf (DTMF_value d) m = (Ret tt, with_last_dtmf (Tone d) m).
Proof.
  intros Hlast. unfold _catch_dtmf. rewrite Hlast.
  assert (Hof : DTMF_of (DTMF_value d) = Some d) by by destruct d.
  rewrite Hof. by destruct d.
Qed.

Lemma catch_dtmf_end (d : DTMF) (m : Modem) :
  _last_dtmf m = Tone d ->
  _catch_dtmf (lit "~") m
  = if (hook_params (dtmf_callback m) =? 1)%nat then
      (Ret tt,
       with_last_dtmf NoDtmf (create_background_task (coro_dtmf_callback d) m).2)
    else (Raise TypeError, m).
Proof.
  intros Hlast. unfold _catch_dtmf, call_hook. rewrite Hlast.
  rewrite bool_decide_eq_false_2 by done. rewrite bool_decide_eq_true_2 by done.
  by destruct (hook_params (dtmf_callback m) =? 1)%nat.
Qed.

(** X10. A tone is reported once its shielding is complete and only then.
    The codes [/] and a DTMF value, in this order and from any state, leave
    the tone remembered and create no task.  The code [~] then calls the
    hook with the tone: with a hook of one parameter, as the modem's own,
    exactly one task is created, the [dtmf_callback] for that tone, and no
    code is remembered any more; with a hook of another number of
    parameters, as the one [Callblock.start] installs, the call raises
    [TypeError], no task is created and the tone stays remembered.  No other
    run of [_catch_dtmf] creates a task, and any code that is neither [/]
    nor a DTMF value leaves no code remembered unless it is this failing
    [~]. *)
Theorem dtmf_reported_after_shielding (d : DTMF) (m : Modem) :
  (exists m2,
     (_catch_dtmf (lit "/") ;;; _catch_dtmf (DTMF_value d)) m = (Ret tt, m2)
     /\ m2 = with_last_dtmf (Tone d) (with_last_dtmf Shield m)
     /\ (hook_params (dtmf_callback m) = 1%nat ->
         exists m3,
           _catch_dtmf (lit "~") m2 = (Ret tt, m3)
           /\ spawned m3 = spawned m ++ [coro_dtmf_callback d]
           /\ _last_dtmf m3 = NoDtmf)
     /\ (hook_params (dtmf_callback m) <> 1%nat ->
         _catch_dtmf (lit "~") m2 = (Raise TypeError, m2)
         /\ spawned m2 = spawned m /\ _last_dtmf m2 = Tone d))
  /\ (forall m0, _last_dtmf m0 = Tone d ->
        _catch_dtmf (lit "~") (Callblock_hooks m0)
        = (Raise TypeError, Callblock_hooks m0))
  /\ (forall code m0,
        spawned (_catch_dtmf code m0).2 = spawned m0
        \/ code = lit "~"
           /\ hook_params (dtmf_callback m0) = 1%nat
           /\ exists tone, _last_dtmf m0 = Tone tone
                /\ spawned (_catch_dtmf code m0).2
                   = spawned m0 ++ [coro_dtmf_callback tone])
  /\ (forall code m0,
        code <> lit "/" -> (forall tone, code <> DTMF_value tone) ->
        _last_dtmf (_catch_dtmf code m0).2 = NoDtmf
        \/ code = lit "~"
           /\ hook_params (dtmf_callback m0) <> 1%nat
           /\ (exists tone, _last_dtmf m0 = Tone tone)
           /\ _catch_dtmf code m0 = (Raise TypeError, m0)).
Proof.
  split; [|split; [|split]].
  - exists (with_last_dtmf (Tone d) (with_last_dtmf Shield m)).
    split.
    { unfold bind. rewrite catch_dtmf_shield.
      by rewrite (catch_dtmf_tone d (with_last_dtmf Shield m) eq_refl). }
    split; [done|].
    rewrite (catch_dtmf_end d (with_last_dtmf (Tone d) (with_last_dtmf Shield m))
               eq_refl).
    change (dtmf_callback (with_last_dtmf (Tone d) (with_last_dtmf Shield m)))
      with (dtmf_callback m).
    split.
    + intros ->. cbn [Nat.eqb]. eexists. split; [reflexivity|]. by split.
    + intros Hbad. apply Nat.eqb_neq in Hbad. rewrite Hbad. by split.
  - intros m0 Hlast.
    by rewrite (catch_dtmf_end d (Callblock_hooks m0) Hlast).
  - intros code m0. unfold _catch_dtmf, call_hook.
    case_bool_decide as Hslash; [by left|].
    case_bool_decide as Htilde.
    + destruct (_last_dtmf m0) as [| |tone] eqn:Hlast.
      * left. by destruct (DTMF_of code).
      * left. by destruct (DTMF_of code).
      * destruct (hook_params (dtmf_callback m0) =? 1)%nat eqn:Hhook; [|by left].
        right. split; [done|]. apply Nat.eqb_eq in Hhook. split; [done|].
        by exists tone.
    + left. by destruct (DTMF_of code), (_last_dtmf m0).
  - intros code m0 Hslash Htone. unfold _catch_dtmf, call_hook.
    rewrite bool_decide_eq_false_2 by done.
    destruct (DTMF_of code) as [tone|] eqn:Hof.
    { apply (find_by_value DTMF_value) in Hof. by destruct (Htone tone). }
    case_bool_decide as Htilde; [|left; by destruct (_last_dtmf m0)].
    destruct (_last_dtmf m0) as [| |tone] eqn:Hlast; [by left|by left|].
    destruct (hook_params (dtmf_callback m0) =? 1)%nat eqn:Hhook; [by left|].
    right. apply Nat.eqb_neq in Hhook. split; [done|]. split; [done|].
    split; [by exists tone|done].
Qed.

(** The modem hears the tone 5 in a receive session, with its own hook and
    with the hooks of [Callblock.start]. *)
Definition tone_5 : bytes := [DLE; 47; DLE; 53; DLE; 126].

Lemma dtmf_reported_after_shielding_witness :
  _catch_dtmf (lit "~")
    (Callblock_hooks (with_last_dtmf (Tone DTMF_5) (receiving [])))
  = (Raise TypeError, Callblock_hooks (with_last_dtmf (Tone DTMF_5) (receiving [])))
  /\ (exists m', re_sub_dsc tone_5 (receiving []) = (Ret [], m')
                 /\ spawned m' = [coro_dtmf_callback DTMF_5])
  /\ (exists m', re_sub_dsc tone_5 (Callblock_hooks (receiving []))
                 = (Raise TypeError, m')
                 /\ spawned m' = []
                 /\ _last_dtmf m' = Tone DTMF_5).
Proof.
  destruct (dtmf_reported_after_shielding DTMF_5 (receiving [])) as (_ & Hbad & _).
  split; [by apply Hbad|].
  split; eexists; (split; [by vm_compute|done]).
Defined.

(** ** What an event's fields can hold *)

Definition no_crlf (s : str) : Prop := Forall (fun c => Py.is_crlf c = false) s.

Lemma re_split_crlf_aux_pieces (in_sep : bool) (cur s : str) :
  no_crlf cur -> Forall no_crlf (Py.re_split_crlf_aux in_sep cur s).
Proof.
  revert in_sep cur. induction s as [|c s IH]; intros in_sep cur Hcur; simpl.
  - constructor; [|done]. by apply Forall_rev.
  - destruct (Py.is_crlf c) eqn:Hc.
    + destruct in_sep; [by apply IH|].
      constructor; [by apply Forall_rev|]. apply IH. constructor.
    + apply IH. by constructor.
Qed.

Lemma re_split_crlf_aux_nonempty (in_sep : bool) (cur s : str) :
  Py.re_split_crlf_aux in_sep cur s <> [].
Proof.
  revert in_sep cur. induction s as [|c s IH]; intros in_sep cur; simpl; [done|].
  destruct (Py.is_crlf c); [|apply IH]. destruct in_sep; [apply IH|done].
Qed.

Lemma re_split_crlf_pieces (s : str) : Forall no_crlf (Py.re_split_crlf s).
Proof. apply re_split_crlf_aux_pieces. constructor. Qed.

(** [find] returns the first occurrence. *)
Lemma find_is_first (needle l pre post : list N) (i : nat) :
  Py.find needle l = Some i -> l = pre ++ needle ++ post -> (i <= length pre)%nat.
Proof.
  revert i pre. induction l as [|x l IH]; intros i pre; simpl.
  - destruct (Py.startswith needle []); [|done]. intros [= <-] _. lia.
  - destruct (Py.startswith needle (x :: l)) eqn:Hs; [intros [= <-] _; lia|].
    destruct (Py.find needle l) as [j|] eqn:Hj; [|done]. simpl. intros [= <-] Heq.
    destruct pre as [|y pre]; simpl in Heq.
    + rewrite Heq, startswith_app in Hs. done.
    + injection Heq as _ Heq. specialize (IH j pre eq_refl Heq). simpl. lia.
Qed.

Lemma split_two_pieces (part k v : list N) :
  Py.split (lit " = ") part = [k; v] ->
  part = k ++ lit " = " ++ v
  /\ Py.contains (lit " = ") k = false
  /\ Py.contains (lit " = ") v = false.
Proof.
  intros Hsplit. split; [by apply split_two_inv|].
  unfold Py.split in Hsplit.
  destruct (length part) as [|n] eqn:Hlen; simpl in Hsplit; [done|].
  destruct (Py.find (lit " = ") part) as [i|] eqn:Hf; [|done].
  injection Hsplit as <- Hv.
  pose proof (find_Some_cut _ _ _ Hf) as Hcut.
  split.
  - apply not_true_is_false. intros Hin.
    apply contains_iff in Hin as (pre & post & Hk).
    assert (Hle : (i <= length pre)%nat).
    { eapply (find_is_first _ _ pre (post ++ lit " = " ++ drop (i + 3) part)); [exact Hf|].
      rewrite Hcut at 1. rewrite Hk. by rewrite <- !app_assoc. }
    apply (f_equal length) in Hk. rewrite length_take, !length_app in Hk.
    simpl in Hk. lia.
  - pose proof (split_from_single _ _ _ _ Hv) as ->.
    apply (f_equal length) in Hcut. rewrite !length_app, length_take in Hcut.
    change (length (lit " = ")) with 3%nat in *.
    destruct n as [|n]; [lia|]. simpl in Hv.
    unfold Py.contains.
    destruct (Py.find (lit " = ") (drop (i + 3) part)); [|done].
    injection Hv as _ Hnil. by apply split_from_nonempty in Hnil.
Qed.

Lemma fill_fields (P : list N -> list N -> Prop) (parts : list str)
    (d0 d : gmap (list N) (list N)) :
  Event.fill parts d0 = Ret d ->
  (forall part k v, In part parts -> Py.split (lit " = ") part = [k; v] -> P k v) ->
  (forall k v, d0 !! k = Some v -> P k v) ->
  forall k v, d !! k = Some v -> P k v.
Proof.
  revert d0. induction parts as [|part parts IH]; intros d0; simpl.
  - by intros [= <-].
  - destruct (Py.split (lit " = ") part) as [|k0 [|v0 [|w l]]] eqn:Hsplit; try done.
    intros Hfill Hparts Hd0. eapply IH; [exact Hfill| |].
    + intros part' k v Hin. apply Hparts. by right.
    + intros k v. destruct (decide (k0 = k)) as [<-|Hne].
      * rewrite lookup_insert_eq. intros [= <-]. apply (Hparts part); auto.
      * rewrite lookup_insert_ne by done. apply Hd0.
Qed.

Lemma fill_nonempty (parts : list str) (d0 d : gmap (list N) (list N)) :
  Event.fill parts d0 = Ret d -> (parts <> [] \/ d0 <> ∅) -> d <> ∅.
Proof.
  revert d0. induction parts as [|part parts IH]; intros d0; simpl.
  - intros [= <-] [Hp|Hd]; done.
  - destruct (Py.split (lit " = ") part) as [|k0 [|v0 [|w l]]]; try done.
    intros Hfill _. eapply IH; [exact Hfill|]. right. apply insert_non_empty.
Qed.

(** X11. In an event that [Event.from_bytes] returns with a field map, the
    map is not empty, and no key and no value holds a carriage return, a
    line feed or the separator [" = "]: a field is one line cut at its one
    separator. *)
Theorem event_fields_are_single_tokens (now : Z) (bytes_ : bytes) (e : Event.t)
    (d : gmap (list N) (list N))
    (Hfrom : Event.from_bytes now bytes_ = Ret e)
    (Hfields : Event._data e = Fields d) :
  d <> ∅
  /\ forall k v, d !! k = Some v ->
       no_crlf k /\ no_crlf v
       /\ Py.contains (lit " = ") k = false
       /\ Py.contains (lit " = ") v = false.
Proof.
  unfold Event.from_bytes in Hfrom.
  destruct (Py.decode (Py.strip Py.is_space bytes_)) as [text|]; [|done].
  destruct (Py.contains (lit " = ") text); simpl in Hfrom;
    [|injection Hfrom as <-; done].
  destruct (Event.fill (Py.re_split_crlf text) ∅) as [d'| |] eqn:Hfill;
    simpl in Hfrom; [|done|done].
  injection Hfrom as <-. simpl in Hfields. injection Hfields as ->.
  split.
  - eapply fill_nonempty; [exact Hfill|]. left.
    apply re_split_crlf_aux_nonempty.
  - eapply (fill_fields _ _ _ _ Hfill); [|by intros k v; rewrite lookup_empty].
    intros part k v Hin Hsplit.
    destruct (split_two_pieces _ _ _ Hsplit) as (Hpart & Hk & Hv).
    pose proof (re_split_crlf_pieces text) as Hall.
    rewrite List.Forall_forall in Hall. specialize (Hall part Hin).
    unfold no_crlf in *. rewrite Hpart, !Forall_app in Hall. intuition.
Qed.

Lemma event_fields_are_single_tokens_witness :
  no_crlf (lit "5551234") /\ Py.contains (lit " = ") (lit "5551234") = false.
Proof.
  destruct (event_fields_are_single_tokens 1 bytes_call _ _ eq_refl eq_refl)
    as [_ Hall].
  destruct (Hall (lit "NMBR") (lit "5551234")) as (_ & Hv & _ & Hsep);
    [by vm_compute|]. by split.
Defined.

(** ** Whitespace around a message *)

Lemma lstrip_pad (p : N -> bool) (pad l : list N) :
  Forall (fun c => p c = true) pad -> Py.lstrip p (pad ++ l) = Py.lstrip p l.
Proof. induction 1 as [|c pad Hc _ IH]; simpl; [done|]. by rewrite Hc. Qed.

Lemma lstrip_all (p : N -> bool) (l : list N) :
  Forall (fun c => p c = true) l -> Py.lstrip p l = [].
Proof. induction 1 as [|c l Hc _ IH]; simpl; [done|]. by rewrite Hc. Qed.

Lemma lstrip_app (p : N -> bool) (l tail : list N) :
  Py.lstrip p l <> [] -> Py.lstrip p (l ++ tail) = Py.lstrip p l ++ tail.
Proof.
  induction l as [|c l IH]; simpl; [done|].
  destruct (p c); [exact IH|done].
Qed.

Lemma lstrip_nil_all (p : N -> bool) (l : list N) :
  Py.lstrip p l = [] -> Forall (fun c => p c = true) l.
Proof.
  induction l as [|c l IH]; simpl; [constructor|].
  destruct (p c) eqn:Hc; [|done]. intros Hl. constructor; auto.
Qed.

Lemma rstrip_pad (p : N -> bool) (l pad : list N) :
  Forall (fun c => p c = true) pad -> Py.rstrip p (l ++ pad) = Py.rstrip p l.
Proof.
  intros Hpad. unfold Py.rstrip. rewrite rev_app_distr, lstrip_pad; [done|].
  by apply Forall_rev.
Qed.

(** [strip] sees through padding with characters it removes. *)
Lemma strip_pad (p : N -> bool) (pad l pad' : list N) :
  Forall (fun c => p c = true) pad -> Forall (fun c => p c = true) pad' ->
  Py.strip p (pad ++ l ++ pad') = Py.strip p l.
Proof.
  intros Hpad Hpad'. unfold Py.strip. rewrite lstrip_pad by done.
  destruct (Py.lstrip p l) as [|c rest] eqn:Hl.
  - apply lstrip_nil_all in Hl.
    rewrite lstrip_all; [done|]. by apply Forall_app.
  - rewrite lstrip_app by by rewrite Hl. rewrite Hl. by apply rstrip_pad.
Qed.

(** X12. Whitespace around a message does not change what is parsed from
    it.  With any run of ASCII whitespace (spaces, tabs, CR, LF, VT, FF)
    before and after the bytes, [CommandResponse.from_bytes] and
    [Event.from_bytes] fail the same way or return the same command, data
    and result code, respectively the same event data; only the raw bytes
    kept in the object differ. *)
Theorem parsing_ignores_outer_whitespace (now : Z) (pad bytes_ pad' : bytes)
    (Hpad : Forall (fun c => Py.is_space c = true) pad)
    (Hpad' : Forall (fun c => Py.is_space c = true) pad') :
  CommandResponse.from_bytes (pad ++ bytes_ ++ pad')
  = match CommandResponse.from_bytes bytes_ with
    | Ret res =>
        Ret (CommandResponse.mk (CommandResponse._cmd res) (CommandResponse._data res)
               (CommandResponse._result_code res) (pad ++ bytes_ ++ pad'))
    | Raise e => Raise e
    | Blocked => Blocked
    end
  /\ Event.from_bytes now (pad ++ bytes_ ++ pad')
     = match Event.from_bytes now bytes_ with
       | Ret e =>
           Ret (Event.mk (Event._data e) (pad ++ bytes_ ++ pad') (Event._timestamp e))
       | Raise e => Raise e
       | Blocked => Blocked
       end.
Proof.
  unfold CommandResponse.from_bytes, Event.from_bytes.
  rewrite (strip_pad Py.is_space pad bytes_ pad' Hpad Hpad').
  destruct (Py.decode (Py.strip Py.is_space bytes_)) as [text|]; [|done].
  split.
  - destruct (Py.re_split_crlf text) as [|cmd split]; [done|].
    destruct (Py.pop_last split) as [[mid last]|]; [|done].
    by destruct (ResultCode_of last).
  - destruct (Py.contains (lit " = ") text); simpl; [|done].
    by destruct (Event.fill (Py.re_split_crlf text) ∅).
Qed.

Lemma parsing_ignores_outer_whitespace_witness :
  CommandResponse.from_bytes ([CR; LF] ++ bytes_ATZ ++ [32; CR; LF])
  = Ret (CommandResponse.mk (lit "ATZ") None OK ([CR; LF] ++ bytes_ATZ ++ [32; CR; LF])).
Proof.
  destruct (parsing_ignores_outer_whitespace 1 [CR; LF] bytes_ATZ [32; CR; LF])
    as [Hcmd _]; [by repeat constructor..|].
  rewrite Hcmd. reflexivity.
Defined.

(** ** Rings *)

(** X13. An event is a ring exactly when its data is the bare text RING or
    the two characters DLE R.  A ring is never a call and never a message
    event; of the two forms only DLE R also counts as a shielded code, and
    the loop, which asks [is_ring] first, treats it as a ring. *)
Theorem is_ring_characterised (e : Event.t) :
  (Event.is_ring e = true <->
   Event._data e = Scalar (lit "RING") \/ Event._data e = Scalar (DLE :: lit "R"))
  /\ (Event.is_ring e = true ->
      Event.is_call e = false /\ Event.is_message_event e = false)
  /\ (Event._data e = Scalar (lit "RING") -> Event.is_shielded_code e = Ret false)
  /\ (Event._data e = Scalar (DLE :: lit "R") ->
      Event.is_shielded_code e = Ret true).
Proof.
  assert (Hiff : Event.is_ring e = true <->
                 Event._data e = Scalar (lit "RING")
                 \/ Event._data e = Scalar (DLE :: lit "R")).
  { unfold Event.is_ring. destruct (Event._data e) as [s|d].
    - destruct (ResultCode_of s) as [rc|] eqn:Hof.
      + apply (find_by_value ResultCode_value) in Hof. subst s.
        rewrite bool_decide_eq_true. split.
        * intros ->. by left.
        * intros [Heq|Heq]; injection Heq as Heq; by destruct rc.
      + rewrite bool_decide_eq_true. split.
        * intros ->. by right.
        * intros [Heq|Heq]; injection Heq as ->; [done|done].
    - split; [done|]. by intros [?|?]. }
  split; [exact Hiff|]. split; [|split].
  - intros Hring. apply Hiff in Hring.
    unfold Event.is_call, Event.is_message_event.
    destruct Hring as [-> | ->]; by vm_compute.
  - unfold Event.is_shielded_code. by intros ->.
  - unfold Event.is_shielded_code. by intros ->.
Qed.

(** ** How the receive and transmit tasks end *)

(** What the loops of a session leave alone: the state, what was written
    to the line, and the files. *)
Definition loop_frame (m m' : Modem) : Prop :=
  _state m' = _state m /\ writer m' = writer m /\ wav_files m' = wav_files m.

Lemma loop_frame_refl (m : Modem) : loop_frame m m.
Proof. done. Qed.







Section TaskEnds.

Context `{PyLib}.




End TaskEnds.






Section TransmitEnds.

Context `{PyLib}.



End TransmitEnds.



(** ** The registry of background tasks *)

(** Every live task is a task that was created. *)
Definition registry_ok (m : Modem) : Prop :=
  forall task, task ∈ _background_tasks m -> (task < length (spawned m))%nat.

Lemma registry_create (coro : Coro) (m : Modem) :
  registry_ok m -> registry_ok (create_background_task coro m).2.
Proof.
  intros Hok task. cbn. rewrite length_app. cbn.
  intros [->%elem_of_singleton|Hin]%elem_of_union; [lia|].
  specialize (Hok task Hin). lia.
Qed.

Lemma registry_last_dtmf (last : LastDtmf) (m : Modem) :
  registry_ok m -> registry_ok (with_last_dtmf last m).
Proof. done. Qed.

Lemma registry_catch_dtmf (code : str) (m : Modem) :
  registry_ok m -> registry_ok (_catch_dtmf code m).2.
Proof.
  intros Hok. unfold _catch_dtmf, call_hook. case_bool_decide; [done|].
  destruct (bool_decide (code = lit "~")), (_last_dtmf m) as [| |d],
    (DTMF_of code) as [d'|]; try done;
    destruct (hook_params (dtmf_callback m) =? 1)%nat; try done;
    by apply registry_last_dtmf, registry_create.
Qed.

Definition keeps_registry (m m' : Modem) : Prop := registry_ok m -> registry_ok m'.

Lemma keeps_registry_refl (m : Modem) : keeps_registry m m.
Proof. by intros Hok. Qed.

Lemma keeps_registry_trans (m1 m2 m3 : Modem) :
  keeps_registry m1 m2 -> keeps_registry m2 m3 -> keeps_registry m1 m3.
Proof. unfold keeps_registry. auto. Qed.

Lemma registry_catch_dsc (code : N) : keeps keeps_registry (_catch_dsc code).
Proof.
  intros m Hok. unfold _catch_dsc. destruct (Py.decode [code]) as [text|]; [|done].
  case_bool_decide; [done|]. destruct (code =? DLE); [done|].
  unfold bind.
  pose proof (registry_catch_dtmf text m Hok) as Hdtmf.
  by destruct (_catch_dtmf text m) as [[[]|e|] m1].
Qed.

Lemma registry_re_sub_dsc (data : bytes) : keeps keeps_registry (re_sub_dsc data).
Proof.
  remember (length data) as n eqn:Hn. revert data Hn.
  induction (lt_wf n) as [n _ IH]. intros d Hn.
  destruct d as [|b [|code rest]]; try (intros m0; apply keeps_registry_refl).
  rewrite re_sub_dsc_eq. destruct ((b =? DLE) && negb (code =? LF)).
  - apply (keeps_bind keeps_registry keeps_registry_trans);
      [apply registry_catch_dsc|]. intros repl.
    apply (keeps_bind keeps_registry keeps_registry_trans);
      [|intros out m0; apply keeps_registry_refl].
    apply (IH (length rest)); [simpl in Hn; lia|done].
  - apply (keeps_bind keeps_registry keeps_registry_trans);
      [|intros out m0; apply keeps_registry_refl].
    apply (IH (length (code :: rest))); [simpl in *; lia|done].
Qed.

Lemma registry_spawn_all (coros : list Coro) (m : Modem) :
  registry_ok m -> registry_ok (spawn_all coros m).
Proof.
  revert m. induction coros as [|coro coros IH]; intros m Hok; [done|].
  change (spawn_all (coro :: coros) m)
    with (spawn_all coros (create_background_task coro m).2).
  by apply IH, registry_create.
Qed.

Lemma registry_frame (m m' : Modem) : frame m m' -> registry_ok m -> registry_ok m'.
Proof. intros (rx & wr & ->). done. Qed.

(** X16. The set of live tasks only ever holds tasks that were created, and
    the methods keep it so.  On a modem where this holds,
    [create_background_task] returns a task that was not live, makes it
    live and records its coroutine; the completion callback removes its
    task; and after either of them, after [start_event_loop], after the
    callbacks of an ended event loop, after the DLE filter on any bytes and
    after any [start_voice_*] call that returns, it holds again. *)
Theorem registry_holds_created_tasks `{PyLib} (m : Modem) (Hok : registry_ok m) :
  (forall coro,
     ((create_background_task coro m).1 ∉ _background_tasks m)
     /\ ((create_background_task coro m).1
         ∈ _background_tasks (create_background_task coro m).2)
     /\ (spawned (create_background_task coro m).2
          !! (create_background_task coro m).1 = Some coro)
     /\ registry_ok (create_background_task coro m).2)
  /\ (forall task,
        (task ∉ _background_tasks (task_done_callback task m))
        /\ registry_ok (task_done_callback task m))
  /\ registry_ok (start_event_loop m)
  /\ (forall task ended, registry_ok (event_loop_ended task ended m))
  /\ (forall data, registry_ok (re_sub_dsc data m).2)
  /\ (forall w d tx_gain rx_gain b m',
        start_voice_receive w d rx_gain m = (Ret b, m')
        \/ start_voice_transmit d tx_gain m = (Ret b, m')
        \/ start_voice_duplex w d tx_gain rx_gain m = (Ret b, m') ->
        registry_ok m').
Proof.
  assert (Hdone : forall task, registry_ok (task_done_callback task m)).
  { intros task t. cbn. intros [Hin _]%elem_of_difference. by apply Hok. }
  assert (Hstart : forall m0, registry_ok m0 -> registry_ok (start_event_loop m0)).
  { intros m0 Hok0. unfold start_event_loop. destruct (_event_loop m0); [done|].
    apply (registry_create coro_event_loop m0 Hok0). }
  split; [|split; [|split; [|split; [|split]]]].
  - intros coro. split; [|split; [|split]].
    + cbn. intros Hin. specialize (Hok _ Hin). lia.
    + cbn. set_solver.
    + cbn. by rewrite lookup_app_r, Nat.sub_diag.
    + by apply registry_create.
  - intros task. split; [cbn; set_solver|apply Hdone].
  - by apply Hstart.
  - intros task ended. unfold event_loop_ended, done_callback.
    destruct (task_exception ended); [|apply Hdone].
    apply Hstart. apply Hdone.
  - intros data. by apply registry_re_sub_dsc.
  - intros w d tx_gain rx_gain b m' Hcall.
    destruct (decide (_mode m = Some VOICE)) as [Hmode|Hmode].
    + assert (Hout : exists gain start_cmd st coros,
                start_outcome gain start_cmd st coros m b m').
      { destruct Hcall as [Hc|[Hc|Hc]].
        - eexists _, _, _, _. by eapply start_voice_receive_outcome.
        - eexists _, _, _, _. by eapply start_voice_transmit_outcome.
        - eexists _, _, _, _. by eapply start_voice_duplex_outcome. }
      destruct Hout as (gain & start_cmd & st & coros & r1 & m1 & res & m2
                        & _ & _ & Hframe & _ & ->).
      pose proof (registry_frame _ _ Hframe Hok) as Hok2.
      destruct b; [|done]. by apply registry_spawn_all.
    + unfold start_voice_receive, start_voice_transmit, start_voice_duplex in Hcall.
      rewrite bool_decide_eq_false_2 in Hcall by done. cbn [negb] in Hcall.
      by destruct Hcall as [[= _ <-]|[[= _ <-]|[= _ <-]]].
Qed.

Lemma registry_holds_created_tasks_witness :
  registry_ok (start_event_loop (new_Modem [])).
Proof.
  assert (Hok : registry_ok (new_Modem [])).
  { intros task Hin. by apply not_elem_of_empty in Hin. }
  destruct (registry_holds_created_tasks (H := ascii_lib) (new_Modem []) Hok)
    as (_ & _ & Hstart & _).
  exact Hstart.
Defined.

(** ** The soft reset *)

Section SoftReset.

Context `{PyLib}.

Lemma frame_get (cmd : str) : keeps frame (get cmd).
Proof.
  unfold get. keeps_bind; [apply frame_send|]. intros [res|rs].
  - keeps_bind; [apply keeps_ret, frame_refl|]. intros r. apply keeps_ret, frame_refl.
  - keeps_bind; [apply keeps_raise, frame_refl|]. intros r. apply keeps_ret, frame_refl.
Qed.

Lemma frame_get_mode : keeps frame get_mode.
Proof.
  unfold get_mode. keeps_bind; [apply frame_get|]. intros [s|].
  - destruct (Mode_of s); [apply keeps_ret|apply keeps_raise]; apply frame_refl.
  - apply keeps_raise, frame_refl.
Qed.

(** X17. [soft_reset] changes the object only when it comes to its end.
    When it returns, the state is INITIALIZED, the two registers are back
    at CR and LF, and the stored mode is the member of [Mode] whose value
    the modem gave in answer to [+FCLASS?]; the rest of the object is as it
    was.  When it raises or waits for ever (no echo, an answer that is no
    mode, no data in the answer) nothing but the transport has changed:
    the state, the mode and the registers are still the old ones. *)
Theorem soft_reset_all_or_nothing (m m' : Modem) (r : result unit)
    (Hreset : soft_reset m = (r, m')) :
  match r with
  | Ret _ =>
      exists mode m1 answer m2,
        frame m m2
        /\ get (lit "+FCLASS?") m1 = (Ret (Some answer), m2)
        /\ Mode_of answer = Some mode
        /\ m' = with_s4 [LF] (with_s3 [CR] (with_state (Some INITIALIZED)
                  (with_mode (Some mode) m2)))
        /\ _state m' = Some INITIALIZED /\ _s3 m' = [CR] /\ _s4 m' = [LF]
        /\ _mode m' = Some mode
        /\ _stop_event m' = _stop_event m /\ _running m' = _running m
        /\ spawned m' = spawned m
  | _ => frame m m'
  end.
Proof.
  unfold soft_reset, bind in Hreset.
  pose proof (frame_send (One (lit "ATZ")) m) as F1.
  destruct (send (One (lit "ATZ")) m) as [[r1|e|] m1]; cbn [snd] in F1;
    try (injection Hreset as <- <-; exact F1).
  pose proof (frame_get_mode m1) as F2.
  destruct (get_mode m1) as [[mode|e|] m2] eqn:Hmode; cbn [snd] in F2;
    try (injection Hreset as <- <-; by eapply frame_trans).
  injection Hreset as <- <-.
  assert (F : frame m m2) by by eapply frame_trans.
  unfold get_mode, bind in Hmode.
  destruct (get (lit "+FCLASS?") m1) as [[[answer|]|e|] m3] eqn:Hget; try done.
  destruct (Mode_of answer) as [mode'|] eqn:Hof; [|done].
  injection Hmode as -> ->.
  exists mode, m1, answer, m2. split; [done|]. split; [done|]. split; [done|].
  split; [done|]. apply frame_fields in F. cbn. intuition.
Qed.

End SoftReset.

(** The modem answers ATZ with OK and gives its mode as 8, or as 9. *)
Definition reset_to_voice : bytes :=
  lit "ATZ" ++ [CR; CR; LF] ++ lit "OK" ++ [CR; LF]
  ++ lit "AT+FCLASS?" ++ [CR; CR; LF] ++ lit "8" ++ [CR; LF]
  ++ lit "OK" ++ [CR; LF].

Lemma soft_reset_all_or_nothing_witness :
  exists m', @soft_reset ascii_lib (receiving reset_to_voice) = (Ret tt, m')
             /\ _state m' = Some INITIALIZED
             /\ _mode m' = Some VOICE.
Proof.
  eassert (Hrun : @soft_reset ascii_lib (receiving reset_to_voice) = (Ret tt, _))
    by (vm_compute; reflexivity).
  pose proof (soft_reset_all_or_nothing (H := ascii_lib) _ _ _ Hrun) as Hend.
  cbv beta iota in Hend.
  destruct Hend as (mode & m1 & answer & m2 & _ & _ & _ & _ & Hstate & _).
  eexists. split; [exact Hrun|]. split; [exact Hstate|reflexivity].
Defined.

(** ** What the event loop does with an event *)

Lemma event_from_bytes_failures (now : Z) (bytes_ : bytes) :
  match Event.from_bytes now bytes_ with
  | Ret _ => True
  | Raise e => e = ValueError \/ e = UnicodeDecodeError
  | Blocked => False
  end.
Proof.
  unfold Event.from_bytes.
  destruct (Py.decode (Py.strip Py.is_space bytes_)) as [text|]; [|by right].
  destruct (Py.contains (lit " = ") text); cbn [negb]; [|done].
  assert (Hfill : forall parts d,
             match Event.fill parts d with
             | Ret _ => True
             | Raise e => e = ValueError
             | Blocked => False
             end).
  { induction parts as [|part parts IH]; intros d; cbn [Event.fill]; [done|].
    destruct (Py.split (lit " = ") part) as [|k [|v [|x l]]]; try done. apply IH. }
  specialize (Hfill (Py.re_split_crlf text) ∅). unfold rbind.
  destruct (Event.fill _ _); [done| by left |done].
Qed.

Section Dispatch.

Variable SHIELDED_CODES_TO_DTE : gmap (list N) (list N).
Variable ring_callback : Event.t -> M unit.
Variable call_callback : Call.t -> M unit.
Variable mesg_callback : Event.t -> M unit.

Lemma contains_longer (needle l : list N) :
  (length l < length needle)%nat -> Py.contains needle l = false.
Proof.
  intros Hlen. destruct (Py.contains needle l) eqn:Hc; [|done].
  apply contains_iff in Hc as (pre & post & ->).
  rewrite !length_app in Hlen. lia.
Qed.

(** A shielded code is no ring unless it is DLE R, and it is neither a call
    nor a message event: two characters hold none of the key words. *)
Lemma shielded_code_kind (e : Event.t) (c : N) :
  Event._data e = Scalar [DLE; c] ->
  Event.is_ring e = bool_decide (c = 82)
  /\ Event.is_call e = false
  /\ Event.is_message_event e = false
  /\ Event.is_shielded_code e = Ret true
  /\ Event.code_of e = [c].
Proof.
  intros Hd.
  unfold Event.is_ring, Event.is_call, Event.is_message_event,
    Event.is_shielded_code, Event.code_of.
  rewrite Hd. split; [|split; [|split; [|split]]]; try done.
  - assert (Hnone : ResultCode_of [DLE; c] = None) by done.
    rewrite Hnone. unfold Event.RING_text.
    case_bool_decide as H1; case_bool_decide as H2; try done.
    + injection H1 as ->. done.
    + subst c. done.
  - unfold Event.data_contains at 1.
    by rewrite (contains_longer (lit "DATE")) by (cbn; lia).
  - unfold Event.data_contains. apply contains_longer. cbn. lia.
Qed.

(** X18. Three kinds of event end the event loop task with an exception,
    before any hook is called: a bare line that is no ring but mentions
    both DATE and TIME ([AttributeError]: it passes for a call, and a string
    has no [get]); a block of exactly two fields that is neither a call nor
    a message event ([AttributeError]: it passes the length test of
    [is_shielded_code], and a dict has no [startswith]); and a shielded code
    other than DLE R that has no label in the table ([TypeError]: the log
    line adds [None] to a string).  A shielded code with a label is logged
    and nothing else happens.  Every other event goes to exactly the hook of
    its kind or to none. *)
Theorem dispatch_errors_and_hooks (now_call : Z) (e : Event.t) (m : Modem) :
  (forall s, Event._data e = Scalar s ->
     Event.is_ring e = false -> Event.is_call e = true ->
     dispatch SHIELDED_CODES_TO_DTE ring_callback call_callback mesg_callback
       now_call e m
     = (Raise AttributeError, m))
  /\ (forall d, Event._data e = Fields d ->
        Event.is_call e = false -> Event.is_message_event e = false ->
        size d = 2%nat ->
        dispatch SHIELDED_CODES_TO_DTE ring_callback call_callback mesg_callback
          now_call e m
        = (Raise AttributeError, m))
  /\ (forall c, Event._data e = Scalar [DLE; c] -> c <> 82 ->
        dispatch SHIELDED_CODES_TO_DTE ring_callback call_callback mesg_callback
          now_call e m
        = match SHIELDED_CODES_TO_DTE !! [c] with
          | Some _ => (Ret tt, m)
          | None => (Raise TypeError, m)
          end)
  /\ (Event.is_ring e = true ->
      dispatch SHIELDED_CODES_TO_DTE ring_callback call_callback mesg_callback
        now_call e m
      = ring_callback e m)
  /\ (forall d, Event._data e = Fields d -> Event.is_call e = true ->
        dispatch SHIELDED_CODES_TO_DTE ring_callback call_callback mesg_callback
          now_call e m
        = call_callback
            (Call.init now_call (d !! lit "NMBR") (d !! lit "NAME")
               (Some (Event._timestamp e))) m)
  /\ (Event.is_ring e = false -> Event.is_call e = false ->
      Event.is_message_event e = true ->
      dispatch SHIELDED_CODES_TO_DTE ring_callback call_callback mesg_callback
        now_call e m
      = mesg_callback e m)
  /\ (Event.is_ring e = false -> Event.is_call e = false ->
      Event.is_message_event e = false ->
      (forall d, Event._data e = Fields d -> size d <> 2%nat) ->
      (forall c, Event._data e <> Scalar [DLE; c]) ->
      dispatch SHIELDED_CODES_TO_DTE ring_callback call_callback mesg_callback
        now_call e m
      = (Ret tt, m)).
Proof.
  split; [|split; [|split; [|split; [|split; [|split]]]]].
  - intros s Hs Hring Hcall.
    unfold dispatch, Call.from_event, bind, lift. by rewrite Hring, Hcall, Hs.
  - intros d Hd Hcall Hmsg Hsize.
    assert (Hring : Event.is_ring e = false) by (unfold Event.is_ring; by rewrite Hd).
    unfold dispatch, Event.is_shielded_code, bind, lift.
    rewrite Hring, Hcall, Hmsg, Hd.
    by rewrite (proj2 (Nat.eqb_eq _ _) Hsize).
  - intros c Hd Hc.
    destruct (shielded_code_kind e c Hd) as (Hring & Hcall & Hmsg & Hsh & Hcode).
    rewrite bool_decide_eq_false_2 in Hring by done.
    unfold dispatch, bind, lift, get_dsc_label.
    rewrite Hring, Hcall, Hmsg, Hsh, Hcode.
    by destruct (SHIELDED_CODES_TO_DTE !! [c]).
  - intros Hring. unfold dispatch. by rewrite Hring.
  - intros d Hd Hcall.
    assert (Hring : Event.is_ring e = false) by (unfold Event.is_ring; by rewrite Hd).
    unfold dispatch, Call.from_event, bind, lift. by rewrite Hring, Hcall, Hd.
  - intros Hring Hcall Hmsg. unfold dispatch. by rewrite Hring, Hcall, Hmsg.
  - intros Hring Hcall Hmsg Hsize Hcode.
    unfold dispatch, Event.is_shielded_code, bind, lift.
    rewrite Hring, Hcall, Hmsg.
    destruct (Event._data e) as [s|d] eqn:Hd.
    + destruct ((length s =? 2)%nat && Py.startswith [DLE] s) eqn:Hsh; [|done].
      apply andb_true_iff in Hsh as [Hlen Hpre].
      apply Nat.eqb_eq in Hlen. apply startswith_inv in Hpre as [post ->].
      destruct post as [|c [|x post]]; try done.
      by destruct (Hcode c).
    + destruct (size d =? 2)%nat eqn:Heq; [|done].
      apply Nat.eqb_eq in Heq. by destruct (Hsize d eq_refl).
Qed.

(** X19. A line that cannot be parsed never ends the loop.
    [Event.from_bytes] fails only with [ValueError] or with
    [UnicodeDecodeError], which the [except ValueError] of the loop catches:
    after such a line the loop goes on with its next wait, from the modem as
    the reads left it, and no hook has been called. *)
Theorem event_loop_survives_bad_lines (avail : nat) (more : list nat)
    (now_event now_call : Z) (script : list LoopRead) (m m1 : Modem)
    (bytes_ trailer : bytes) (e : exn)
    (Hrunning : _running m = true)
    (Hread : read avail (with_state (Some WAITING_EVENT) m) = (Ret bytes_, m1))
    (Htrailer : Py.encode (_trailer m1) = Some trailer)
    (Hcomplete : Py.endswith trailer bytes_ = true)
    (Hbad : Event.from_bytes now_event bytes_ = Raise e) :
  event_loop SHIELDED_CODES_TO_DTE ring_callback call_callback mesg_callback
    (Arrives avail more now_event now_call :: script) m
  = event_loop SHIELDED_CODES_TO_DTE ring_callback call_callback mesg_callback
      script m1.
Proof.
  pose proof (event_from_bytes_failures now_event bytes_) as Hkind.
  rewrite Hbad in Hkind.
  assert (Hcaught : is_ValueError e = true) by by destruct Hkind as [-> | ->].
  cbn [event_loop]. rewrite Hrunning. cbn [negb].
  unfold bind at 1. rewrite Hread.
  unfold bind at 1. rewrite Htrailer.
  unfold bind at 1. rewrite Hcomplete. unfold ret.
  by rewrite Hbad, Hcaught.
Qed.

End Dispatch.

(** The shielded code DLE u, alone on the line. *)
Definition bytes_dle_u : bytes := [DLE; 117; CR; LF].

Lemma dispatch_errors_and_hooks_witness :
  (event_loop two_codes quiet_hook quiet_hook quiet_hook [Arrives 14 [] 1 1]
     (waiting bytes_update)).1 = Raise AttributeError
  /\ (event_loop two_codes quiet_hook quiet_hook quiet_hook [Arrives 4 [] 1 1]
        (waiting bytes_dle_u)).1 = Raise TypeError.
Proof.
  split.
  - destruct (dispatch_errors_and_hooks two_codes quiet_hook quiet_hook quiet_hook 1
                (Event.mk (Scalar (lit "UPDATE TIMER")) bytes_update 1)
                (with_reader []
                   (with_state (Some WAITING_EVENT) (waiting bytes_update))))
      as [Hscalar _].
    specialize (Hscalar (lit "UPDATE TIMER") eq_refl eq_refl eq_refl).
    cbn [event_loop]. change (_running (waiting bytes_update)) with true. cbn [negb].
    unfold bind at 1.
    change (read 14 (with_state (Some WAITING_EVENT) (waiting bytes_update)))
      with (Ret bytes_update,
            with_reader [] (with_state (Some WAITING_EVENT) (waiting bytes_update))).
    unfold bind at 1. cbv beta iota.
    change (Py.encode (_trailer _)) with (Some [CR; LF]). cbv beta iota.
    unfold bind at 1.
    change (Py.endswith [CR; LF] bytes_update) with true. cbv beta iota. unfold ret.
    cbv beta iota.
    change (Event.from_bytes 1 bytes_update)
      with (Ret (Event.mk (Scalar (lit "UPDATE TIMER")) bytes_update 1)).
    cbv beta iota. unfold bind at 1. by rewrite Hscalar.
  - destruct (dispatch_errors_and_hooks two_codes quiet_hook quiet_hook quiet_hook 1
                (Event.mk (Scalar [DLE; 117]) bytes_dle_u 1)
                (with_reader []
                   (with_state (Some WAITING_EVENT) (waiting bytes_dle_u))))
      as (_ & _ & Hcode & _).
    specialize (Hcode 117 eq_refl).
    assert (Hnone : two_codes !! [117] = None) by by vm_compute.
    rewrite Hnone in Hcode.
    cbn [event_loop]. change (_running (waiting bytes_dle_u)) with true. cbn [negb].
    unfold bind at 1.
    change (read 4 (with_state (Some WAITING_EVENT) (waiting bytes_dle_u)))
      with (Ret bytes_dle_u,
            with_reader [] (with_state (Some WAITING_EVENT) (waiting bytes_dle_u))).
    unfold bind at 1. cbv beta iota.
    change (Py.encode (_trailer _)) with (Some [CR; LF]). cbv beta iota.
    unfold bind at 1.
    change (Py.endswith [CR; LF] bytes_dle_u) with true. cbv beta iota. unfold ret.
    cbv beta iota.
    change (Event.from_bytes 1 bytes_dle_u)
      with (Ret (Event.mk (Scalar [DLE; 117]) bytes_dle_u 1)).
    cbv beta iota. unfold bind at 1. rewrite Hcode by done. done.
Defined.

(** A line of bytes that are no UTF-8, then a ring. *)
Definition garbage_then_ring : bytes := [255; 254; CR; LF] ++ lit "RING" ++ [CR; LF].

Lemma event_loop_survives_bad_lines_witness :
  event_loop two_codes (failing_hook OverflowError) quiet_hook quiet_hook
    [Arrives 4 [] 1 1; Arrives 6 [] 2 2] (waiting garbage_then_ring)
  = event_loop two_codes (failing_hook OverflowError) quiet_hook quiet_hook
      [Arrives 6 [] 2 2]
      (with_reader (lit "RING" ++ [CR; LF])
         (with_state (Some WAITING_EVENT) (waiting garbage_then_ring))).
Proof.
  apply (event_loop_survives_bad_lines _ _ _ _ 4 [] 1 1 _ _ _
           [255; 254; CR; LF] [CR; LF] UnicodeDecodeError);
    reflexivity.
Defined.

(** ** Placing a call *)

Section VoiceCall.

Context `{PyLib}.

(** [start_voice_call]: refused while the event loop task exists, refused
    outside voice mode; then the dial command, then a duplex session. *)
Definition start_voice_call (number_ : str) (wav : option str)
    (max_duration : number) (tx_gain rx_gain : Z) : M bool :=
  fun m =>
    if negb (bool_decide (_event_loop m = None)) then (Ret false, m)
    else if negb (bool_decide (_mode m = Some VOICE)) then (Ret false, m)
    else
      (send (One (lit "DT" ++ number_)) ;;;
       start_voice_duplex wav max_duration tx_gain rx_gain) m.

(** X20. A call is refused, with the modem untouched and nothing dialled,
    while the event loop task exists or the mode is not VOICE.  Otherwise
    the number is dialled and the response to the dial command is dropped:
    whatever its result code, the duplex session is then started from the
    modem as the dial left it (only the transport has moved), and the value
    returned is that of the duplex start. *)
Theorem start_voice_call_outcome (number_ : str) (wav : option str)
    (d : number) (tx_gain rx_gain : Z) (m m' : Modem) (b : bool)
    (Hcall : start_voice_call number_ wav d tx_gain rx_gain m = (Ret b, m')) :
  if bool_decide (_event_loop m = None) && bool_decide (_mode m = Some VOICE)
  then
    exists dial m0,
      send (One (lit "DT" ++ number_)) m = (Ret (Single dial), m0)
      /\ frame m m0
      /\ start_outcome (Many [lit "+VGR=" ++ Py.str_of_int rx_gain;
                              lit "+VGT=" ++ Py.str_of_int tx_gain]) (lit "+VTR")
           VOICE_DUPLEX
           [coro_receive d wav; coro_transmit d; coro_silence_detection;
            coro_play_queue_consumer] m0 b m'
  else b = false /\ m' = m.
Proof.
  unfold start_voice_call in Hcall.
  destruct (bool_decide (_event_loop m = None)); cbn [negb andb] in *.
  - destruct (bool_decide (_mode m = Some VOICE)) eqn:Hmode; cbn [negb] in *.
    + apply bool_decide_eq_true in Hmode.
      unfold bind at 1 in Hcall.
      destruct (send (One (lit "DT" ++ number_)) m) as [[r|e|] m0] eqn:Hdial;
        try done.
      destruct (send_One_single _ _ _ _ Hdial) as [dial ->].
      pose proof (frame_send (One (lit "DT" ++ number_)) m) as Hframe.
      rewrite Hdial in Hframe. cbn [snd] in Hframe.
      exists dial, m0. split; [done|]. split; [done|].
      apply start_voice_duplex_outcome; [|done].
      apply frame_fields in Hframe.
      destruct Hframe as (_ & _ & _ & _ & _ & _ & _ & _ & Hm & _).
      by rewrite Hm.
    + apply pair_equal_spec in Hcall as [Hb <-]. by injection Hb as <-.
  - apply pair_equal_spec in Hcall as [Hb <-]. by injection Hb as <-.
Qed.

End VoiceCall.

(** The line drops the call, the gains are accepted and the duplex start is
    answered by CONNECT. *)
Definition no_carrier_then_duplex : bytes :=
  lit "ATDT0123456789" ++ [CR; CR; LF] ++ lit "NO CARRIER" ++ [CR; LF]
  ++ two_gains_OK
  ++ lit "AT+VTR" ++ [CR; CR; LF] ++ lit "CONNECT" ++ [CR; LF].

Lemma start_voice_call_outcome_witness :
  exists dial m0 m',
    @send ascii_lib (One (lit "DT0123456789"))
      (with_mode (Some VOICE) (new_Modem no_carrier_then_duplex))
    = (Ret (Single dial), m0)
    /\ CommandResponse._result_code dial = NO_CARRIER
    /\ @start_voice_call ascii_lib (lit "0123456789") None (PyInt 120) 128 128
         (with_mode (Some VOICE) (new_Modem no_carrier_then_duplex))
       = (Ret true, m')
    /\ _state m' = Some VOICE_DUPLEX.
Proof.
  destruct (@start_voice_call ascii_lib (lit "0123456789") None (PyInt 120) 128 128
              (with_mode (Some VOICE) (new_Modem no_carrier_then_duplex)))
    as [r m'] eqn:Hcall.
  assert (Hr : r = Ret true).
  { apply (f_equal fst) in Hcall. cbn [fst] in Hcall. rewrite <- Hcall.
    by vm_compute. }
  subst r.
  pose proof (start_voice_call_outcome (H := ascii_lib) _ _ _ _ _ _ _ _ Hcall)
    as Hout.
  change (bool_decide (_event_loop _ = None) && bool_decide (_mode _ = Some VOICE))
    with true in Hout.
  destruct Hout as (dial & m0 & Hdial & _ & Hstart).
  exists dial, m0, m'. split; [done|]. split.
  - apply (f_equal fst) in Hdial. cbn [fst] in Hdial.
    assert (Hcode : match (@send ascii_lib (One (lit "DT" ++ lit "0123456789"))
                             (with_mode (Some VOICE)
                                (new_Modem no_carrier_then_duplex))).1 with
                    | Ret (Single res) => CommandResponse._result_code res = NO_CARRIER
                    | _ => False
                    end) by by vm_compute.
    by rewrite Hdial in Hcode.
  - split; [done|]. by apply start_outcome_true in Hstart as (? & _).
Defined.

(** ** Which calls are blocked *)

Module Callblock.

Inductive FilterType :=
  | BLACKLIST
  | WHITELIST.

#[global] Instance FilterType_eq_dec : EqDecision FilterType.
Proof. solve_decision. Defined.

(** The fields of [Callblock] that [block_reason] reads.  [_filter_type] is
    whatever the constructor was given: [None] stands for a value that is no
    member of [FilterType].  [_filter_list] is the dict read from the CSV
    file. *)
Record t := {
  _filter_type : option FilterType;
  _filter_list : gmap (list N) (list N);
  _block_private : bool
}.

(** [call.number in self._filter_list]; a call without a number has
    [None] there, which is no key of the dict. *)
Definition in_list (cb : t) (call : Call.t) : bool :=
  match Call._number call with
  | Some n => bool_decide (is_Some (_filter_list cb !! n))
  | None => false
  end.

Definition block_reason (cb : t) (call : Call.t) : option str :=
  if Call.is_private call && _block_private cb then
    Some (lit "Number is private")
  else if bool_decide (_filter_type cb = Some BLACKLIST) && in_list cb call then
    Some (lit "Contact is on blacklist")
  else if bool_decide (_filter_type cb = Some WHITELIST) && negb (in_list cb call) then
    Some (lit "Contact is not on whitelist")
  else None.

End Callblock.

(** X21. A call event is let through exactly when it is not a private call
    under [block_private], its number is no key of a blacklist and is a key
    of a whitelist.  So a whitelist blocks every call event that has no NMBR
    field, and lets a private call through (without [block_private]) only
    when the letter that stands for it ([P] or [O]) is itself a key of the
    list. *)
Theorem block_reason_lets_through (cb : Callblock.t) (now : Z) (event : Event.t)
    (call : Call.t) (Hcall : Call.from_event now event = Ret call) :
  (Callblock.block_reason cb call = None <->
     (Call.is_private call && Callblock._block_private cb = false)
     /\ (Callblock._filter_type cb = Some Callblock.BLACKLIST ->
         forall n, Call._number call = Some n -> Callblock._filter_list cb !! n = None)
     /\ (Callblock._filter_type cb = Some Callblock.WHITELIST ->
         exists n, Call._number call = Some n
                   /\ is_Some (Callblock._filter_list cb !! n)))
  /\ (forall d, Event._data event = Fields d -> d !! lit "NMBR" = None ->
      Callblock._filter_type cb = Some Callblock.WHITELIST ->
      Callblock.block_reason cb call = Some (lit "Contact is not on whitelist"))
  /\ (Call.is_private call = true -> Callblock._block_private cb = false ->
      Callblock._filter_type cb = Some Callblock.WHITELIST ->
      Callblock._filter_list cb !! lit "P" = None ->
      Callblock._filter_list cb !! lit "O" = None ->
      Callblock.block_reason cb call = Some (lit "Contact is not on whitelist")).
Proof.
  assert (Hin : Callblock.in_list cb call = true <->
                exists n, Call._number call = Some n
                          /\ is_Some (Callblock._filter_list cb !! n)).
  { unfold Callblock.in_list. destruct (Call._number call) as [n|].
    - rewrite bool_decide_eq_true. split; [by exists n|].
      by intros (n' & [= ->] & Hn).
    - split; [done | by intros (n & ? & _)]. }
  split; [|split].
  - unfold Callblock.block_reason.
    destruct (Call.is_private call && Callblock._block_private cb);
      [split; [done | by intros [? _]]|].
    destruct (Callblock._filter_type cb) as [[|]|].
    + rewrite bool_decide_eq_true_2 by done. cbn [andb].
      rewrite bool_decide_eq_false_2 by done. cbn [andb].
      destruct (Callblock.in_list cb call) eqn:Hl.
      * destruct (proj1 Hin eq_refl) as (n & Hn & [v Hv]). split; [done|].
        intros (_ & Hblack & _). specialize (Hblack eq_refl n Hn). congruence.
      * split; [|done]. intros _. split; [done|]. split; [|done].
        intros _ n Hn. destruct (Callblock._filter_list cb !! n) eqn:Hv; [|done].
        assert (false = true) by (apply Hin; by exists n).
        discriminate.
    + rewrite bool_decide_eq_false_2 by done. cbn [andb].
      rewrite bool_decide_eq_true_2 by done. cbn [andb].
      destruct (Callblock.in_list cb call) eqn:Hl; cbn [negb].
      * split; [|done]. intros _. split; [done|]. split; [done|].
        intros _. by apply Hin.
      * split; [done|]. intros (_ & _ & Hwhite).
        assert (false = true) by (apply Hin; by apply Hwhite).
        discriminate.
    + rewrite !bool_decide_eq_false_2 by done. cbn [andb].
      split; [|done]. intros _. by split.
  - intros d Hd Hnmbr Hwhite. unfold Call.from_event in Hcall.
    rewrite Hd in Hcall. injection Hcall as <-.
    unfold Callblock.block_reason, Call.is_private, Callblock.in_list, Call.init.
    cbn [Call._number]. rewrite Hnmbr, Hwhite.
    rewrite !bool_decide_eq_false_2 by done. cbn [orb andb].
    by rewrite bool_decide_eq_true_2 by done.
  - intros Hprivate Hflag Hwhite HP HO.
    unfold Callblock.block_reason. rewrite Hprivate, Hflag, Hwhite. cbn [andb].
    rewrite bool_decide_eq_false_2 by done.
    rewrite bool_decide_eq_true_2 by done. cbn [andb].
    destruct (Callblock.in_list cb call) eqn:Hl; [|done].
    destruct (proj1 Hin eq_refl) as (n & Hn & [v Hv]).
    unfold Call.is_private in Hprivate. rewrite Hn in Hprivate.
    apply orb_true_iff in Hprivate as [Hp | Hp];
      apply bool_decide_eq_true in Hp; injection Hp as ->; congruence.
Qed.

(** A call event without a number, and a whitelist with one contact. *)
Definition call_without_number : Event.t :=
  Event.mk (Fields {[ lit "DATE" := lit "0101"; lit "TIME" := lit "1200" ]})
    (lit "DATE = 0101" ++ [CR; LF] ++ lit "TIME = 1200") 1.

Definition one_contact : Callblock.t :=
  {| Callblock._filter_type := Some Callblock.WHITELIST;
     Callblock._filter_list := {[ lit "0123456789" := lit "Home" ]};
     Callblock._block_private := false |}.

Lemma block_reason_lets_through_witness :
  Callblock.block_reason one_contact
    (Call.init 2 None None (Some 1%Z))
  = Some (lit "Contact is not on whitelist").
Proof.
  destruct (block_reason_lets_through one_contact 2 call_without_number
              (Call.init 2 None None (Some 1%Z))) as (_ & Hnone & _).
  - by vm_compute.
  - apply (Hnone {[ lit "DATE" := lit "0101"; lit "TIME" := lit "1200" ]});
      [done | by vm_compute | done].
Defined.

(** ** Playing audio *)

(** The fields of [Modem] that playing audio adds to the ones above: the
    queue of the audio to play, oldest item first, each with its duration,
    and the silence threshold. *)
Record Playback := {
  modem_of : Modem;
  _play_queue : list (bytes * option float);
  _silence_seconds : option number
}.

Definition with_modem (m : Modem) (p : Playback) : Playback :=
  {| modem_of := m; _play_queue := _play_queue p;
     _silence_seconds := _silence_seconds p |}.

Definition with_play_queue (q : list (bytes * option float)) (p : Playback)
    : Playback :=
  {| modem_of := modem_of p; _play_queue := q;
     _silence_seconds := _silence_seconds p |}.

Definition with_silence_seconds (sec : option number) (p : Playback) : Playback :=
  {| modem_of := modem_of p; _play_queue := _play_queue p;
     _silence_seconds := sec |}.

(** [abs(a)] and [-a] *)
Definition number_abs (a : number) : number :=
  match a with
  | PyInt z => PyInt (Z.abs z)
  | PyFloat f => PyFloat (PrimFloat.abs f)
  end.

Definition number_neg (a : number) : number :=
  match a with
  | PyInt z => PyInt (- z)
  | PyFloat f => PyFloat (- f)%float
  end.

(** [isinstance(sec, (int, float)) and sec > 0] *)
Definition sd_on (sec : option number) : bool :=
  match sec with
  | Some (PyInt z) => (0 <? z)%Z
  | Some (PyFloat f) => (0 <? f)%float
  | None => false
  end.

(** One round of the loop of [_silence_detection].  [start] is local to the
    task and only enters the test [time.monotonic() - start > sec], whose
    outcome in this round is [overdue].  The hook is called without
    argument, before the task for it is created. *)
Definition silence_detection_round (overdue : bool) (p : Playback)
    : result unit * Playback :=
  let sec := _silence_seconds p in
  if negb (_silence (modem_of p)) || negb (sd_on sec) then (Ret tt, p)
  else if sd_on sec && overdue then
    match call_hook (silence_callback (modem_of p)) 0 coro_silence_callback with
    | Ret coro =>
        (Ret tt, with_modem (create_background_task coro (modem_of p)).2 p)
    | Raise e => (Raise e, p)
    | Blocked => (Blocked, p)
    end
  else (Ret tt, p).

Fixpoint _silence_detection (ticks : list bool) (p : Playback)
    : result unit * Playback :=
  match _stop_event (modem_of p) with
  | Some _ => (Ret tt, p)
  | None =>
      match ticks with
      | [] => (Blocked, p)
      | overdue :: ticks' =>
          match silence_detection_round overdue p with
          | (Ret _, p') => _silence_detection ticks' p'
          | (Raise e, p') => (Raise e, p')
          | (Blocked, p') => (Blocked, p')
          end
      end
  end.

(** [_play_queue_consumer] on an item, from the test of the stop reason to
    the sleep: the threshold is negated and the audio written. *)
Definition playing (audio : bytes) (p : Playback) : Playback :=
  let sec := _silence_seconds p in
  let p := with_silence_seconds
             (option_map (fun s => number_neg (number_abs s)) sec) p in
  with_modem (write audio (modem_of p)).2 p.

Section Playing.

(** The file system as [wave.open(path, "rb")] finds it, and the frames
    [readframes] gives for a file that opens. *)
Variable wave_open : str -> WaveOpen.
Variable readframes : str -> bytes.

(** [asyncio.sleep(duration)]: the consumer is suspended, the other tasks
    run. *)
Variable sleep : option float -> Playback -> result unit * Playback.

Definition send_audio_file (audio_file : option str) (p : Playback)
    : result bool * Playback :=
  match audio_file with
  | None => (Ret false, p)
  | Some path =>
      if negb (bool_decide (_state (modem_of p) = Some VOICE_TRANSMIT)
               || bool_decide (_state (modem_of p) = Some VOICE_DUPLEX))
      then (Ret false, p)
      else
        match wave_open path with
        | FileNotFoundError | WaveError => (Ret false, p)
        | OtherError e => (Raise e, p)
        | Opened _ _ _ _ =>
            match wav_duration (wave_open path) with
            | Ret duration =>
                (Ret true,
                 with_play_queue (_play_queue p ++ [(readframes path, duration)]) p)
            | Raise e => (Raise e, p)
            | Blocked => (Blocked, p)
            end
        end
  end.

(** The [else] branch of the consumer for an item taken while no stop
    reason is set. *)
Definition play (audio : bytes) (duration : option float) (p : Playback)
    : result unit * Playback :=
  let sec := _silence_seconds p in
  match sleep duration (playing audio p) with
  | (Ret _, p) => (Ret tt, with_silence_seconds (option_map number_abs sec) p)
  | (Raise e, p) => (Raise e, p)
  | (Blocked, p) => (Blocked, p)
  end.

(** [_play_queue_consumer]: one unit of fuel per turn of the loop; with an
    empty queue the wait times out after a second and the loop turns. *)
Fixpoint _play_queue_consumer (fuel : nat) (p : Playback) : result unit * Playback :=
  if bool_decide (_stop_event (modem_of p) = None)
     || negb (bool_decide (_play_queue p = []))
  then
    match fuel with
    | O => (Blocked, p)
    | S fuel' =>
        match _play_queue p with
        | [] => _play_queue_consumer fuel' p
        | (audio, duration) :: rest =>
            let p := with_play_queue rest p in
            if bool_decide (_stop_event (modem_of p) = None) then
              match play audio duration p with
              | (Ret _, p) => _play_queue_consumer fuel' p
              | (Raise e, p) => (Raise e, p)
              | (Blocked, p) => (Blocked, p)
              end
            else _play_queue_consumer fuel' p
        end
    end
  else (Ret tt, p).

Lemma send_audio_file_queues (audio_file : option str) (p p' : Playback) :
  send_audio_file audio_file p = (Ret true, p') ->
  exists item, p' = with_play_queue (_play_queue p ++ [item]) p.
Proof.
  unfold send_audio_file. destruct audio_file as [path|]; [|done].
  destruct (negb _); [done|].
  destruct (wave_open path); try done.
  destruct (wav_duration _) as [duration|e|]; try done.
  intros [= <-]. by eexists.
Qed.

(** X22. [send_audio_file] never touches the modem or the threshold.  It
    returns [True] exactly when it has put one item at the end of the
    queue: the frames of the file with a duration that is a float, never
    [None]; this needs a file, a transmit or duplex session, a file that
    opens and a frame rate that is not zero.  It returns [False], with
    nothing queued, without a file, outside such a session, and in a session
    when [wave.open] raises [FileNotFoundError] or [wave.Error].  It raises,
    with nothing queued, in a session only: what [wave.open] raises besides
    these two ([EOFError] on an empty file, [IsADirectoryError]), and the
    [ZeroDivisionError] of a header with frame rate zero. *)
Theorem send_audio_file_outcome (audio_file : option str) (p : Playback) :
  let '(r, p') := send_audio_file audio_file p in
  modem_of p' = modem_of p /\ _silence_seconds p' = _silence_seconds p
  /\ match r with
     | Ret true =>
         exists path nchannels sampwidth framerate nframes d,
           audio_file = Some path
           /\ (_state (modem_of p) = Some VOICE_TRANSMIT
               \/ _state (modem_of p) = Some VOICE_DUPLEX)
           /\ wave_open path = Opened nchannels sampwidth framerate nframes
           /\ framerate <> 0%Z
           /\ int_truediv nframes framerate = Ret d
           /\ _play_queue p' = _play_queue p ++ [(readframes path, Some d)]
     | Ret false =>
         p' = p
         /\ (audio_file = None
             \/ (_state (modem_of p) <> Some VOICE_TRANSMIT
                 /\ _state (modem_of p) <> Some VOICE_DUPLEX)
             \/ exists path, audio_file = Some path
                  /\ (wave_open path = FileNotFoundError
                      \/ wave_open path = WaveError))
     | Raise e =>
         p' = p
         /\ (_state (modem_of p) = Some VOICE_TRANSMIT
             \/ _state (modem_of p) = Some VOICE_DUPLEX)
         /\ exists path,
              audio_file = Some path
              /\ (wave_open path = OtherError e
                  \/ exists nchannels sampwidth framerate nframes,
                       wave_open path = Opened nchannels sampwidth framerate nframes
                       /\ int_truediv nframes framerate = Raise e
                       /\ (framerate = 0%Z <-> e = ZeroDivisionError))
     | Blocked => False
     end.
Proof.
  unfold send_audio_file. destruct audio_file as [path|].
  2: { split; [done|]. split; [done|]. split; [done|]. by left. }
  destruct (bool_decide (_state (modem_of p) = Some VOICE_TRANSMIT)
            || bool_decide (_state (modem_of p) = Some VOICE_DUPLEX)) eqn:Hs;
    cbn [negb].
  2: { apply orb_false_iff in Hs as [Ht Hd].
       apply bool_decide_eq_false in Ht. apply bool_decide_eq_false in Hd.
       split; [done|]. split; [done|]. split; [done|]. right. left. by split. }
  assert (Hsession : _state (modem_of p) = Some VOICE_TRANSMIT
                     \/ _state (modem_of p) = Some VOICE_DUPLEX).
  { apply orb_true_iff in Hs as [Hs | Hs]; apply bool_decide_eq_true in Hs;
      [by left | by right]. }
  clear Hs.
  destruct (wave_open path) as [| |e|nchannels sampwidth framerate nframes] eqn:Hopen.
  - split; [done|]. split; [done|]. split; [done|]. right. right.
    exists path. split; [done|]. by left.
  - split; [done|]. split; [done|]. split; [done|]. right. right.
    exists path. split; [done|]. by right.
  - split; [done|]. split; [done|]. split; [done|]. split; [done|].
    exists path. split; [done|]. by left.
  - cbn [wav_duration].
    assert (Hfloat : forall z e, float_of_int z = Raise e -> e = OverflowError).
    { intros z e. unfold float_of_int.
      destruct (PrimFloat.is_infinity _); [by intros [= <-] | done]. }
    assert (Hreturns : forall z, float_of_int z <> Blocked).
    { intros z. unfold float_of_int. by destruct (PrimFloat.is_infinity _). }
    destruct (int_truediv nframes framerate) as [d|e|] eqn:Hdiv; cbn [rbind].
    + split; [done|]. split; [done|].
      exists path, nchannels, sampwidth, framerate, nframes, d.
      split; [done|]. split; [done|]. split; [done|]. split; [|by split].
      intros ->. unfold int_truediv in Hdiv. by rewrite Z.eqb_refl in Hdiv.
    + split; [done|]. split; [done|]. split; [done|]. split; [done|].
      exists path. split; [done|]. right.
      exists nchannels, sampwidth, framerate, nframes.
      split; [done|]. split; [done|].
      unfold int_truediv in Hdiv. destruct (framerate =? 0)%Z eqn:Hrate.
      * injection Hdiv as <-. apply Z.eqb_eq in Hrate. by split.
      * apply Z.eqb_neq in Hrate. split; [done|]. intros ->.
        destruct (float_of_int nframes) as [fa|e|] eqn:Hfa; cbn [rbind] in Hdiv.
        -- destruct (float_of_int framerate) as [fb|e|] eqn:Hfb;
             cbn [rbind] in Hdiv; try done.
           injection Hdiv as ->. by apply Hfloat in Hfb.
        -- injection Hdiv as ->. by apply Hfloat in Hfa.
        -- done.
    + unfold int_truediv in Hdiv. destruct (framerate =? 0)%Z; [done|].
      destruct (float_of_int nframes) as [fa|e|] eqn:Hfa; cbn [rbind] in Hdiv.
      * destruct (float_of_int framerate) as [fb|e|] eqn:Hfb;
          cbn [rbind] in Hdiv; try done.
        by apply Hreturns in Hfb.
      * done.
      * by apply Hreturns in Hfa.
Qed.

Lemma consumer_drains (fuel : nat) (m : Modem)
    (queue : list (bytes * option float)) (sec : option number) (reason : StopReason) :
  _stop_event m = Some reason ->
  (length queue <= fuel)%nat ->
  _play_queue_consumer fuel
    {| modem_of := m; _play_queue := queue; _silence_seconds := sec |}
  = (Ret tt, {| modem_of := m; _play_queue := []; _silence_seconds := sec |}).
Proof.
  intros Hstop. revert fuel.
  induction queue as [|[audio duration] rest IH]; intros fuel Hfuel.
  - destruct fuel; cbn [_play_queue_consumer modem_of _play_queue];
      rewrite Hstop; by rewrite bool_decide_eq_false_2.
  - destruct fuel as [|fuel]; [cbn [length] in Hfuel; lia|].
    cbn [_play_queue_consumer modem_of _play_queue with_play_queue _silence_seconds].
    rewrite Hstop. rewrite bool_decide_eq_false_2 by done.
    rewrite bool_decide_eq_false_2 by done. cbn [orb negb].
    apply IH. cbn [length] in Hfuel. lia.
Qed.

(** X23. Once a stop reason is set the consumer plays nothing more: it
    takes the queued items one by one, writes none of them, leaves the
    threshold alone and returns when the queue is empty.  So audio that
    [send_audio_file] accepts after the stop reason was set, while the state
    is still that of the session, is dropped. *)
Theorem stopped_consumer_discards_queue (fuel : nat) (p : Playback)
    (reason : StopReason)
    (Hstop : _stop_event (modem_of p) = Some reason)
    (Hfuel : (length (_play_queue p) < fuel)%nat) :
  _play_queue_consumer fuel p = (Ret tt, with_play_queue [] p)
  /\ forall audio_file p1,
       send_audio_file audio_file p = (Ret true, p1) ->
       _play_queue_consumer fuel p1 = (Ret tt, with_play_queue [] p).
Proof.
  split.
  - destruct p as [m queue sec]. apply (consumer_drains _ _ _ _ reason); [done|].
    cbn [_play_queue] in Hfuel. lia.
  - intros audio_file p1 Hsend.
    apply send_audio_file_queues in Hsend as (item & ->).
    destruct p as [m queue sec].
    cbn [modem_of _silence_seconds _play_queue with_play_queue] in *.
    apply (consumer_drains _ _ _ _ reason); [done|].
    rewrite length_app. cbn [length]. lia.
Qed.

End Playing.

Lemma neg_abs_not_positive (a : number) :
  sd_on (Some (number_neg (number_abs a))) = false.
Proof.
  destruct a as [z|f]; cbn [number_abs number_neg sd_on].
  - apply Z.ltb_ge. lia.
  - rewrite FloatAxioms.ltb_spec, FloatAxioms.opp_spec, FloatAxioms.abs_spec.
    by destruct (Prim2SF f) as [s|s| |s m e].
Qed.

Lemma silence_detection_muted (ticks : list bool) (p : Playback) :
  sd_on (_silence_seconds p) = false ->
  (_silence_detection ticks p).2 = p.
Proof.
  intros Hoff. induction ticks as [|overdue ticks IH];
    cbn [_silence_detection]; destruct (_stop_event (modem_of p)); try done.
  unfold silence_detection_round. rewrite Hoff. cbn [negb].
  rewrite orb_true_r. apply IH.
Qed.

(** X24. While the consumer plays an item the silence detection is off:
    in every state whose threshold is the one the consumer set before its
    write (the negated magnitude of the old one, or [None]), whatever the
    level heard and the time elapsed, the rounds of [_silence_detection]
    change nothing and create no [silence_callback] task. *)
Theorem playing_mutes_silence_detection (audio : bytes) (p0 p : Playback)
    (ticks : list bool)
    (Hsec : _silence_seconds p = _silence_seconds (playing audio p0)) :
  (_silence_detection ticks p).2 = p
  /\ writer (modem_of (playing audio p0)) = writer (modem_of p0) ++ [audio].
Proof.
  split; [|done].
  apply silence_detection_muted. rewrite Hsec.
  unfold playing. cbn [_silence_seconds with_modem with_silence_seconds].
  destruct (_silence_seconds p0) as [a|]; [|done].
  apply neg_abs_not_positive.
Qed.

(** A duplex session that hears silence, with a threshold of two seconds and
    a half. *)
Definition quiet_duplex : Playback :=
  {| modem_of := with_silence true
                   (with_running true
                      (with_state (Some VOICE_DUPLEX)
                         (with_mode (Some VOICE) (new_Modem []))));
     _play_queue := [];
     _silence_seconds := Some (PyFloat 2.5) |}.

Lemma playing_mutes_silence_detection_witness :
  spawned (modem_of (_silence_detection [true; true]
                       (playing [128; 127] quiet_duplex)).2) = []
  /\ spawned (modem_of (_silence_detection [true] quiet_duplex).2)
     = [coro_silence_callback]
  /\ (_silence_detection [true]
        (with_modem (Callblock_hooks (modem_of quiet_duplex)) quiet_duplex)).1
     = Raise TypeError.
Proof.
  split; [|by vm_compute].
  destruct (playing_mutes_silence_detection [128; 127] quiet_duplex
              (playing [128; 127] quiet_duplex) [true; true] eq_refl) as [-> _].
  reflexivity.
Defined.

Lemma stopped_consumer_discards_queue_witness :
  _play_queue_consumer (fun _ p => (Ret tt, p)) 3
    {| modem_of := with_stop_event (Some Busy) (modem_of quiet_duplex);
       _play_queue := [([128; 127], Some 1%float); ([128; 127], None)];
       _silence_seconds := Some (PyInt 3) |}
  = (Ret tt,
     {| modem_of := with_stop_event (Some Busy) (modem_of quiet_duplex);
        _play_queue := [];
        _silence_seconds := Some (PyInt 3) |}).
Proof.
  destruct (stopped_consumer_discards_queue
              (fun _ => FileNotFoundError) (fun _ => [])
              (fun _ p => (Ret tt, p)) 3
              {| modem_of := with_stop_event (Some Busy) (modem_of quiet_duplex);
                 _play_queue := [([128; 127], Some 1%float); ([128; 127], None)];
                 _silence_seconds := Some (PyInt 3) |}
              Busy eq_refl) as [Hdrain _].
  - cbn [_play_queue length]. lia.
  - exact Hdrain.
Defined.
